(** * skopeo sync: inventory planning and destination scoping

    A shallow embedding of [cmd/skopeo/sync.go] and a verification of the
    properties its specification states about it.

    The Go code is effectful: it logs, walks and creates directories,
    dereferences pointers to [types.SystemContext] values and may panic.
    Those effects are threaded explicitly through a small monad over a
    [World] (file system, heap of system contexts, log).  Everything the
    command takes from other packages (the regexp engine, the docker and
    directory transports, the YAML parser, the copy engine) is collected
    in the class [Env]; the theorems hold for every instance of it. *)

From Stdlib Require Import ZArith Ascii String Floats.SpecFloat.
From stdpp Require Import base tactics option list strings pretty.

Set Warnings "-register-all".

Local Open Scope string_scope.
Local Open Scope list_scope.

(** ** Go strings *)

Module GoStrings.

(** The double quote, for [%q]. *)
Definition dquote : string := String (Ascii.ascii_of_nat 34) EmptyString.

(** [fmt.Sprintf("%q", s)] for strings without characters to escape. *)
Definition quoted (s : string) : string := dquote +:+ s +:+ dquote.

Definition is_slash (c : ascii) : bool := Ascii.eqb c "/"%char.

(** [strings.Split(s, sep)] for a one-byte separator: [n+1] pieces for [n]
    occurrences of the separator. *)
Fixpoint Split (s : string) (sep : ascii) : list string :=
  match s with
  | EmptyString => [EmptyString]
  | String c r =>
      if Ascii.eqb c sep then EmptyString :: Split r sep
      else match Split r sep with
           | h :: t => String c h :: t
           | [] => [String c EmptyString]
           end
  end.

(** [strings.Join(elems, sep)]. *)
Fixpoint Join (elems : list string) (sep : string) : string :=
  match elems with
  | [] => ""
  | [e] => e
  | e :: r => e +:+ sep +:+ Join r sep
  end.

(** [s[len(prefix):]] when [prefix] is a prefix of [s]. *)
Fixpoint CutPrefix (s prefix : string) : option string :=
  match prefix, s with
  | EmptyString, _ => Some s
  | String a p, String b r => if Ascii.eqb a b then CutPrefix r p else None
  | String _ _, EmptyString => None
  end.

Definition HasPrefix (s prefix : string) : bool :=
  match CutPrefix s prefix with Some _ => true | None => false end.

(** [strings.TrimPrefix]: [s] without the leading [prefix]; [s] itself
    when it does not start with [prefix]. *)
Definition TrimPrefix (s prefix : string) : string :=
  match CutPrefix s prefix with Some r => r | None => s end.

(** [!strings.ContainsRune(s, c)] for a one-byte [c]. *)
Fixpoint lacks (c : ascii) (s : string) : bool :=
  match s with
  | EmptyString => true
  | String x r => negb (Ascii.eqb x c) && lacks c r
  end.

Fixpoint has_slash (s : string) : bool :=
  match s with
  | EmptyString => false
  | String c r => is_slash c || has_slash r
  end.

End GoStrings.

(** ** Go path and path/filepath (Unix) *)

Module GoPath.
Import GoStrings.

(** One step of the lexical processing of [Clean]: [stack] holds the
    components kept so far, innermost first. *)
Definition clean_step (rooted : bool) (stack : list string) (c : string)
  : list string :=
  if String.eqb c "" then stack
  else if String.eqb c "." then stack
  else if String.eqb c ".." then
    match stack with
    | top :: rest =>
        if String.eqb top ".." then c :: stack else rest
    | [] => if rooted then [] else [c]
    end
  else c :: stack.

(** [path.Clean]: the shortest path name equivalent to [p] by purely
    lexical processing. *)
Definition Clean (p : string) : string :=
  let rooted := HasPrefix p "/" in
  let stack := fold_left (clean_step rooted) (Split p "/"%char) [] in
  let out := (if rooted then "/" else "") +:+ Join (rev stack) "/" in
  if String.eqb out "" then "." else out.

(** [path.Join(a, b)] (and [filepath.Join] on Unix): empty elements are
    ignored, the rest is joined with a slash and cleaned. *)
Definition Join2 (a b : string) : string :=
  if String.eqb a "" then (if String.eqb b "" then "" else Clean b)
  else Clean (a +:+ "/" +:+ b).

Fixpoint strip_trailing_slashes (s : string) : string :=
  match s with
  | EmptyString => EmptyString
  | String c r =>
      match strip_trailing_slashes r with
      | EmptyString => if is_slash c then EmptyString else String c EmptyString
      | r' => String c r'
      end
  end.

Fixpoint after_last_slash (s : string) : string :=
  match s with
  | EmptyString => EmptyString
  | String c r =>
      if has_slash r then after_last_slash r
      else if is_slash c then r else String c r
  end.

(** [path.Base]: the last element of the path. *)
Definition Base (p : string) : string :=
  if String.eqb p "" then "."
  else
    let q := after_last_slash (strip_trailing_slashes p) in
    if String.eqb q "" then "/" else q.

(** [p[:i+1]] for [i] the index of the last slash of [p]. *)
Fixpoint through_last_slash (s : string) : string :=
  match s with
  | EmptyString => EmptyString
  | String c r =>
      if has_slash r then String c (through_last_slash r)
      else if is_slash c then String c EmptyString else EmptyString
  end.

(** [filepath.Dir]: all but the last element of the path, cleaned. *)
Definition Dir (p : string) : string := Clean (through_last_slash p).

End GoPath.

(** ** Errors, values and records of the command *)

Inductive Errno := ENOENT | ENOTDIR | EACCES | EISDIR.

(** Go [error] values, as far as the command tells them apart. *)
Inductive error :=
| ErrorString (msg : string)                      (* errors.New, errors.Errorf *)
| Wrapped (cause : error) (msg : string)           (* errors.Wrap, errors.Wrapf *)
| PathError (op path : string) (errno : Errno)     (* *os.PathError *)
| ErrUnauthorizedForCredentials (msg : string)     (* docker.ErrUnauthorizedForCredentials *)
| SkipDir                                          (* filepath.SkipDir *)
| errorShouldDisplayUsage (e : error).

(** [os.IsNotExist]. *)
Definition IsNotExist (e : error) : bool :=
  match e with PathError _ _ ENOENT => true | _ => false end.

Definition is_SkipDir (e : error) : bool :=
  match e with SkipDir => true | _ => false end.

(** [types.OptionalBool]; its zero value is [OptionalBoolUndefined]. *)
Inductive OptionalBool := OptionalBoolUndefined | OptionalBoolTrue | OptionalBoolFalse.

Definition NewOptionalBool (b : bool) : OptionalBool :=
  if b then OptionalBoolTrue else OptionalBoolFalse.

Definition OptionalBool_eqb (a b : OptionalBool) : bool :=
  match a, b with
  | OptionalBoolUndefined, OptionalBoolUndefined
  | OptionalBoolTrue, OptionalBoolTrue
  | OptionalBoolFalse, OptionalBoolFalse => true
  | _, _ => false
  end.

Record DockerAuthConfig := {
  Username : string;
  Password : string;
}.

(** The fields of [types.SystemContext] that the command writes, and three
    of those it leaves alone.  [DockerAuthConfig] is a pointer in Go; the
    pointee is never written, so it is held by value ([None] is nil). *)
Record SystemContext := {
  DockerCertPath : string;
  DockerDaemonCertPath : string;
  DockerDaemonInsecureSkipTLSVerify : bool;
  DockerInsecureSkipTLSVerify : OptionalBool;
  DockerAuthConfig_ : option DockerAuthConfig;
  AuthFilePath : string;
  RegistriesDirPath : string;
  SystemRegistriesConfPath : string;
}.

Definition set_DockerCertPath (v : string) (c : SystemContext) : SystemContext :=
  {| DockerCertPath := v;
     DockerDaemonCertPath := DockerDaemonCertPath c;
     DockerDaemonInsecureSkipTLSVerify := DockerDaemonInsecureSkipTLSVerify c;
     DockerInsecureSkipTLSVerify := DockerInsecureSkipTLSVerify c;
     DockerAuthConfig_ := DockerAuthConfig_ c;
     AuthFilePath := AuthFilePath c;
     RegistriesDirPath := RegistriesDirPath c;
     SystemRegistriesConfPath := SystemRegistriesConfPath c |}.

Definition set_DockerDaemonCertPath (v : string) (c : SystemContext) : SystemContext :=
  {| DockerCertPath := DockerCertPath c;
     DockerDaemonCertPath := v;
     DockerDaemonInsecureSkipTLSVerify := DockerDaemonInsecureSkipTLSVerify c;
     DockerInsecureSkipTLSVerify := DockerInsecureSkipTLSVerify c;
     DockerAuthConfig_ := DockerAuthConfig_ c;
     AuthFilePath := AuthFilePath c;
     RegistriesDirPath := RegistriesDirPath c;
     SystemRegistriesConfPath := SystemRegistriesConfPath c |}.

Definition set_DockerDaemonInsecureSkipTLSVerify (v : bool) (c : SystemContext)
  : SystemContext :=
  {| DockerCertPath := DockerCertPath c;
     DockerDaemonCertPath := DockerDaemonCertPath c;
     DockerDaemonInsecureSkipTLSVerify := v;
     DockerInsecureSkipTLSVerify := DockerInsecureSkipTLSVerify c;
     DockerAuthConfig_ := DockerAuthConfig_ c;
     AuthFilePath := AuthFilePath c;
     RegistriesDirPath := RegistriesDirPath c;
     SystemRegistriesConfPath := SystemRegistriesConfPath c |}.

Definition set_DockerInsecureSkipTLSVerify (v : OptionalBool) (c : SystemContext)
  : SystemContext :=
  {| DockerCertPath := DockerCertPath c;
     DockerDaemonCertPath := DockerDaemonCertPath c;
     DockerDaemonInsecureSkipTLSVerify := DockerDaemonInsecureSkipTLSVerify c;
     DockerInsecureSkipTLSVerify := v;
     DockerAuthConfig_ := DockerAuthConfig_ c;
     AuthFilePath := AuthFilePath c;
     RegistriesDirPath := RegistriesDirPath c;
     SystemRegistriesConfPath := SystemRegistriesConfPath c |}.

Definition set_DockerAuthConfig (v : option DockerAuthConfig) (c : SystemContext)
  : SystemContext :=
  {| DockerCertPath := DockerCertPath c;
     DockerDaemonCertPath := DockerDaemonCertPath c;
     DockerDaemonInsecureSkipTLSVerify := DockerDaemonInsecureSkipTLSVerify c;
     DockerInsecureSkipTLSVerify := DockerInsecureSkipTLSVerify c;
     DockerAuthConfig_ := v;
     AuthFilePath := AuthFilePath c;
     RegistriesDirPath := RegistriesDirPath c;
     SystemRegistriesConfPath := SystemRegistriesConfPath c |}.

(** [reference.Named] of docker/distribution: a normalized repository name
    with an optional tag and an optional digest. *)
Record Named := {
  named_name : string;
  named_tag : option string;
  named_digest : option string;
}.

(** [types.ImageReference], for the two transports the command handles. *)
Inductive ImageReference :=
| dockerReference (ref : Named)    (* [ref] is DockerReference() *)
| dirReference (path : string).    (* [path] is StringWithinTransport() *)

(** A pointer to a [types.SystemContext]: an index into the heap. *)
Definition ptr := nat.

(** [repoDescriptor] *)
Record repoDescriptor := {
  DirBasePath : string;
  TaggedImages : list ImageReference;
  Context : ptr;
}.

(** A decoded YAML value, with the dynamic types [yaml.v2] produces for an
    [interface{}] target, and [[]string], which the command also accepts. *)
Inductive yamlValue :=
| YNil
| YString (s : string)
| YInt (z : Z)
| YFloat64 (f : spec_float)
| YBool (b : bool)
| YUint64 (z : Z)
| YSlice (l : list yamlValue)              (* []interface{} *)
| YStrings (l : list string)               (* []string *)
| YMap (m : list (yamlValue * yamlValue)).  (* map[interface{}]interface{} *)

(** [tlsVerifyConfig] *)
Record tlsVerifyConfig := {
  skip : OptionalBool;
}.

(** [registrySyncConfig].  [Images] is a Go map; the list gives its entries
    in the order in which [range] visits them. *)
Record registrySyncConfig := {
  Images : list (string * yamlValue);
  Credentials : DockerAuthConfig;
  TLSVerify : tlsVerifyConfig;
  CertDir : string;
}.

(** [sourceConfig], a Go map as well.  Decoding lists the registries in
    the order of the document, which is one of the orders in which
    [range] may visit them: Go does not fix that order, and what is to
    hold of every run is stated for every permutation of the list. *)
Definition sourceConfig := list (string * registrySyncConfig).

(** [syncOptions], without the option structs that only feed the context
    constructors of [Env]. *)
Record syncOptions := {
  removeSignatures : bool;
  signByFingerprint : string;
  source : string;
  destination : string;
  scoped : bool;
}.

(** ** The world: file system, heap and log *)

(** A file system tree.  A directory lists its entries in no particular
    order and records whether entries may be created in it. *)
Inductive node :=
| File (content : string)
| Directory (writable : bool) (entries : list (string * node)).

Definition IsDir (n : node) : bool :=
  match n with Directory _ _ => true | File _ => false end.

Inductive Level := DebugLevel | InfoLevel | WarnLevel | ErrorLevel.

Record logEntry := {
  level : Level;
  fields : list (string * string);
  message : string;
}.

Record World := {
  w_fs : node;
  w_heap : list SystemContext;
  w_log : list logEntry;
}.

Definition with_fs (n : node) (w : World) : World :=
  {| w_fs := n; w_heap := w_heap w; w_log := w_log w |}.
Definition with_heap (h : list SystemContext) (w : World) : World :=
  {| w_fs := w_fs w; w_heap := h; w_log := w_log w |}.
Definition with_log (l : list logEntry) (w : World) : World :=
  {| w_fs := w_fs w; w_heap := w_heap w; w_log := l |}.

(** The result of running Go code: it returns, or it panics. *)
Inductive outcome (A : Type) :=
| Returned (a : A) (w : World)
| Panicked (reason : string) (w : World).
Arguments Returned {A} a w.
Arguments Panicked {A} reason w.

Definition Go (A : Type) : Type := World -> outcome A.

#[global] Instance Go_ret : MRet Go := fun A a w => Returned a w.
#[global] Instance Go_bind : MBind Go := fun A B f m w =>
  match m w with
  | Returned a w' => f a w'
  | Panicked r w' => Panicked r w'
  end.

Definition panic {A} (reason : string) : Go A := fun w => Panicked reason w.
Definition get_world : Go World := fun w => Returned w w.

Definition nil_dereference : string :=
  "runtime error: invalid memory address or nil pointer dereference".
Definition index_out_of_range : string := "runtime error: index out of range".

(** [*p] *)
Definition load (p : ptr) : Go SystemContext := fun w =>
  match w_heap w !! p with
  | Some c => Returned c w
  | None => Panicked nil_dereference w
  end.

(** [p.f = v], as an update of the pointee. *)
Definition store (p : ptr) (f : SystemContext -> SystemContext) : Go unit := fun w =>
  match w_heap w !! p with
  | Some c => Returned tt (with_heap (<[p := f c]> (w_heap w)) w)
  | None => Panicked nil_dereference w
  end.

(** A variable whose address is taken lives on the heap. *)
Definition alloc (c : SystemContext) : Go ptr := fun w =>
  Returned (length (w_heap w)) (with_heap (w_heap w ++ [c]) w).

(** logrus.WithFields(fields).Level(msg) *)
Definition logrus (lvl : Level) (flds : list (string * string)) (msg : string)
  : Go unit := fun w =>
  Returned tt (with_log (w_log w ++ [{| level := lvl; fields := flds; message := msg |}]) w).

(** [for _, x := range l { s = body x s }]: a loop whose body ends normally
    or by [continue]. *)
Fixpoint for_range {A S : Type} (l : list A) (body : A -> S -> Go S) (s : S) : Go S :=
  match l with
  | [] => mret s
  | x :: r => s' ← body x s; for_range r body s'
  end.

(** A loop whose body may also [return]: [inr r] leaves the function. *)
Fixpoint for_range_return {A S R : Type} (l : list A)
    (body : A -> S -> Go (S + R)) (s : S) : Go (S + R) :=
  match l with
  | [] => mret (inl s)
  | x :: r =>
      o ← body x s;
      match o with
      | inl s' => for_range_return r body s'
      | inr res => mret (inr res)
      end
  end.

(** ** What a piece of Go code leaves as it is *)

(** [keeps R m]: when [m] returns, the worlds before and after are
    related by [R]. *)
Definition keeps {A} (R : World -> World -> Prop) (m : Go A) : Prop :=
  forall w a w', m w = Returned a w' -> R w w'.

(** Nothing but the log changes. *)
Definition only_logs (w w' : World) : Prop :=
  w_heap w' = w_heap w /\ w_fs w' = w_fs w.

(** ** The file system operations of package os and path/filepath *)

Module FS.
Import GoStrings GoPath.

(** The components of a path.  The working directory is the root of the
    tree, and [..] is resolved lexically. *)
Definition components (p : string) : list string :=
  rev (fold_left (clean_step true) (Split p "/"%char) []).

Fixpoint find_entry {A} (name : string) (entries : list (string * A)) : option A :=
  match entries with
  | [] => None
  | (n, x) :: r => if String.eqb n name then Some x else find_entry name r
  end.

Fixpoint replace_entry {A} (name : string) (x : A) (entries : list (string * A))
  : list (string * A) :=
  match entries with
  | [] => []
  | (n, y) :: r =>
      if String.eqb n name then (n, x) :: r else (n, y) :: replace_entry name x r
  end.

(** Path resolution from directory [n]. *)
Fixpoint resolve (n : node) (comps : list string) : node + Errno :=
  match comps with
  | [] => inl n
  | c :: r =>
      match n with
      | File _ => inr ENOTDIR
      | Directory _ es =>
          match find_entry c es with
          | Some n' => resolve n' r
          | None => inr ENOENT
          end
      end
  end.

(** [os.Stat] (and [os.Lstat]: the tree has no symbolic links). *)
Definition Stat (fs : node) (p : string) : node + error :=
  if String.eqb p "" then inr (PathError "stat" p ENOENT)
  else
    match resolve fs (components p) with
    | inl n => inl n
    | inr e => inr (PathError "stat" p e)
    end.

(** Creation of the directories along [comps] that do not exist yet. *)
Fixpoint mkdir_all (n : node) (comps : list string) : node + Errno :=
  match comps with
  | [] => match n with Directory _ _ => inl n | File _ => inr ENOTDIR end
  | c :: r =>
      match n with
      | File _ => inr ENOTDIR
      | Directory w es =>
          match find_entry c es with
          | Some n' =>
              match mkdir_all n' r with
              | inl n'' => inl (Directory w (replace_entry c n'' es))
              | inr e => inr e
              end
          | None =>
              if w then
                match mkdir_all (Directory true []) r with
                | inl n'' => inl (Directory w (es ++ [(c, n'')]))
                | inr e => inr e
                end
              else inr EACCES
          end
      end
  end.

(** [os.MkdirAll(p, 0755)] *)
Definition MkdirAll (p : string) : Go (option error) := fun w =>
  if String.eqb p "" then Returned (Some (PathError "mkdir" p ENOENT)) w
  else
    match mkdir_all (w_fs w) (components p) with
    | inl fs' => Returned None (with_fs fs' w)
    | inr e => Returned (Some (PathError "mkdir" p e)) w
    end.

(** [ioutil.ReadFile] *)
Definition ReadFile (fs : node) (p : string) : string + error :=
  match Stat fs p with
  | inr (PathError _ _ e) => inr (PathError "open" p e)
  | inr e => inr e
  | inl (File content) => inl content
  | inl (Directory _ _) => inr (PathError "read" p EISDIR)
  end.

(** Insertion of an entry into a list sorted by name. *)
Fixpoint insert_by_name {A} (e : string * A) (l : list (string * A))
  : list (string * A) :=
  match l with
  | [] => [e]
  | e' :: r =>
      if String.leb (fst e) (fst e') then e :: l else e' :: insert_by_name e r
  end.

(** The entries in the order of [readDirNames], which sorts the names. *)
Definition sort_by_name {A} (l : list (string * A)) : list (string * A) :=
  fold_right insert_by_name [] l.

(** [os.FileInfo], as far as a [WalkFunc] looks at it. *)
Record FileInfo := {
  Name : string;
  FileInfo_IsDir : bool;
}.

Section Walk.
Context {St : Type}.

(** A [filepath.WalkFunc] closing over a variable of type [St]: it is given
    the path, the [FileInfo] (nil on error) and the error. *)
Variable walkFn : string -> option FileInfo -> option error -> St -> St * option error.

(** The loop of [walk] over the entries of a directory; each entry comes
    with the walk of its own subtree. *)
Fixpoint walk_entries (path : string)
    (entries : list (string * (bool * (string -> St -> St * option error))))
    (s : St) : St * option error :=
  match entries with
  | [] => (s, None)
  | (name, (isdir, walk_child)) :: rest =>
      let '(s', err) := walk_child (Join2 path name) s in
      match err with
      | Some e =>
          if negb isdir || negb (is_SkipDir e) then (s', Some e)
          else walk_entries path rest s'
      | None => walk_entries path rest s'
      end
  end.

(** [walk] of path/filepath. *)
Fixpoint walk (name : string) (n : node) (path : string) (s : St) {struct n}
  : St * option error :=
  match n with
  | File _ =>
      walkFn path (Some {| Name := name; FileInfo_IsDir := false |}) None s
  | Directory _ es =>
      let '(s1, err1) :=
        walkFn path (Some {| Name := name; FileInfo_IsDir := true |}) None s in
      match err1 with
      | Some e => (s1, Some e)
      | None =>
          walk_entries path
            (sort_by_name (map (fun e => (fst e, (IsDir (snd e), walk (fst e) (snd e)))) es))
            s1
      end
  end.

(** [filepath.Walk] *)
Definition Walk (fs : node) (root : string) (s : St) : St * option error :=
  let '(s', err) :=
    match Stat fs root with
    | inr e => walkFn root None (Some e) s
    | inl n => walk (Base root) n root s
    end in
  match err with
  | Some SkipDir => (s', None)
  | _ => (s', err)
  end.
End Walk.

End FS.

(** ** What the command takes from other packages *)

(** [copy.Options], as filled in by the command. *)
Record copyOptions := {
  RemoveSignatures : bool;
  SignBy : string;
  SourceCtx : ptr;
  DestinationCtx : ptr;
}.

Class Env := {
  (** package regexp *)
  Regexp : Type;
  regexp_Compile : string -> Regexp + error;
  Regexp_Match : Regexp -> string -> bool;
  (** [reference.ParseNormalizedNamed] *)
  reference_ParseNormalizedNamed : string -> Named + error;
  (** [docker.GetRepositoryTags], given the pointee of its context argument
      (nil is allowed).  It returns a nil slice with every error. *)
  docker_GetRepositoryTags : option SystemContext -> Named -> list string + error;
  (** The error, if any, of resolving a path for a directory reference. *)
  directory_resolve_error : node -> string -> option error;
  (** [yaml.Unmarshal] into an [interface{}]. *)
  yaml_Unmarshal : string -> yamlValue + error;
  (** [fmt.Sprintf("%v", f)] for a float64. *)
  format_float64 : spec_float -> string;
  (** [copy.Image]; it may write to the file system. *)
  copy_Image : ImageReference -> ImageReference -> copyOptions ->
               list SystemContext -> node -> option error * node;
  (** [globalOptions.getPolicyContext] and the context constructors of the
      source and destination image options. *)
  getPolicyContext : option error;
  srcImage_newSystemContext : SystemContext + error;
  destImage_newSystemContext : SystemContext + error;
}.

(** A Go result pair [(v, err)] from a sum: [zero] stands for the value
    returned along with an error. *)
Definition go_pair {A} (zero : A) (r : A + error) : A * option error :=
  match r with
  | inl a => (a, None)
  | inr e => (zero, Some e)
  end.

Module Reference.
Import GoStrings.

(** [Named.String()] *)
Definition String_ (n : Named) : string :=
  named_name n
  +:+ match named_tag n with Some t => ":" +:+ t | None => "" end
  +:+ match named_digest n with Some d => "@" +:+ d | None => "" end.

(** [Named.Name()] *)
Definition Name (n : Named) : string := named_name n.

(** [reference.IsNameOnly] *)
Definition IsNameOnly (n : Named) : bool :=
  match named_tag n, named_digest n with
  | None, None => true
  | _, _ => false
  end.

(** [reference.TagNameOnly]: the default tag for a bare name. *)
Definition TagNameOnly (n : Named) : Named :=
  if IsNameOnly n
  then {| named_name := named_name n; named_tag := Some "latest"; named_digest := None |}
  else n.

(** [docker.NewReference] *)
Definition NewReference (n : Named) : ImageReference + error :=
  if IsNameOnly n then
    inr (ErrorString ("Docker reference " +:+ String_ n +:+ " has neither a tag nor a digest"))
  else
    match named_tag n, named_digest n with
    | Some _, Some _ =>
        inr (ErrorString "Docker references with both a tag and digest are currently not supported")
    | _, _ => inl (dockerReference n)
    end.

End Reference.

(** ** Decoding the source YAML file

    [yaml.v2] decodes the document into [sourceConfig] by the field names
    of [registrySyncConfig].  The decoder is modelled on the generic value
    of the document for keys and strings given as YAML strings; the one
    part of it that belongs to the command is [UnmarshalYAML]. *)

Module Yaml.

(** [tlsVerifyConfig.UnmarshalYAML].  [unmarshal] decodes the value of
    the key into the variable it is given, here a [bool]. *)
Definition UnmarshalYAML (tls : tlsVerifyConfig) (unmarshal : bool -> bool + error)
  : tlsVerifyConfig * option error :=
  let verify := false in
  match unmarshal verify with
  | inr err => (tls, Some err)
  | inl verify => ({| skip := NewOptionalBool (negb verify) |}, None)
  end.

Definition type_error (what : string) : error :=
  ErrorString ("yaml: unmarshal errors: cannot unmarshal " +:+ what).

(** Decoding into a [bool]. *)
Definition decode_bool (v : yamlValue) (out : bool) : bool + error :=
  match v with
  | YBool b => inl b
  | YNil => inl out
  | _ => inr (type_error "into bool")
  end.

(** Decoding into a [string]. *)
Definition decode_string (v : yamlValue) (out : string) : string + error :=
  match v with
  | YString s => inl s
  | YNil => inl out
  | _ => inr (type_error "into string")
  end.

(** [m[k] = v] on a map held as a list. *)
Fixpoint map_set {A} (k : string) (v : A) (m : list (string * A)) : list (string * A) :=
  match m with
  | [] => [(k, v)]
  | (k', v') :: r =>
      if String.eqb k' k then (k, v) :: r else (k', v') :: map_set k v r
  end.

(** Decoding into a [map[string]interface{}]. *)
Fixpoint decode_images_entries (m : list (yamlValue * yamlValue))
    (out : list (string * yamlValue)) : list (string * yamlValue) + error :=
  match m with
  | [] => inl out
  | (YString k, v) :: r => decode_images_entries r (map_set k v out)
  | _ :: _ => inr (type_error "into map[string]interface {}")
  end.

Definition decode_images (v : yamlValue) (out : list (string * yamlValue))
  : list (string * yamlValue) + error :=
  match v with
  | YMap m => decode_images_entries m out
  | YNil => inl out
  | _ => inr (type_error "into map[string]interface {}")
  end.

Definition set_Username (s : string) (c : DockerAuthConfig) : DockerAuthConfig :=
  {| Username := s; Password := Password c |}.
Definition set_Password (s : string) (c : DockerAuthConfig) : DockerAuthConfig :=
  {| Username := Username c; Password := s |}.

(** Decoding into a [types.DockerAuthConfig]. *)
Fixpoint decode_credentials_fields (m : list (yamlValue * yamlValue))
    (out : DockerAuthConfig) : DockerAuthConfig + error :=
  match m with
  | [] => inl out
  | (YString k, v) :: r =>
      if String.eqb k "username" then
        match decode_string v (Username out) with
        | inl s => decode_credentials_fields r (set_Username s out)
        | inr e => inr e
        end
      else if String.eqb k "password" then
        match decode_string v (Password out) with
        | inl s => decode_credentials_fields r (set_Password s out)
        | inr e => inr e
        end
      else decode_credentials_fields r out
  | _ :: _ => inr (type_error "into types.DockerAuthConfig")
  end.

Definition decode_credentials (v : yamlValue) (out : DockerAuthConfig)
  : DockerAuthConfig + error :=
  match v with
  | YMap m => decode_credentials_fields m out
  | YNil => inl out
  | _ => inr (type_error "into types.DockerAuthConfig")
  end.

Definition set_Images v (c : registrySyncConfig) : registrySyncConfig :=
  {| Images := v; Credentials := Credentials c; TLSVerify := TLSVerify c;
     CertDir := CertDir c |}.
Definition set_Credentials v (c : registrySyncConfig) : registrySyncConfig :=
  {| Images := Images c; Credentials := v; TLSVerify := TLSVerify c;
     CertDir := CertDir c |}.
Definition set_TLSVerify v (c : registrySyncConfig) : registrySyncConfig :=
  {| Images := Images c; Credentials := Credentials c; TLSVerify := v;
     CertDir := CertDir c |}.
Definition set_CertDir v (c : registrySyncConfig) : registrySyncConfig :=
  {| Images := Images c; Credentials := Credentials c; TLSVerify := TLSVerify c;
     CertDir := v |}.

(** The zero value of [registrySyncConfig]. *)
Definition zero_registrySyncConfig : registrySyncConfig :=
  {| Images := [];
     Credentials := {| Username := ""; Password := "" |};
     TLSVerify := {| skip := OptionalBoolUndefined |};
     CertDir := "" |}.

(** The keys of one registry entry, in document order.  A key without a
    field is ignored; the [Unmarshaler] of a field is called for a key
    that is present and not null. *)
Fixpoint decode_registry_fields (m : list (yamlValue * yamlValue))
    (out : registrySyncConfig) : registrySyncConfig + error :=
  match m with
  | [] => inl out
  | (YString k, v) :: r =>
      if String.eqb k "images" then
        match decode_images v (Images out) with
        | inl x => decode_registry_fields r (set_Images x out)
        | inr e => inr e
        end
      else if String.eqb k "credentials" then
        match decode_credentials v (Credentials out) with
        | inl x => decode_registry_fields r (set_Credentials x out)
        | inr e => inr e
        end
      else if String.eqb k "tls-verify" then
        match v with
        | YNil => decode_registry_fields r out
        | _ =>
            match UnmarshalYAML (TLSVerify out) (decode_bool v) with
            | (tls, None) => decode_registry_fields r (set_TLSVerify tls out)
            | (_, Some e) => inr e
            end
        end
      else if String.eqb k "cert-dir" then
        match decode_string v (CertDir out) with
        | inl x => decode_registry_fields r (set_CertDir x out)
        | inr e => inr e
        end
      else decode_registry_fields r out
  | _ :: _ => inr (type_error "into main.registrySyncConfig")
  end.

Definition decode_registry (v : yamlValue) : registrySyncConfig + error :=
  match v with
  | YMap m => decode_registry_fields m zero_registrySyncConfig
  | YNil => inl zero_registrySyncConfig
  | _ => inr (type_error "into main.registrySyncConfig")
  end.

Fixpoint decode_registries (m : list (yamlValue * yamlValue)) (out : sourceConfig)
  : sourceConfig + error :=
  match m with
  | [] => inl out
  | (YString k, v) :: r =>
      match decode_registry v with
      | inl c => decode_registries r (map_set k c out)
      | inr e => inr e
      end
  | _ :: _ => inr (type_error "into main.sourceConfig")
  end.

(** Decoding the document into a [sourceConfig]. *)
Definition decode_sourceConfig (v : yamlValue) : sourceConfig + error :=
  match v with
  | YMap m => decode_registries m []
  | YNil => inl []
  | _ => inr (type_error "into main.sourceConfig")
  end.

End Yaml.

(** ** cmd/skopeo/sync.go *)

Module Sync.
Import GoStrings.

Section WithEnv.
Context {E : Env}.

(** [err.Error()] *)
Fixpoint Error (e : error) : string :=
  match e with
  | ErrorString msg => msg
  | Wrapped cause msg => msg +:+ ": " +:+ Error cause
  | PathError op path errno =>
      op +:+ " " +:+ path +:+ ": "
      +:+ match errno with
          | ENOENT => "no such file or directory"
          | ENOTDIR => "not a directory"
          | EACCES => "permission denied"
          | EISDIR => "is a directory"
          end
  | ErrUnauthorizedForCredentials msg =>
      "unable to retrieve auth token: invalid username/password: " +:+ msg
  | SkipDir => "skip this directory"
  | errorShouldDisplayUsage e' => Error e'
  end.

(** [docker.ParseReference] *)
Definition docker_ParseReference (refString : string) : ImageReference + error :=
  if negb (HasPrefix refString "//") then
    inr (ErrorString ("docker: image reference " +:+ refString +:+ " does not start with //"))
  else
    match reference_ParseNormalizedNamed (TrimPrefix refString "//") with
    | inr err => inr err
    | inl ref => Reference.NewReference (Reference.TagNameOnly ref)
    end.

(** [directory.Transport.ParseReference], on the current file system. *)
Definition directory_ParseReference (path : string) : Go (ImageReference + error) :=
  fun w =>
    match directory_resolve_error (w_fs w) path with
    | Some err => Returned (inr err) w
    | None => Returned (inl (dirReference path)) w
    end.

(** [ref.DockerReference()]: nil for a directory reference. *)
Definition DockerReference (ref : ImageReference) : option Named :=
  match ref with
  | dockerReference n => Some n
  | dirReference _ => None
  end.

(** A method call on the result of [DockerReference()]. *)
Definition on_DockerReference {A} (ref : ImageReference) (method : Named -> A) : Go A :=
  match DockerReference ref with
  | Some n => mret (method n)
  | None => panic nil_dereference
  end.

(** [transports.ImageName] *)
Definition ImageName (ref : ImageReference) : string :=
  match ref with
  | dockerReference n => "docker://" +:+ Reference.String_ n
  | dirReference p => "dir:" +:+ p
  end.

(** The pointee of a context pointer handed to another package. *)
Definition peek (p : ptr) : Go (option SystemContext) :=
  fun w => Returned (w_heap w !! p) w.

Definition cannot_obtain (transport reference_ : string) : string :=
  "Cannot obtain a valid image reference for transport " +:+ quoted transport
  +:+ " and reference " +:+ quoted reference_.

Definition getImageTags (sysCtx : ptr) (imgRef : ImageReference)
  : Go (list string * option error) :=
  name ← on_DockerReference imgRef Reference.Name;
  logrus InfoLevel [("image", name)] "Getting tags";;
  c ← peek sysCtx;
  ref ← on_DockerReference imgRef id;
  let '(tags, err) := go_pair [] (docker_GetRepositoryTags c ref) in
  match err with
  | None => mret (tags, None)
  | Some (ErrUnauthorizedForCredentials _ as err) =>
      logrus WarnLevel [] ("Registry disallows tag list retrieval: " +:+ Error err);;
      mret (tags, None)
  | Some err =>
      mret (tags, Some (Wrapped err ("Error determining repository tags for image " +:+ name)))
  end.

Definition isTagSpecified (imageName : string) : Go (bool * option error) :=
  match reference_ParseNormalizedNamed imageName with
  | inr err => mret (false, Some err)
  | inl normNamed =>
      let tagged := negb (Reference.IsNameOnly normNamed) in
      logrus InfoLevel
        [("imagename", imageName); ("tagged", if tagged then "true" else "false")]
        "Tag presence check";;
      mret (tagged, None)
  end.

(** The loop of [imagesToCopyFromRepo] over the tags; it touches no
    state but [sourceReferences]. *)
Fixpoint references_of_tags (repoName : string) (tags : list string)
    (sourceReferences : list ImageReference) : list ImageReference * option error :=
  match tags with
  | [] => (sourceReferences, None)
  | tag :: rest =>
      let imageAndTag := repoName +:+ ":" +:+ tag in
      match docker_ParseReference imageAndTag with
      | inr err => ([], Some (Wrapped err (cannot_obtain "docker" imageAndTag)))
      | inl ref => references_of_tags repoName rest (sourceReferences ++ [ref])
      end
  end.

Definition imagesToCopyFromRepo (repoReference : ImageReference) (repoName : string)
    (sourceCtx : ptr) : Go (list ImageReference * option error) :=
  '(tags, err) ← getImageTags sourceCtx repoReference;
  match err with
  | Some err => mret ([], Some err)
  | None => mret (references_of_tags repoName tags [])
  end.

(** The function literal handed to [filepath.Walk] by
    [imagesToCopyFromDir]; [fs] is the file system being walked. *)
Definition walk_manifest (fs : node) (path : string) (info : option FS.FileInfo)
    (err : option error) (sourceReferences : list ImageReference)
  : list ImageReference * option error :=
  match err, info with
  | Some err, _ => (sourceReferences, Some err)
  | None, None => (sourceReferences, None)  (* Walk gives no nil info without an error *)
  | None, Some info =>
      if negb (FS.FileInfo_IsDir info) && String.eqb (FS.Name info) "manifest.json" then
        let dirname := GoPath.Dir path in
        match directory_resolve_error fs dirname with
        | Some err =>
            (sourceReferences, Some (Wrapped err (cannot_obtain "dir" dirname)))
        | None => (sourceReferences ++ [dirReference dirname], Some SkipDir)
        end
      else (sourceReferences, None)
  end.

Definition imagesToCopyFromDir (dirPath : string)
  : Go (list ImageReference * option error) :=
  w ← get_world;
  let '(sourceReferences, err) :=
    FS.Walk (walk_manifest (w_fs w)) (w_fs w) dirPath [] in
  match err with
  | Some err =>
      mret (sourceReferences,
            Some (Wrapped err ("Error walking the path " +:+ quoted dirPath)))
  | None => mret (sourceReferences, None)
  end.

Definition repo_fields (imageName registryName : string) : list (string * string) :=
  [("repo", imageName); ("registry", registryName)].

(** [fmt.Sprintf("%v", tagValue)] for the accepted dynamic types. *)
Definition format_v (tagValue : yamlValue) : string :=
  match tagValue with
  | YString s => s
  | YInt z => pretty z
  | YFloat64 f => format_float64 f
  | _ => ""
  end.

(** The loop over [tagIns]: the elements of an explicit list. *)
Definition tagList_of (imageName registryName : string) (tagIns : list yamlValue)
  : Go (list string) :=
  for_range tagIns (fun tagValue tagList =>
    match tagValue with
    | YString _ | YInt _ | YFloat64 _ =>
        mret (tagList ++ [format_v tagValue])
    | _ =>
        logrus ErrorLevel (repo_fields imageName registryName)
          "Error processing repo, skipping";;
        logrus ErrorLevel []
          "Elements can only be strings if they are of type array, wrong value";;
        mret tagList
    end) [].

(** The loop over [tagList]: one reference per tag that parses. *)
Definition references_of_tagList (repoName : string) (tagList : list string)
  : Go (list ImageReference) :=
  for_range tagList (fun tag sourceReferences =>
    let source := repoName +:+ ":" +:+ tag in
    match docker_ParseReference source with
    | inr err =>
        logrus ErrorLevel [("tag", source)] "Error processing tag, skipping";;
        logrus ErrorLevel [] ("Error getting image reference: " +:+ Error err);;
        mret sourceReferences
    | inl imageRef => mret (sourceReferences ++ [imageRef])
    end) [].

Definition skip_repo (imageName registryName : string) (err : error) : Go unit :=
  logrus ErrorLevel (repo_fields imageName registryName)
    "Error processing repo, skipping";;
  logrus ErrorLevel [] (Error err).

(** [tagReg.Match(b)] on a [*regexp.Regexp], which may be nil. *)
Definition Match (tagReg : option Regexp) (b : string) : Go bool :=
  match tagReg with
  | Some re => mret (Regexp_Match re b)
  | None => panic nil_dereference
  end.

(** The loop that filters the references of a repository by the regular
    expression. *)
Definition filter_references (tagReg : option Regexp)
    (allSourceReferences : list ImageReference) : Go (list ImageReference) :=
  for_range allSourceReferences (fun sReference sourceReferences =>
    str ← on_DockerReference sReference Reference.String_;
    match Split str ":"%char !! 1%nat with
    | None => panic index_out_of_range
    | Some tag =>
        Match tagReg tag ≫= fun matched : bool =>
          if matched then mret (sourceReferences ++ [sReference])
          else mret sourceReferences
    end) [].

(** The type switch on [tags] in the body of the loop of
    [imagesToCopyFromRegistry].  It yields [sourceReferences], or [None]
    where the body ends by [continue]. *)
Definition resolve_tags (registryName imageName repoName : string)
    (tags : yamlValue) (serverCtx : ptr) : Go (option (list ImageReference)) :=
  match tags with
  | YStrings _ | YSlice _ | YNil =>
      tagList ← match tags with
                | YSlice tagIns => tagList_of imageName registryName tagIns
                | YStrings l => mret l
                | _ => mret []
                end;
      sourceReferences ← references_of_tagList repoName tagList;
      if Nat.eqb (length tagList) 0 then
        logrus InfoLevel (repo_fields imageName registryName)
          "Querying registry for image tags";;
        match docker_ParseReference repoName with
        | inr err => skip_repo imageName registryName err;; mret None
        | inl imageRef =>
            '(sourceReferences, err) ← imagesToCopyFromRepo imageRef repoName serverCtx;
            match err with
            | Some err => skip_repo imageName registryName err;; mret None
            | None => mret (Some sourceReferences)
            end
        end
      else mret (Some sourceReferences)
  | YString pattern =>
      let '(tagReg, err) :=
        match regexp_Compile pattern with
        | inl re => (Some re, None)
        | inr err => (None, Some err)
        end in
      match err with
      | Some err => skip_repo imageName registryName err
      | None => mret tt
      end;;
      logrus InfoLevel (repo_fields imageName registryName)
        "Querying registry for image tags";;
      match docker_ParseReference repoName with
      | inr err => skip_repo imageName registryName err;; mret None
      | inl imageRef =>
          '(allSourceReferences, err) ← imagesToCopyFromRepo imageRef repoName serverCtx;
          match err with
          | Some err => skip_repo imageName registryName err;; mret None
          | None =>
              logrus InfoLevel (repo_fields imageName registryName)
                ("Start filtering using the regular expression: " +:+ pattern);;
              sourceReferences ← filter_references tagReg allSourceReferences;
              mret (Some sourceReferences)
          end
      end
  | _ =>
      logrus ErrorLevel (repo_fields imageName registryName)
        "Error processing repo, skipping";;
      logrus ErrorLevel []
        "Tags's type only support []string or regular expression string, wrong type";;
      mret None
  end.

(** The stores through [serverCtx] at the head of the loop body. *)
Definition override_context (cfg : registrySyncConfig) (serverCtx : ptr) : Go unit :=
  store serverCtx (set_DockerCertPath (CertDir cfg));;
  store serverCtx (set_DockerDaemonCertPath (CertDir cfg));;
  store serverCtx (set_DockerDaemonInsecureSkipTLSVerify
                     (OptionalBool_eqb (skip (TLSVerify cfg)) OptionalBoolTrue));;
  store serverCtx (set_DockerInsecureSkipTLSVerify (skip (TLSVerify cfg)));;
  store serverCtx (set_DockerAuthConfig (Some (Credentials cfg))).

(** The body of the loop of [imagesToCopyFromRegistry] for one entry of
    [cfg.Images]; [sourceCtx_addr] is [&sourceCtx]. *)
Definition registry_loop_body (registryName : string) (cfg : registrySyncConfig)
    (sourceCtx_addr : ptr) (entry : string * yamlValue)
    (repoDescList : list repoDescriptor) : Go (list repoDescriptor) :=
  let '(imageName, tags) := entry in
  let repoName := "//" +:+ GoPath.Join2 registryName imageName in
  logrus InfoLevel (repo_fields imageName registryName) "Processing repo";;
  let serverCtx := sourceCtx_addr in
  override_context cfg serverCtx;;
  o ← resolve_tags registryName imageName repoName tags serverCtx;
  match o with
  | None => mret repoDescList
  | Some sourceReferences =>
      if Nat.eqb (length sourceReferences) 0 then
        logrus WarnLevel (repo_fields imageName registryName) "No tags to sync found";;
        mret repoDescList
      else
        mret (repoDescList ++
              [{| DirBasePath := "";
                  TaggedImages := sourceReferences;
                  Context := serverCtx |}])
  end.

(** [sourceCtx] is passed by value and its address is taken, so the
    parameter is a fresh heap object of every call. *)
Definition imagesToCopyFromRegistry (registryName : string) (cfg : registrySyncConfig)
    (sourceCtx : SystemContext) : Go (list repoDescriptor * option error) :=
  sourceCtx_addr ← alloc sourceCtx;
  repoDescList ← for_range (Images cfg)
                   (registry_loop_body registryName cfg sourceCtx_addr) [];
  mret (repoDescList, None).

Definition newSourceConfig (yamlFile : string) : Go (sourceConfig * option error) :=
  w ← get_world;
  match FS.ReadFile (w_fs w) yamlFile with
  | inr err => mret ([], Some err)
  | inl source =>
      let unmarshal :=
        match yaml_Unmarshal source with
        | inr err => inr err
        | inl v => Yaml.decode_sourceConfig v
        end in
      match unmarshal with
      | inr err => mret ([], Some (Wrapped err ("Failed to unmarshal " +:+ quoted yamlFile)))
      | inl cfg => mret (cfg, None)
      end
  end.

(** The body of the loop of the yaml case of [imagesToCopy]; [inr] is
    its [return]. *)
Definition yaml_loop_body (sourceCtx : ptr) (entry : string * registrySyncConfig)
    (descriptors : list repoDescriptor)
  : Go (list repoDescriptor + list repoDescriptor * option error) :=
  let '(registryName, registryConfig) := entry in
  if Nat.eqb (length (Images registryConfig)) 0 then
    logrus WarnLevel [("registry", registryName)] "No images specified for registry";;
    mret (inl descriptors)
  else
    c ← load sourceCtx;
    '(descs, err) ← imagesToCopyFromRegistry registryName registryConfig c;
    match err with
    | Some err =>
        mret (inr (descriptors,
                   Some (Wrapped err ("Failed to retrieve list of images from registry "
                                      +:+ quoted registryName))))
    | None => mret (inl (descriptors ++ descs))
    end.

Definition no_images (source_ : string) : error :=
  ErrorString ("No images to sync found in " +:+ quoted source_).

Definition imagesToCopy (source_ transport : string) (sourceCtx : ptr)
  : Go (list repoDescriptor * option error) :=
  let descriptors : list repoDescriptor := [] in
  if String.eqb transport "docker" then
    let refName := "//" +:+ source_ in
    match docker_ParseReference refName with
    | inr err => mret ([], Some (Wrapped err (cannot_obtain "docker" refName)))
    | inl srcRef =>
        '(imageTagged, err) ← isTagSpecified source_;
        match err with
        | Some err => mret (descriptors, Some err)
        | None =>
            if imageTagged : bool then
              mret (descriptors ++
                    [{| DirBasePath := ""; TaggedImages := [srcRef];
                        Context := sourceCtx |}], None)
            else
              '(images, err) ← imagesToCopyFromRepo srcRef ("//" +:+ source_) sourceCtx;
              match err with
              | Some err => mret (descriptors, Some err)
              | None =>
                  if Nat.eqb (length images) 0 then
                    mret (descriptors, Some (no_images source_))
                  else
                    mret (descriptors ++
                          [{| DirBasePath := ""; TaggedImages := images;
                              Context := sourceCtx |}], None)
              end
        end
    end
  else if String.eqb transport "dir" then
    w ← get_world;
    match FS.Stat (w_fs w) source_ with
    | inr err => mret (descriptors, Some (Wrapped err "Invalid source directory specified"))
    | inl _ =>
        '(images, err) ← imagesToCopyFromDir source_;
        match err with
        | Some err => mret (descriptors, Some err)
        | None =>
            if Nat.eqb (length images) 0 then
              mret (descriptors, Some (no_images source_))
            else
              mret (descriptors ++
                    [{| DirBasePath := source_; TaggedImages := images;
                        Context := sourceCtx |}], None)
        end
    end
  else if String.eqb transport "yaml" then
    '(cfg, err) ← newSourceConfig source_;
    match err with
    | Some err => mret (descriptors, Some err)
    | None =>
        r ← for_range_return cfg (yaml_loop_body sourceCtx) descriptors;
        match r with
        | inl descriptors => mret (descriptors, None)
        | inr res => mret res
        end
    end
  else mret (descriptors, None).

Definition destinationReference (destination_ transport : string)
  : Go (ImageReference + error) :=
  if String.eqb transport "docker" then
    let destination_ := "//" +:+ destination_ in
    logrus DebugLevel [] ("Destination for transport " +:+ quoted transport +:+ ": "
                          +:+ destination_);;
    match docker_ParseReference destination_ with
    | inr err => mret (inr (Wrapped err (cannot_obtain "docker" destination_)))
    | inl destRef => mret (inl destRef)
    end
  else if String.eqb transport "dir" then
    w ← get_world;
    match FS.Stat (w_fs w) destination_ with
    | inl _ =>
        mret (inr (ErrorString ("Refusing to overwrite destination directory "
                                +:+ quoted destination_)))
    | inr err =>
        if negb (IsNotExist err) then
          mret (inr (Wrapped err "Destination directory could not be used"))
        else
          FS.MkdirAll destination_ ≫= fun err : option error =>
          match err with
          | Some err =>
              mret (inr (Wrapped err ("Error creating directory for image "
                                      +:+ destination_)))
          | None =>
              logrus DebugLevel [] ("Destination for transport " +:+ quoted transport
                                    +:+ ": " +:+ destination_);;
              r ← directory_ParseReference destination_;
              match r with
              | inr err => mret (inr (Wrapped err (cannot_obtain "dir" destination_)))
              | inl destRef => mret (inl destRef)
              end
          end
    end
  else
    mret (inr (ErrorString (quoted transport +:+ " is not a valid destination transport"))).

(** [destSuffix] as the switch on [ref.Transport()] in [run] leaves it. *)
Definition destSuffix_by_transport (ref : ImageReference) (srcRepo : repoDescriptor)
  : string :=
  match ref with
  | dockerReference n => Reference.String_ n
  | dirReference p =>
      let destSuffix := TrimPrefix p (DirBasePath srcRepo) in
      if String.eqb destSuffix "" then GoPath.Base (DirBasePath srcRepo)
      else destSuffix
  end.

(** [destSuffix] as handed to [path.Join]. *)
Definition destSuffix_of (opts : syncOptions) (ref : ImageReference)
    (srcRepo : repoDescriptor) : string :=
  let destSuffix := destSuffix_by_transport ref srcRepo in
  if negb (scoped opts) then GoPath.Base destSuffix else destSuffix.

(** [copy.Image], run on the world. *)
Definition copyImage (destRef ref : ImageReference) (options : copyOptions)
  : Go (option error) := fun w =>
  let '(err, fs') := copy_Image destRef ref options (w_heap w) (w_fs w) in
  Returned err (with_fs fs' w).

Definition contains (val : string) (list_ : list string) : bool :=
  existsb (String.eqb val) list_.

(** The body of the inner loop of [run]; the loop state is
    [imagesNumber] and [inr] is the returned error. *)
Definition copy_loop_body (opts : syncOptions) (destination_ : string)
    (options : copyOptions) (srcRepo : repoDescriptor) (ref : ImageReference)
    (imagesNumber : nat) : Go (nat + error) :=
  let destSuffix := destSuffix_of opts ref srcRepo in
  r ← destinationReference (GoPath.Join2 destination_ destSuffix) (destination opts);
  match r with
  | inr err => mret (inr err)
  | inl destRef =>
      logrus InfoLevel [("from", ImageName ref); ("to", ImageName destRef)]
        "Copying image tag";;
      copyImage destRef ref options ≫= fun err : option error =>
      match err with
      | Some err => mret (inr (Wrapped err ("Error copying tag " +:+ quoted (ImageName ref))))
      | None => mret (inl (Datatypes.S imagesNumber))
      end
  end.

Definition run (opts : syncOptions) (args : list string) : Go (option error) :=
  match args with
  | [sourceArg; destination_] =>
      match getPolicyContext with
      | Some err => mret (Some (Wrapped err "Error loading trust policy"))
      | None =>
          if Nat.eqb (String.length (source opts)) 0 then
            mret (Some (ErrorString "A source transport must be specified"))
          else if negb (contains (source opts) ["docker"; "dir"; "yaml"]) then
            mret (Some (ErrorString (quoted (source opts)
                                     +:+ " is not a valid source transport")))
          else if Nat.eqb (String.length (destination opts)) 0 then
            mret (Some (ErrorString "A destination transport must be specified"))
          else if negb (contains (destination opts) ["docker"; "dir"]) then
            mret (Some (ErrorString (quoted (destination opts)
                                     +:+ " is not a valid destination transport")))
          else if String.eqb (source opts) (destination opts)
                  && String.eqb (source opts) "dir" then
            mret (Some (ErrorString
              "sync from 'dir' to 'dir' not implemented, consider using rsync instead"))
          else
            match srcImage_newSystemContext with
            | inr err => mret (Some err)
            | inl c =>
                sourceCtx ← alloc c;
                '(srcRepoList, err) ← imagesToCopy sourceArg (source opts) sourceCtx;
                match err with
                | Some err => mret (Some err)
                | None =>
                    match destImage_newSystemContext with
                    | inr err => mret (Some err)
                    | inl d =>
                        destinationCtx ← alloc d;
                        r ← for_range_return srcRepoList (fun srcRepo imagesNumber =>
                              let options :=
                                {| RemoveSignatures := removeSignatures opts;
                                   SignBy := signByFingerprint opts;
                                   SourceCtx := Context srcRepo;
                                   DestinationCtx := destinationCtx |} in
                              for_range_return (TaggedImages srcRepo)
                                (copy_loop_body opts destination_ options srcRepo)
                                imagesNumber) 0%nat;
                        match r with
                        | inr err => mret (Some err)
                        | inl imagesNumber =>
                            logrus InfoLevel []
                              ("Synced " +:+ pretty imagesNumber +:+ " images from "
                               +:+ pretty (length srcRepoList) +:+ " sources");;
                            mret None
                        end
                    end
                end
            end
      end
  | _ => mret (Some (errorShouldDisplayUsage (ErrorString "Exactly two arguments expected")))
  end.

End WithEnv.
End Sync.

(** ** A small regular expression engine

    The fragment of the RE2 syntax of package regexp made of literals, [.],
    [^], [$] and the postfix operators [*], [+] and [?] (also in their
    non-greedy form).  It instantiates [Env] where a statement is run on
    concrete input; groups, classes, alternation, escapes and counted
    repetition are outside the fragment and refused. *)

Module MiniRegexp.

Inductive atom := Lit (c : ascii) | AnyChar | Bol | Eol.
Inductive quant := One | Star | Plus | Quest.
Definition regexp := list (atom * quant).

Definition quant_of (c : ascii) : option quant :=
  if Ascii.eqb c "*" then Some Star
  else if Ascii.eqb c "+" then Some Plus
  else if Ascii.eqb c "?" then Some Quest
  else None.

Definition outside_fragment (c : ascii) : bool :=
  existsb (Ascii.eqb c) ["("; ")"; "["; "]"; "{"; "}"; "|"; "\"]%char.

Definition atom_of (c : ascii) : atom :=
  if Ascii.eqb c "." then AnyChar
  else if Ascii.eqb c "^" then Bol
  else if Ascii.eqb c "$" then Eol
  else Lit c.

(** [acc] is the stack of parsed items, last first; [lastRepeat] tells
    whether the item on top has just been given a repetition. *)
Fixpoint parse (s : string) (acc : regexp) (lastRepeat : bool) : regexp + error :=
  match s with
  | EmptyString => inl (rev acc)
  | String c r =>
      match quant_of c with
      | Some q =>
          if lastRepeat then
            inr (ErrorString "error parsing regexp: invalid nested repetition operator")
          else
            match acc with
            | [] =>
                inr (ErrorString
                       ("error parsing regexp: missing argument to repetition operator: `"
                        +:+ String c EmptyString +:+ "`"))
            | (a, _) :: acc' =>
                match r with
                | String "?" r' => parse r' ((a, q) :: acc') true
                | _ => parse r ((a, q) :: acc') true
                end
            end
      | None =>
          if outside_fragment c then
            inr (ErrorString "error parsing regexp: syntax outside the modelled fragment")
          else parse r ((atom_of c, One) :: acc) false
      end
  end.

Definition Compile (expr : string) : regexp + error := parse expr [] false.

Definition consumes (a : atom) (c : ascii) : bool :=
  match a with
  | Lit x => Ascii.eqb x c
  | AnyChar => negb (Ascii.eqb c (Ascii.ascii_of_nat 10))
  | Bol | Eol => false
  end.

Definition holds (a : atom) (at_start : bool) (txt : string) : bool :=
  match a with
  | Bol => at_start
  | Eol => match txt with EmptyString => true | _ => false end
  | _ => false
  end.

Definition zero_width (a : atom) : bool :=
  match a with Bol | Eol => true | _ => false end.

(** Zero or more characters of [a], then [k]. *)
Fixpoint star (a : atom) (k : bool -> string -> bool) (at_start : bool) (txt : string)
  : bool :=
  k at_start txt
  || match txt with
     | String c t => consumes a c && star a k false t
     | EmptyString => false
     end.

(** Does [re] match a prefix of [txt]?  [at_start] tells whether [txt]
    begins the whole text. *)
Fixpoint match_here (re : regexp) (at_start : bool) (txt : string) : bool :=
  match re with
  | [] => true
  | (a, q) :: rest =>
      if zero_width a then
        match q with
        | One | Plus => holds a at_start txt && match_here rest at_start txt
        | Star | Quest => match_here rest at_start txt
        end
      else
        match q with
        | One =>
            match txt with
            | String c t => consumes a c && match_here rest false t
            | EmptyString => false
            end
        | Quest =>
            match_here rest at_start txt
            || match txt with
               | String c t => consumes a c && match_here rest false t
               | EmptyString => false
               end
        | Star => star a (match_here rest) at_start txt
        | Plus =>
            match txt with
            | String c t => consumes a c && star a (match_here rest) false t
            | EmptyString => false
            end
        end
  end.

Fixpoint search (re : regexp) (at_start : bool) (txt : string) : bool :=
  match_here re at_start txt
  || match txt with
     | String _ t => search re false t
     | EmptyString => false
     end.

(** [Regexp.Match]: does the text contain a match? *)
Definition Match (re : regexp) (b : string) : bool := search re true b.

End MiniRegexp.

(** ** A sample environment

    One registry landscape, one set of files and the parsers for them, to
    run the command on concrete input. *)

Module Sample.
Import GoStrings.

Definition in_range (lo hi : nat) (c : ascii) : bool :=
  Nat.leb lo (nat_of_ascii c) && Nat.leb (nat_of_ascii c) hi.
Definition lower_or_digit (c : ascii) : bool := in_range 97 122 c || in_range 48 57 c.
Definition upper (c : ascii) : bool := in_range 65 90 c.
Definition one_of (cs : list ascii) (c : ascii) : bool := existsb (Ascii.eqb c) cs.

Fixpoint all_chars (p : ascii -> bool) (s : string) : bool :=
  match s with
  | EmptyString => true
  | String c r => p c && all_chars p r
  end.

Definition valid_component (s : string) : bool :=
  negb (String.eqb s "")
  && all_chars (fun c => lower_or_digit c || one_of ["."; "_"; "-"]%char c) s.

Definition valid_domain (s : string) : bool :=
  negb (String.eqb s "")
  && all_chars (fun c => lower_or_digit c || upper c || one_of ["."; "-"; ":"]%char c) s.

Definition valid_tag (s : string) : bool :=
  match s with
  | EmptyString => false
  | String c _ =>
      negb (one_of ["."; "-"]%char c)
      && all_chars (fun c => lower_or_digit c || upper c || one_of ["."; "_"; "-"]%char c) s
      && Nat.leb (String.length s) 128
  end.

Definition has_char (c : ascii) (s : string) : bool :=
  negb (all_chars (fun x => negb (Ascii.eqb x c)) s).

(** [splitDockerDomain] on the components of a name. *)
Definition split_domain (comps : list string) : string * list string :=
  match comps with
  | d :: (_ :: _) as rest =>
      if has_char "." d || has_char ":" d || String.eqb d "localhost" then
        (if String.eqb d "index.docker.io" then "docker.io" else d, rest)
      else ("docker.io", comps)
  | _ => ("docker.io", comps)
  end.

Definition invalid_reference : error := ErrorString "invalid reference format".

(** [reference.ParseNormalizedNamed] for names without a digest. *)
Definition ParseNormalizedNamed (s : string) : Named + error :=
  if has_char "@" s then inr invalid_reference
  else
    let comps := Split s "/"%char in
    let last_ := List.last comps "" in
    let front := removelast comps in
    let parts := Split last_ ":"%char in
    match parts with
    | [nm] | [nm; _] =>
        let tag := parts !! 1%nat in
        let '(domain, remainder) := split_domain (front ++ [nm]) in
        let remainder :=
          match remainder with
          | [single] => if String.eqb domain "docker.io" then ["library"; single]
                        else remainder
          | _ => remainder
          end in
        if valid_domain domain && forallb valid_component remainder
           && match tag with Some t => valid_tag t | None => true end
        then inl {| named_name := domain +:+ "/" +:+ Join remainder "/";
                    named_tag := tag; named_digest := None |}
        else inr invalid_reference
    | _ => inr invalid_reference
    end.

Definition GetRepositoryTags (c : option SystemContext) (ref : Named)
  : list string + error :=
  let name := named_name ref in
  if String.eqb name "registry.example.com/busybox" then inl ["v1.0"; "v1.1"; "v2.0"]
  else if String.eqb name "registry.example.com/alpine" then inl ["3.18"; "edge"]
  else if String.eqb name "localhost:5000/repo" then inl ["v1.0"]
  else if String.eqb name "registry.example.com/private" then
    inr (ErrUnauthorizedForCredentials "authentication required")
  else inr (ErrorString "repository name not known to registry").

Definition manifest_two_registries : string :=
  "{registry.example.com: {images: {busybox: [v1.0, 2, 1.5], alpine: }, cert-dir: /certs}, localhost:5000: {images: {repo: ['v1.0']}, tls-verify: false}}".
Definition manifest_bad_regex : string :=
  "{registry.example.com: {images: {busybox: '*'}}, localhost:5000: {images: {repo: ['v1.0']}}}".
Definition manifest_port_regex : string :=
  "{localhost:5000: {images: {repo: '^v1'}}}".
Definition manifest_empty_list : string :=
  "{registry.example.com: {images: {alpine: []}}}".

Definition one_and_a_half : spec_float := S754_finite false 3 (-1).

Definition Unmarshal (source_ : string) : yamlValue + error :=
  if String.eqb source_ manifest_two_registries then
    inl (YMap
           [(YString "registry.example.com",
             YMap [(YString "images",
                    YMap [(YString "busybox",
                           YSlice [YString "v1.0"; YInt 2; YFloat64 one_and_a_half]);
                          (YString "alpine", YNil)]);
                   (YString "cert-dir", YString "/certs")]);
            (YString "localhost:5000",
             YMap [(YString "images", YMap [(YString "repo", YSlice [YString "v1.0"])]);
                   (YString "tls-verify", YBool false)])])
  else if String.eqb source_ manifest_bad_regex then
    inl (YMap [(YString "registry.example.com",
                YMap [(YString "images", YMap [(YString "busybox", YString "*")])]);
               (YString "localhost:5000",
                YMap [(YString "images", YMap [(YString "repo", YSlice [YString "v1.0"])])])])
  else if String.eqb source_ manifest_port_regex then
    inl (YMap [(YString "localhost:5000",
                YMap [(YString "images", YMap [(YString "repo", YString "^v1")])])])
  else if String.eqb source_ manifest_empty_list then
    inl (YMap [(YString "registry.example.com",
                YMap [(YString "images", YMap [(YString "alpine", YSlice [])])])])
  else inr (ErrorString "yaml: did not find expected node content").

Definition format_float (f : spec_float) : string :=
  match f with
  | S754_finite false 3 (-1) => "1.5"
  | S754_zero _ => "0"
  | _ => "NaN"
  end.

Definition base_context : SystemContext :=
  {| DockerCertPath := "";
     DockerDaemonCertPath := "";
     DockerDaemonInsecureSkipTLSVerify := true;
     DockerInsecureSkipTLSVerify := OptionalBoolTrue;
     DockerAuthConfig_ := None;
     AuthFilePath := "/run/user/1000/auth.json";
     RegistriesDirPath := "";
     SystemRegistriesConfPath := "" |}.

#[local] Instance env : Env := {|
  Regexp := MiniRegexp.regexp;
  regexp_Compile := MiniRegexp.Compile;
  Regexp_Match := MiniRegexp.Match;
  reference_ParseNormalizedNamed := ParseNormalizedNamed;
  docker_GetRepositoryTags := GetRepositoryTags;
  directory_resolve_error := fun _ _ => None;
  yaml_Unmarshal := Unmarshal;
  format_float64 := format_float;
  copy_Image := fun _ _ _ _ fs => (None, fs);
  getPolicyContext := None;
  srcImage_newSystemContext := inl base_context;
  destImage_newSystemContext := inl base_context;
|}.

(** The file system: the manifests under [/etc/sync], a tree of stored
    images under [/images], two directories that hold a marker and have
    a stored image beneath them, and the directory [/out] of an earlier
    run. *)
Definition image_dir : node :=
  Directory true [("version", File ""); ("manifest.json", File "{}")].

Definition fs : node :=
  Directory true
    [("etc", Directory true
        [("sync", Directory true
            [("all.yml", File manifest_two_registries);
             ("bad-regex.yml", File manifest_bad_regex);
             ("port-regex.yml", File manifest_port_regex);
             ("empty-list.yml", File manifest_empty_list);
             ("broken.yml", File "{")])]);
     ("images", Directory true
        [("busybox", image_dir); ("alpine", image_dir)]);
     ("nested", Directory true
        [("manifest.json", File "{}"); ("z", image_dir)]);
     ("early", Directory true
        [("a", image_dir); ("manifest.json", File "{}")]);
     ("out", Directory true
        [("taken", Directory true []); ("busybox:v1.0", image_dir)]);
     ("readonly", Directory false [])].

(** The world at the call of [imagesToCopy]: the source context is the one
    object on the heap. *)
Definition world : World :=
  {| w_fs := fs; w_heap := [base_context]; w_log := [] |}.

Definition tagged (name tag : string) : ImageReference :=
  dockerReference {| named_name := name; named_tag := Some tag; named_digest := None |}.

(** The configuration that the manifest [/etc/sync/all.yml] decodes to. *)
Definition all_cfg : sourceConfig :=
  match Unmarshal manifest_two_registries with
  | inl v => match Yaml.decode_sourceConfig v with inl cfg => cfg | inr _ => [] end
  | inr _ => []
  end.

(** The first registry of that configuration, registry.example.com. *)
Definition first_registry : registrySyncConfig :=
  match all_cfg with
  | (_, cfg) :: _ => cfg
  | [] => Yaml.zero_registrySyncConfig
  end.

(** A world in which the context at 1 is the one of a registry loop. *)
Definition world_in_registry : World :=
  with_heap [base_context; base_context] world.

Definition mixed_list : list yamlValue :=
  [YString "v1.0"; YInt 2; YBool true; YFloat64 one_and_a_half; YString "not a tag"].

Definition private_repository : Named :=
  {| named_name := "registry.example.com/private"; named_tag := None;
     named_digest := None |}.

Definition docker_to_dir : syncOptions :=
  {| removeSignatures := false; signByFingerprint := ""; source := "docker";
     destination := "dir"; scoped := false |}.

(** The entry of registry.example.com in [/etc/sync/all.yml]: it has no
    tls-verify key. *)
Definition first_registry_fields : list (yamlValue * yamlValue) :=
  [(YString "images",
    YMap [(YString "busybox", YSlice [YString "v1.0"; YInt 2; YFloat64 one_and_a_half]);
          (YString "alpine", YNil)]);
   (YString "cert-dir", YString "/certs")].

End Sample.

(** ** A second sample environment

    The landscape of [Sample] with two more repositories, one without
    tags and one that lists a tag that is no tag, a manifest whose
    registries list no images, a copy engine that fails for one tag, and
    a variant without a trust policy. *)

Module EdgeSample.
Import GoStrings.

Definition GetRepositoryTags (c : option SystemContext) (ref : Named)
  : list string + error :=
  let name := named_name ref in
  if String.eqb name "registry.example.com/empty" then inl []
  else if String.eqb name "registry.example.com/odd" then inl ["v1"; "not a tag"; "v2"]
  else Sample.GetRepositoryTags c ref.

Definition manifest_no_images : string :=
  "{registry.example.com: {cert-dir: /certs}, localhost:5000: }".

Definition Unmarshal (source_ : string) : yamlValue + error :=
  if String.eqb source_ manifest_no_images then
    inl (YMap [(YString "registry.example.com",
                YMap [(YString "cert-dir", YString "/certs")]);
               (YString "localhost:5000", YNil)])
  else Sample.Unmarshal source_.

Definition policy_error : error :=
  ErrorString "open /etc/containers/policy.json: no such file or directory".

(** A copy engine that cannot find the manifest of the tag edge. *)
Definition copy_but_edge (destRef ref : ImageReference) (options : copyOptions)
    (heap : list SystemContext) (fs : node) : option error * node :=
  match ref with
  | dockerReference {| named_tag := Some "edge" |} =>
      (Some (ErrorString "manifest unknown"), fs)
  | _ => (None, fs)
  end.

Definition env_with (policy : option error) : Env := {|
  Regexp := MiniRegexp.regexp;
  regexp_Compile := MiniRegexp.Compile;
  Regexp_Match := MiniRegexp.Match;
  reference_ParseNormalizedNamed := Sample.ParseNormalizedNamed;
  docker_GetRepositoryTags := GetRepositoryTags;
  directory_resolve_error := fun _ _ => None;
  yaml_Unmarshal := Unmarshal;
  format_float64 := Sample.format_float;
  copy_Image := copy_but_edge;
  getPolicyContext := policy;
  srcImage_newSystemContext := inl Sample.base_context;
  destImage_newSystemContext := inl Sample.base_context;
|}.

#[local] Instance env : Env := env_with None.

Definition fs : node :=
  Directory true
    [("etc", Directory true
        [("sync", Directory true [("no-images.yml", File manifest_no_images)])]);
     ("out", Directory true [])].

Definition world : World :=
  {| w_fs := fs; w_heap := [Sample.base_context]; w_log := [] |}.

(** The configuration that [/etc/sync/no-images.yml] decodes to. *)
Definition no_images_cfg : sourceConfig :=
  [("registry.example.com",
    {| Images := []; Credentials := {| Username := ""; Password := "" |};
       TLSVerify := {| skip := OptionalBoolUndefined |}; CertDir := "/certs" |});
   ("localhost:5000", Yaml.zero_registrySyncConfig)].

Definition named (name : string) (tag : option string) : Named :=
  {| named_name := name; named_tag := tag; named_digest := None |}.

Definition yaml_to_docker : syncOptions :=
  {| removeSignatures := false; signByFingerprint := ""; source := "yaml";
     destination := "docker"; scoped := true |}.

End EdgeSample.

(** * The vocabulary of the properties *)

(** ** The contexts of a manifest run *)

Module ContextSpec.

(** The registry settings written over a context. *)
Definition overridden (cfg : registrySyncConfig) (c : SystemContext) : SystemContext :=
  set_DockerAuthConfig (Some (Credentials cfg))
    (set_DockerInsecureSkipTLSVerify (skip (TLSVerify cfg))
       (set_DockerDaemonInsecureSkipTLSVerify
          (OptionalBool_eqb (skip (TLSVerify cfg)) OptionalBoolTrue)
          (set_DockerDaemonCertPath (CertDir cfg)
             (set_DockerCertPath (CertDir cfg) c)))).

(** The registries of a manifest that get a context of their own. *)
Definition with_images (cfg : sourceConfig) : list registrySyncConfig :=
  map snd (List.filter (fun e => negb (Nat.eqb (length (Images (snd e))) 0)) cfg).

(** A context that has TLS verification on: neither of the two fields
    that turn it off is set. *)
Definition enforces_TLS_verification (c : SystemContext) : Prop :=
  DockerInsecureSkipTLSVerify c <> OptionalBoolTrue
  /\ DockerDaemonInsecureSkipTLSVerify c = false.

End ContextSpec.

(** ** Directories with a marker file *)

(** The directories of a tree that hold a marker file, as the
    specification speaks of them. *)
Module Markers.
Import GoPath.

(** A marker: a file, not a directory, named manifest.json. *)
Definition is_marker (e : string * node) : bool :=
  negb (IsDir (snd e)) && String.eqb (fst e) "manifest.json".

Definition has_marker (es : list (string * node)) : bool := existsb is_marker es.

(** The path under which the walk reports the directory at [path] when
    it finds the marker in it. *)
Definition reported (path : string) : string := Dir (Join2 path "manifest.json").

(** Every directory of the tree that directly contains a marker, the
    children in the order of the walk. *)
Fixpoint marker_dirs (n : node) (path : string) : list string :=
  match n with
  | File _ => []
  | Directory _ es =>
      (if has_marker es then [reported path] else [])
      ++ concat (map (fun e => snd e (Join2 path (fst e)))
                   (FS.sort_by_name (map (fun e => (fst e, marker_dirs (snd e))) es)))
  end.

(** No directory of the tree directly contains a marker. *)
Fixpoint marker_free (n : node) : bool :=
  match n with
  | File _ => true
  | Directory _ es => negb (has_marker es) && forallb (fun e => marker_free (snd e)) es
  end.

(** No directory with a marker lies beneath another one. *)
Fixpoint nested_free (n : node) : bool :=
  match n with
  | File _ => true
  | Directory _ es =>
      if has_marker es then forallb (fun e => marker_free (snd e)) es
      else forallb (fun e => nested_free (snd e)) es
  end.

End Markers.

(** ** The walk, entry by entry *)

Module WalkSpec.
Import GoPath Sync Markers.

Section WithEnv.
Context {E : Env}.

(** An entry of a directory as [walk] hands it to [walk_entries]. *)
Definition walker (fs : node) (e : string * node)
  : string * (bool * (string -> list ImageReference -> list ImageReference * option error)) :=
  (fst e, (IsDir (snd e), FS.walk (walk_manifest fs) (fst e) (snd e))).

(** The walk of the entry adds nothing and goes on. *)
Definition quiet (fs : node) (e : string * node) : Prop :=
  forall path s, FS.walk (walk_manifest fs) (fst e) (snd e) path s = (s, None).

(** What the walk of a subtree without nested markers does: it adds the
    directories with a marker, and ends normally or by [SkipDir]. *)
Definition collects (fs : node) (e : string * node) : Prop :=
  forall path s,
  exists st,
    FS.walk (walk_manifest fs) (fst e) (snd e) path s
    = (s ++ map dirReference (marker_dirs (snd e) path), st)
    /\ (st = None \/ (st = Some SkipDir /\ IsDir (snd e) = true)).

End WithEnv.
End WalkSpec.

(** ** Explicit tag lists *)

Module TagListSpec.
Import GoStrings Sync.

(** The dynamic types accepted as an element of an explicit list. *)
Definition is_scalar (v : yamlValue) : bool :=
  match v with
  | YString _ | YInt _ | YFloat64 _ => true
  | _ => false
  end.

Section WithEnv.
Context {E : Env}.

(** The scalar elements of the list as strings, in the order of the
    list. *)
Definition scalars (tagIns : list yamlValue) : list string :=
  map format_v (List.filter is_scalar tagIns).

Definition parse_tag (repoName tag : string) : option ImageReference :=
  match docker_ParseReference (repoName +:+ ":" +:+ tag) with
  | inl imageRef => Some imageRef
  | inr _ => None
  end.

(** The references of the tags that parse, in the order of the tags. *)
Definition parsed (repoName : string) (tagList : list string) : list ImageReference :=
  omap (parse_tag repoName) tagList.

(** What is logged for an element: nothing for a scalar, the report of
    the skipped element otherwise. *)
Definition element_log (imageName registryName : string) (v : yamlValue)
  : list logEntry :=
  if is_scalar v then []
  else [{| level := ErrorLevel; fields := repo_fields imageName registryName;
           message := "Error processing repo, skipping" |};
        {| level := ErrorLevel; fields := [];
           message := "Elements can only be strings if they are of type array, wrong value" |}].

(** What is logged for a tag: nothing when it parses. *)
Definition tag_log (repoName tag : string) : list logEntry :=
  let source_ := repoName +:+ ":" +:+ tag in
  match docker_ParseReference source_ with
  | inl _ => []
  | inr err =>
      [{| level := ErrorLevel; fields := [("tag", source_)];
          message := "Error processing tag, skipping" |};
       {| level := ErrorLevel; fields := [];
          message := "Error getting image reference: " +:+ Error err |}]
  end.

Definition log_more (entries : list logEntry) (w : World) : World :=
  with_log (w_log w ++ entries) w.

(** The tags whose reference parses. *)
Definition valid_tags (repoName : string) (tagList : list string) : list string :=
  List.filter (fun tag => match parse_tag repoName tag with
                          | Some _ => true
                          | None => false
                          end) tagList.

End WithEnv.
End TagListSpec.

(** ** Regular expression selectors *)

Module PatternSpec.
Import GoStrings.

(** A docker reference with a tag and no digest whose name has no colon,
    that is, whose registry host has no port. *)
Definition plain_tagged (r : ImageReference) : bool :=
  match r with
  | dockerReference n =>
      lacks ":" (named_name n)
      && match named_tag n with Some t => lacks ":" t | None => false end
      && match named_digest n with None => true | Some _ => false end
  | dirReference _ => false
  end.

Section WithEnv.
Context {E : Env}.

(** Does the tag of the reference match? *)
Definition tag_matches (re : Regexp) (r : ImageReference) : bool :=
  match r with
  | dockerReference n =>
      match named_tag n with
      | Some t => Regexp_Match re t
      | None => false
      end
  | dirReference _ => false
  end.

End WithEnv.
End PatternSpec.

(** ** Plans *)

Module PlanSpec.

Definition is_docker (r : ImageReference) : bool :=
  match r with dockerReference _ => true | dirReference _ => false end.

Definition is_dir (r : ImageReference) : bool :=
  match r with dirReference _ => true | dockerReference _ => false end.

(** A descriptor as the docker and yaml cases build it: references of
    the docker transport, at least one, and no base path. *)
Definition docker_descriptor (d : repoDescriptor) : Prop :=
  TaggedImages d <> [] /\ DirBasePath d = ""
  /\ forallb is_docker (TaggedImages d) = true.

(** The file system is as it was, and the heap has at most grown. *)
Definition grows (w w' : World) : Prop :=
  w_fs w' = w_fs w /\ exists more, w_heap w' = w_heap w ++ more.

End PlanSpec.

(** ** Runs *)

Module RunSpec.
Import Sync TagListSpec.

(** The images of all descriptors of a plan. *)
Definition planned_images (srcRepoList : list repoDescriptor) : nat :=
  sum_list (map (fun d => length (TaggedImages d)) srcRepoList).

(** The entry that closes the log of a successful run. *)
Definition synced (imagesNumber sources : nat) : logEntry :=
  {| level := InfoLevel; fields := [];
     message := "Synced " +:+ pretty imagesNumber +:+ " images from "
                +:+ pretty sources +:+ " sources" |}.

(** The images of a plan in the order in which [run] goes through
    them, each with its descriptor. *)
Definition planned_copies (srcRepoList : list repoDescriptor)
  : list (repoDescriptor * ImageReference) :=
  flat_map (fun srcRepo => map (pair srcRepo) (TaggedImages srcRepo)) srcRepoList.

(** The entry logged before an image is copied. *)
Definition copying (ref destRef : ImageReference) : logEntry :=
  {| level := InfoLevel;
     fields := [("from", ImageName ref); ("to", ImageName destRef)];
     message := "Copying image tag" |}.

Section WithEnv.
Context {E : Env}.

(** The images of [copies] have been copied one after the other, from
    world [w] to world [w']: each one got its destination reference, was
    announced in the log and was handed to [copy.Image] with the context
    of its descriptor, which returned no error; the next one starts from
    the file system that this copy left. *)
Fixpoint all_copied (opts : syncOptions) (destination_ : string) (destinationCtx : ptr)
    (copies : list (repoDescriptor * ImageReference)) (w w' : World) : Prop :=
  match copies with
  | [] => w' = w
  | (srcRepo, ref) :: copies =>
      exists (destRef : ImageReference) (w1 : World) (fs' : node),
        destinationReference
          (GoPath.Join2 destination_ (destSuffix_of opts ref srcRepo))
          (destination opts) w
        = Returned (inl destRef) w1
        /\ copy_Image destRef ref
             {| RemoveSignatures := removeSignatures opts;
                SignBy := signByFingerprint opts;
                SourceCtx := Context srcRepo;
                DestinationCtx := destinationCtx |}
             (w_heap w1) (w_fs w1)
           = (None, fs')
        /\ all_copied opts destination_ destinationCtx copies
             (with_fs fs' (log_more [copying ref destRef] w1)) w'
  end.

End WithEnv.

End RunSpec.

(** ** Repositories of a registry *)

Module RegistrySpec.
Import Sync TagListSpec.

(** The entry logged before the registry is asked for the tags. *)
Definition getting_tags (n : Named) : logEntry :=
  {| level := InfoLevel; fields := [("image", Reference.Name n)];
     message := "Getting tags" |}.

(** The entry logged by [isTagSpecified]. *)
Definition tag_presence (imageName : string) (tagged : bool) : logEntry :=
  {| level := InfoLevel;
     fields := [("imagename", imageName); ("tagged", if tagged then "true" else "false")];
     message := "Tag presence check" |}.

(** An error of the tag listing other than the refusal of the
    credentials. *)
Definition fatal_listing_error (err : error) : Prop :=
  forall msg, err <> ErrUnauthorizedForCredentials msg.

(** The selector values for which the body of the loop of
    [imagesToCopyFromRegistry] logs the type error. *)
Definition unsupported_selector (tags : yamlValue) : bool :=
  match tags with
  | YInt _ | YFloat64 _ | YBool _ | YUint64 _ | YMap _ => true
  | _ => false
  end.

End RegistrySpec.

(** ** Manifests *)

Module ManifestSpec.

(** The warning for a registry of the manifest that lists no image. *)
Definition no_images_specified (registryName : string) : logEntry :=
  {| level := WarnLevel; fields := [("registry", registryName)];
     message := "No images specified for registry" |}.

(** A value that decodes into a [bool]. *)
Definition is_bool_or_null (v : yamlValue) : bool :=
  match v with YBool _ | YNil => true | _ => false end.

Section WithEnv.
Context {E : Env}.

(** [yaml.Unmarshal(source, &cfg)] *)
Definition unmarshal_sourceConfig (content : string) : sourceConfig + error :=
  match yaml_Unmarshal content with
  | inr err => inr err
  | inl v => Yaml.decode_sourceConfig v
  end.

End WithEnv.
End ManifestSpec.

(** * Properties *)

(** ** Strings and paths *)

Module GoStringsFacts.
Import GoStrings GoPath.

Lemma CutPrefix_app (base rest : string) : CutPrefix (base +:+ rest) base = Some rest.
Proof.
  induction base as [|c base IH]; simpl; [now destruct rest|].
  now rewrite Ascii.eqb_refl.
Qed.

Lemma TrimPrefix_app (base rest : string) : TrimPrefix (base +:+ rest) base = rest.
Proof. unfold TrimPrefix. now rewrite CutPrefix_app. Qed.

Lemma HasPrefix_app (base rest : string) : HasPrefix (base +:+ rest) base = true.
Proof. unfold HasPrefix. now rewrite CutPrefix_app. Qed.

Lemma append_empty (s : string) : s +:+ "" = s.
Proof.
  induction s as [|c s IH]; [reflexivity|].
  change (String c s +:+ "") with (String c (s +:+ "")). now rewrite IH.
Qed.

Lemma Split_lacks (s : string) (sep : ascii) : lacks sep s = true -> Split s sep = [s].
Proof.
  induction s as [|c s IH]; simpl; [reflexivity|].
  intros [Hc Hs]%andb_true_iff. apply negb_true_iff in Hc. rewrite Hc.
  now rewrite (IH Hs).
Qed.

Lemma Split_app (a b : string) (sep : ascii) :
  lacks sep a = true -> Split (a +:+ String sep b) sep = a :: Split b sep.
Proof.
  induction a as [|c a IH].
  - intros _. change ("" +:+ String sep b) with (String sep b). simpl.
    now rewrite Ascii.eqb_refl.
  - intros [Hc Ha]%andb_true_iff. apply negb_true_iff in Hc.
    change (String c a +:+ String sep b) with (String c (a +:+ String sep b)).
    simpl. rewrite Hc. now rewrite (IH Ha).
Qed.

Lemma Base_nonempty (p : string) : Base p <> "".
Proof.
  unfold Base. destruct (String.eqb p "") eqn:Hp; [discriminate|].
  destruct (String.eqb (after_last_slash (strip_trailing_slashes p)) "") eqn:Hq;
    [discriminate|].
  intros Heq. rewrite Heq in Hq. discriminate.
Qed.

End GoStringsFacts.

Module GoPathExamples.
Import GoStrings GoPath.

Example Split_port :
  Split "localhost:5000/repo:v1" ":"%char = ["localhost"; "5000/repo"; "v1"].
Proof. reflexivity. Qed.

Example Clean_table :
  map Clean ["a//b/"; "/../a"; "a/../.."; "../../a"; "/"; ""; "./"; "a/./b/../c"]
  = ["a/b"; "/a"; ".."; "../../a"; "/"; "."; "."; "a/c"].
Proof. reflexivity. Qed.

Example Base_table :
  map Base [""; "/"; "///"; "a/b/"; "a"; "/images/busybox"; "registry/ns/img:tag"]
  = ["."; "/"; "/"; "b"; "a"; "busybox"; "img:tag"].
Proof. reflexivity. Qed.

Example Dir_table :
  map Dir ["/images/busybox/manifest.json"; "manifest.json"; "/manifest.json"; "a/b"]
  = ["/images/busybox"; "."; "/"; "a"].
Proof. reflexivity. Qed.

Example TrimPrefix_table :
  (TrimPrefix "/images/busybox" "/images", TrimPrefix "/images" "/images",
   TrimPrefix "/images/busybox" "/other")
  = ("/busybox", "", "/images/busybox").
Proof. reflexivity. Qed.

End GoPathExamples.

(** ** The monad of Go code *)

Module GoFacts.

Lemma bind_unfold {A B} (m : Go A) (f : A -> Go B) (w : World) :
  (m ≫= f) w =
  match m w with
  | Returned a w' => f a w'
  | Panicked r w' => Panicked r w'
  end.
Proof. reflexivity. Qed.

Lemma bind_Returned {A B} (m : Go A) (f : A -> Go B) (w w' : World) (b : B) :
  (m ≫= f) w = Returned b w' <->
  exists a w1, m w = Returned a w1 /\ f a w1 = Returned b w'.
Proof.
  rewrite bind_unfold. split.
  - destruct (m w) as [a w1|r w1]; [eauto|discriminate].
  - intros (a & w1 & -> & H). exact H.
Qed.

Lemma ret_Returned {A} (a b : A) (w w' : World) :
  (mret a : Go A) w = Returned b w' <-> a = b /\ w = w'.
Proof.
  unfold mret, Go_ret. split; [intros [= -> ->]; auto | intros [-> ->]; reflexivity].
Qed.

Section Keeps.
Context (R : World -> World -> Prop) `{!PreOrder R}.

Lemma keeps_ret {A} (a : A) : keeps R (mret a : Go A).
Proof. intros w b w' [_ ->]%ret_Returned. reflexivity. Qed.

Lemma keeps_panic {A} (r : string) : keeps R (@panic A r).
Proof. intros w b w' H. discriminate. Qed.

Lemma keeps_bind {A B} (m : Go A) (f : A -> Go B) :
  keeps R m -> (forall a, keeps R (f a)) -> keeps R (m ≫= f).
Proof.
  intros Hm Hf w b w' (a & w1 & H1 & H2)%bind_Returned.
  etransitivity; [eapply Hm|eapply Hf]; eassumption.
Qed.

Lemma keeps_for_range {A S} (l : list A) (body : A -> S -> Go S) (s : S) :
  (forall x s, keeps R (body x s)) -> keeps R (for_range l body s).
Proof.
  intros Hbody. revert s. induction l as [|x l IH]; intros s; simpl.
  - apply keeps_ret.
  - apply keeps_bind; auto.
Qed.

Lemma keeps_for_range_return {A S T} (l : list A) (body : A -> S -> Go (S + T))
    (s : S) :
  (forall x s, keeps R (body x s)) -> keeps R (for_range_return l body s).
Proof.
  intros Hbody. revert s. induction l as [|x l IH]; intros s; simpl.
  - apply keeps_ret.
  - apply keeps_bind; auto. intros [s'|res]; [apply IH|apply keeps_ret].
Qed.

Lemma keeps_get_world : keeps R get_world.
Proof. intros w a w' [= _ ->]. reflexivity. Qed.
End Keeps.

Lemma for_range_app {A S} (l1 l2 : list A) (body : A -> S -> Go S) (s s2 : S)
    (w w2 : World) :
  for_range (l1 ++ l2) body s w = Returned s2 w2 <->
  exists s1 w1, for_range l1 body s w = Returned s1 w1
                /\ for_range l2 body s1 w1 = Returned s2 w2.
Proof.
  revert s w. induction l1 as [|x l1 IH]; intros s w; simpl.
  - split; [intros H; exists s, w; split; [reflexivity|exact H]|].
    intros (s1 & w1 & [<- <-]%ret_Returned & H). exact H.
  - rewrite bind_Returned. split.
    + intros (s' & w' & Hbody & (s1 & w1 & H1 & H2)%IH).
      exists s1, w1. split; [|exact H2]. apply bind_Returned. eauto.
    + intros (s1 & w1 & (s' & w' & Hbody & H1)%bind_Returned & H2).
      exists s', w'. split; [exact Hbody|]. apply IH. eauto.
Qed.

Lemma for_range_return_app {A S T} (l1 l2 : list A) (body : A -> S -> Go (S + T))
    (s : S) (r : S + T) (w w2 : World) :
  for_range_return (l1 ++ l2) body s w = Returned r w2 ->
  (exists s1 w1, for_range_return l1 body s w = Returned (inl s1) w1
                 /\ for_range_return l2 body s1 w1 = Returned r w2)
  \/ (exists res, for_range_return l1 body s w = Returned (inr res) w2 /\ r = inr res).
Proof.
  revert s w. induction l1 as [|x l1 IH]; intros s w; simpl.
  - intros H. left. exists s, w. split; [reflexivity|exact H].
  - intros (o & w' & Hbody & H)%bind_Returned. destruct o as [s'|res].
    + apply IH in H as [(s1 & w1 & H1 & H2)|(res & H1 & ->)].
      * left. exists s1, w1. split; [|exact H2]. apply bind_Returned. eauto.
      * right. exists res. split; [|reflexivity]. apply bind_Returned. eauto.
    + apply ret_Returned in H as [<- <-]. right. exists res.
      split; [|reflexivity]. apply bind_Returned. exists (inr res), w'. auto.
Qed.

#[global] Instance only_logs_preorder : PreOrder only_logs.
Proof.
  split.
  - intros w. split; reflexivity.
  - intros w1 w2 w3 [H1 H2] [H3 H4]. split; congruence.
Qed.

Lemma keeps_logrus lvl flds msg : keeps only_logs (logrus lvl flds msg).
Proof. intros w a w' [= _ <-]. split; reflexivity. Qed.

End GoFacts.

(** ** What the functions of the command leave alone *)

Module SyncFrame.
Import GoStrings GoFacts Sync.

Ltac keeps_step :=
  lazymatch goal with
  | |- keeps only_logs (mret _) => apply (keeps_ret only_logs)
  | |- keeps only_logs (panic _) => apply (keeps_panic only_logs)
  | |- keeps only_logs (logrus _ _ _) => apply keeps_logrus
  | |- keeps only_logs get_world => apply (keeps_get_world only_logs)
  | |- keeps only_logs (for_range _ _ _) =>
      apply (keeps_for_range only_logs); intros ? ?
  | |- keeps only_logs (for_range_return _ _ _) =>
      apply (keeps_for_range_return only_logs); intros ? ?
  | |- keeps only_logs (_ ≫= _) => apply (keeps_bind only_logs); [|intros ?]
  | |- keeps only_logs (match ?x with _ => _ end) => destruct x
  end.

Ltac keeps_auto := repeat (keeps_step; simpl); try assumption.

Section WithEnv.
Context {E : Env}.

Lemma keeps_peek p : keeps only_logs (peek p).
Proof. intros w a w' [= _ ->]. reflexivity. Qed.

Lemma keeps_on_DockerReference {A} ref (method : Named -> A) :
  keeps only_logs (on_DockerReference ref method).
Proof. unfold on_DockerReference. keeps_auto. Qed.

Lemma keeps_getImageTags sysCtx imgRef : keeps only_logs (getImageTags sysCtx imgRef).
Proof.
  unfold getImageTags.
  apply (keeps_bind only_logs); [apply keeps_on_DockerReference|intros name].
  apply (keeps_bind only_logs); [apply keeps_logrus|intros _].
  apply (keeps_bind only_logs); [apply keeps_peek|intros c].
  apply (keeps_bind only_logs); [apply keeps_on_DockerReference|intros ref].
  destruct (go_pair [] (docker_GetRepositoryTags c ref)) as [tags [err|]];
    [destruct err|]; keeps_auto.
Qed.

Lemma keeps_isTagSpecified imageName : keeps only_logs (isTagSpecified imageName).
Proof. unfold isTagSpecified. keeps_auto. Qed.

Lemma keeps_imagesToCopyFromRepo repoReference repoName sourceCtx :
  keeps only_logs (imagesToCopyFromRepo repoReference repoName sourceCtx).
Proof.
  unfold imagesToCopyFromRepo.
  apply (keeps_bind only_logs); [apply keeps_getImageTags|intros [tags [err|]]];
    keeps_auto.
Qed.

Lemma keeps_skip_repo imageName registryName err :
  keeps only_logs (skip_repo imageName registryName err).
Proof. unfold skip_repo. keeps_auto. Qed.

Lemma keeps_tagList_of imageName registryName tagIns :
  keeps only_logs (tagList_of imageName registryName tagIns).
Proof. unfold tagList_of. keeps_auto. Qed.

Lemma keeps_references_of_tagList repoName tagList :
  keeps only_logs (references_of_tagList repoName tagList).
Proof. unfold references_of_tagList. keeps_auto. Qed.

Lemma keeps_filter_references tagReg refs :
  keeps only_logs (filter_references tagReg refs).
Proof.
  unfold filter_references, Match.
  apply (keeps_for_range only_logs); intros sReference sourceReferences.
  apply (keeps_bind only_logs); [apply keeps_on_DockerReference|intros str].
  destruct (Split str ":" !! 1%nat); [|keeps_auto].
  destruct tagReg; [|keeps_auto].
  apply (keeps_bind only_logs); [keeps_auto|intros [|]; keeps_auto].
Qed.

Lemma keeps_query_all imageName registryName repoName serverCtx :
  keeps only_logs
    (match docker_ParseReference repoName with
     | inr err => skip_repo imageName registryName err;; mret None
     | inl imageRef =>
         '(sourceReferences, err) ← imagesToCopyFromRepo imageRef repoName serverCtx;
         match err with
         | Some err => skip_repo imageName registryName err;; mret None
         | None => mret (Some sourceReferences)
         end
     end).
Proof.
  destruct (docker_ParseReference repoName) as [imageRef|err].
  - apply (keeps_bind only_logs); [apply keeps_imagesToCopyFromRepo|].
    intros [refs [err|]]; [|keeps_auto].
    apply (keeps_bind only_logs); [apply keeps_skip_repo|intros; keeps_auto].
  - apply (keeps_bind only_logs); [apply keeps_skip_repo|intros; keeps_auto].
Qed.

Lemma keeps_resolve_tags registryName imageName repoName tags serverCtx :
  keeps only_logs (resolve_tags registryName imageName repoName tags serverCtx).
Proof.
  unfold resolve_tags.
  assert (Hlist : forall (m : Go (list string)), keeps only_logs m ->
    keeps only_logs
      (tagList ← m;
       sourceReferences ← references_of_tagList repoName tagList;
       if Nat.eqb (length tagList) 0 then
         logrus InfoLevel (repo_fields imageName registryName)
           "Querying registry for image tags";;
         match docker_ParseReference repoName with
         | inr err => skip_repo imageName registryName err;; mret None
         | inl imageRef =>
             '(sourceReferences, err) ← imagesToCopyFromRepo imageRef repoName serverCtx;
             match err with
             | Some err => skip_repo imageName registryName err;; mret None
             | None => mret (Some sourceReferences)
             end
         end
       else mret (Some sourceReferences))).
  { intros m Hm. apply (keeps_bind only_logs); [exact Hm|intros tagList].
    apply (keeps_bind only_logs); [apply keeps_references_of_tagList|intros refs].
    destruct (Nat.eqb (length tagList) 0); [|keeps_auto].
    apply (keeps_bind only_logs); [apply keeps_logrus|intros _].
    apply keeps_query_all. }
  destruct tags; try (apply Hlist; first [apply keeps_tagList_of | keeps_auto]);
    try solve [keeps_auto].
  destruct (regexp_Compile s) as [re|err].
  - apply (keeps_bind only_logs); [keeps_auto|intros _].
    apply (keeps_bind only_logs); [apply keeps_logrus|intros _].
    destruct (docker_ParseReference repoName) as [imageRef|err].
    + apply (keeps_bind only_logs); [apply keeps_imagesToCopyFromRepo|].
      intros [refs [err|]].
      * apply (keeps_bind only_logs); [apply keeps_skip_repo|intros; keeps_auto].
      * apply (keeps_bind only_logs); [apply keeps_logrus|intros _].
        apply (keeps_bind only_logs); [apply keeps_filter_references|intros; keeps_auto].
    + apply (keeps_bind only_logs); [apply keeps_skip_repo|intros; keeps_auto].
  - apply (keeps_bind only_logs); [apply keeps_skip_repo|intros _].
    apply (keeps_bind only_logs); [apply keeps_logrus|intros _].
    destruct (docker_ParseReference repoName) as [imageRef|err'].
    + apply (keeps_bind only_logs); [apply keeps_imagesToCopyFromRepo|].
      intros [refs [err'|]].
      * apply (keeps_bind only_logs); [apply keeps_skip_repo|intros; keeps_auto].
      * apply (keeps_bind only_logs); [apply keeps_logrus|intros _].
        apply (keeps_bind only_logs); [apply keeps_filter_references|intros; keeps_auto].
    + apply (keeps_bind only_logs); [apply keeps_skip_repo|intros; keeps_auto].
Qed.

End WithEnv.
End SyncFrame.

(** ** Destination suffixes, unknown transports and refused tag listings *)

Module SyncProperties.
Import GoStrings GoPath GoStringsFacts GoFacts Sync SyncFrame.

Section WithEnv.
Context {E : Env}.

Lemma length_zero_eqb (s : string) :
  Nat.eqb (String.length s) 0 = String.eqb s "".
Proof. destruct s; reflexivity. Qed.

(** C8: for a directory-sourced reference the destination suffix is the
    path of the reference within its transport with the base path of
    the descriptor removed from its front; when that leaves nothing, it
    is the last element of the base path; and the suffix is never empty,
    neither before nor after the reduction to its last element that the
    unscoped mode applies. *)
Theorem directory_destSuffix_never_empty :
  forall (opts : syncOptions) (p : string) (srcRepo : repoDescriptor),
    let base := DirBasePath srcRepo in
    destSuffix_by_transport (dirReference p) srcRepo
    = (if String.eqb (TrimPrefix p base) "" then Base base else TrimPrefix p base)
    /\ (forall rest : string,
          destSuffix_by_transport (dirReference (base +:+ rest)) srcRepo
          = if String.eqb rest "" then Base base else rest)
    /\ destSuffix_by_transport (dirReference p) srcRepo <> ""
    /\ destSuffix_of opts (dirReference p) srcRepo <> "".
Proof.
  intros opts p srcRepo base.
  assert (Hne : destSuffix_by_transport (dirReference p) srcRepo <> "").
  { simpl. fold base. destruct (String.eqb (TrimPrefix p base) "") eqn:Heq.
    - apply Base_nonempty.
    - intros H. rewrite H in Heq. discriminate. }
  repeat split.
  - intros rest. simpl. fold base. now rewrite TrimPrefix_app.
  - exact Hne.
  - unfold destSuffix_of. destruct (negb (scoped opts)); [apply Base_nonempty|exact Hne].
Qed.

(** C10: for a transport other than docker, dir and yaml, [imagesToCopy]
    returns no descriptor and a nil error and does nothing else; it is
    [run] that refuses such a source transport, and it does so before it
    builds a context or plans anything. *)
Theorem imagesToCopy_unknown_transport :
  forall (source_ transport : string) (sourceCtx : ptr) (w : World),
    transport <> "docker" -> transport <> "dir" -> transport <> "yaml" ->
    imagesToCopy source_ transport sourceCtx w = Returned ([], None) w
    /\ forall (opts : syncOptions) (destination_ : string),
         source opts = transport -> getPolicyContext = None ->
         run opts [source_; destination_] w
         = Returned
             (Some (ErrorString
                      (if String.eqb transport ""
                       then "A source transport must be specified"
                       else quoted transport +:+ " is not a valid source transport")))
             w.
Proof.
  intros source_ transport sourceCtx w H1 H2 H3.
  apply String.eqb_neq in H1, H2, H3. split.
  - unfold imagesToCopy. now rewrite H1, H2, H3.
  - intros opts destination_ Hsrc Hpol. unfold run. rewrite Hpol, Hsrc.
    rewrite length_zero_eqb.
    destruct (String.eqb transport ""); [reflexivity|].
    unfold contains. simpl. now rewrite H1, H2, H3.
Qed.

Lemma docker_ParseReference_slashes (name : string) :
  docker_ParseReference ("//" +:+ name)
  = match reference_ParseNormalizedNamed name with
    | inr err => inr err
    | inl ref => Reference.NewReference (Reference.TagNameOnly ref)
    end.
Proof.
  unfold docker_ParseReference.
  now rewrite (HasPrefix_app "//" name), (TrimPrefix_app "//" name).
Qed.

Lemma getImageTags_unauthorized (sysCtx : ptr) (n : Named) (msg : string) (w : World) :
  docker_GetRepositoryTags (w_heap w !! sysCtx) n
  = inr (ErrUnauthorizedForCredentials msg) ->
  getImageTags sysCtx (dockerReference n) w
  = Returned ([], None)
      (with_log
         (w_log w
          ++ [{| level := InfoLevel; fields := [("image", Reference.Name n)];
                 message := "Getting tags" |};
              {| level := WarnLevel; fields := [];
                 message := "Registry disallows tag list retrieval: "
                            +:+ Error (ErrUnauthorizedForCredentials msg) |}]) w).
Proof.
  intros H. unfold getImageTags.
  unfold on_DockerReference, mbind, Go_bind, mret, Go_ret, logrus, peek. simpl.
  unfold id. rewrite H. simpl.
  unfold with_log. simpl. now rewrite <- app_assoc.
Qed.

(** C5: when the registry answers the listing of tags with an
    unauthorized error, [getImageTags] returns no tag and no error, and
    logs a warning; [imagesToCopy], asked for a docker source without a
    tag, then reports that no images were found, and [run] returns that
    error. *)
Theorem unauthorized_tag_listing :
  (forall (sysCtx : ptr) (n : Named) (msg : string) (w : World),
      docker_GetRepositoryTags (w_heap w !! sysCtx) n
      = inr (ErrUnauthorizedForCredentials msg) ->
      exists w',
        getImageTags sysCtx (dockerReference n) w = Returned ([], None) w'
        /\ only_logs w w'
        /\ exists entry, entry ∈ w_log w' /\ level entry = WarnLevel)
  /\ (forall (source_ : string) (nn : Named) (msg : string) (sourceCtx : ptr) (w : World),
        reference_ParseNormalizedNamed source_ = inl nn ->
        Reference.IsNameOnly nn = true ->
        docker_GetRepositoryTags (w_heap w !! sourceCtx) (Reference.TagNameOnly nn)
        = inr (ErrUnauthorizedForCredentials msg) ->
        exists w',
          imagesToCopy source_ "docker" sourceCtx w
          = Returned ([], Some (no_images source_)) w')
  /\ (forall (opts : syncOptions) (source_ destination_ : string) (nn : Named)
             (msg : string) (c : SystemContext) (w : World),
        source opts = "docker" ->
        contains (destination opts) ["docker"; "dir"] = true ->
        getPolicyContext = None ->
        srcImage_newSystemContext = inl c ->
        reference_ParseNormalizedNamed source_ = inl nn ->
        Reference.IsNameOnly nn = true ->
        docker_GetRepositoryTags (Some c) (Reference.TagNameOnly nn)
        = inr (ErrUnauthorizedForCredentials msg) ->
        exists w',
          run opts [source_; destination_] w
          = Returned (Some (no_images source_)) w').
Proof.
  assert (Hplan : forall source_ nn msg sourceCtx w,
    reference_ParseNormalizedNamed source_ = inl nn ->
    Reference.IsNameOnly nn = true ->
    docker_GetRepositoryTags (w_heap w !! sourceCtx) (Reference.TagNameOnly nn)
    = inr (ErrUnauthorizedForCredentials msg) ->
    exists w', imagesToCopy source_ "docker" sourceCtx w
               = Returned ([], Some (no_images source_)) w'
               /\ w_heap w' = w_heap w).
  { intros source_ nn msg sourceCtx w Hparse Hbare Htags.
    unfold imagesToCopy. simpl.
    rewrite docker_ParseReference_slashes, Hparse.
    unfold Reference.NewReference.
    assert (Htagged : Reference.TagNameOnly nn =
                      {| named_name := named_name nn; named_tag := Some "latest";
                         named_digest := None |})
      by (unfold Reference.TagNameOnly; now rewrite Hbare).
    rewrite Htagged in *. simpl.
    rewrite bind_unfold. unfold isTagSpecified. rewrite Hparse, Hbare. simpl.
    rewrite bind_unfold. unfold imagesToCopyFromRepo. rewrite bind_unfold.
    erewrite getImageTags_unauthorized by (simpl; exact Htags).
    simpl. eexists. split; reflexivity. }
  split; [|split].
  - intros sysCtx n msg w H. eexists.
    split; [apply (getImageTags_unauthorized _ _ msg); exact H|].
    split; [split; reflexivity|].
    exists {| level := WarnLevel; fields := [];
              message := "Registry disallows tag list retrieval: "
                         +:+ Error (ErrUnauthorizedForCredentials msg) |}.
    split; [|reflexivity]. simpl. apply elem_of_app. right.
    apply elem_of_cons. right. apply list_elem_of_singleton. reflexivity.
  - intros source_ nn msg sourceCtx w H1 H2 H3.
    destruct (Hplan source_ nn msg sourceCtx w H1 H2 H3) as (w' & Hw' & _). eauto.
  - intros opts source_ destination_ nn msg c w Hsrc Hdst Hpol Hctx Hparse Hbare Htags.
    assert (Hd : String.eqb (destination opts) "" = false).
    { destruct (String.eqb (destination opts) "") eqn:Hd; [|reflexivity].
      apply String.eqb_eq in Hd. rewrite Hd in Hdst. discriminate. }
    unfold run. rewrite Hpol, Hsrc, Hctx, Hdst, !length_zero_eqb, Hd.
    replace (String.eqb "docker" (destination opts) && String.eqb "docker" "dir")
      with false by (now rewrite andb_false_r).
    simpl. rewrite bind_unfold. simpl. rewrite bind_unfold.
    destruct (Hplan source_ nn msg (length (w_heap w))
                (with_heap (w_heap w ++ [c]) w) Hparse Hbare) as (w' & Hw' & _).
    { simpl. rewrite lookup_app_r, Nat.sub_diag by lia. exact Htags. }
    rewrite Hw'. eauto.
Qed.

End WithEnv.
End SyncProperties.

(** ** The contexts of a manifest run *)

Module ContextProperties.
Import GoStrings GoStringsFacts GoFacts Sync SyncFrame ContextSpec.

Section WithEnv.
Context {E : Env}.

Lemma store_Returned p f w (u : unit) w' :
  store p f w = Returned u w' ->
  exists c, w_heap w !! p = Some c /\ w' = with_heap (<[p := f c]> (w_heap w)) w.
Proof.
  unfold store. destruct (w_heap w !! p) as [c|]; [|discriminate].
  intros [= _ <-]. eauto.
Qed.

Lemma override_context_Returned cfg p w (u : unit) w' :
  override_context cfg p w = Returned u w' ->
  exists c, w_heap w !! p = Some c
            /\ w' = with_heap (<[p := overridden cfg c]> (w_heap w)) w.
Proof.
  unfold override_context. intros H.
  apply bind_Returned in H as (? & w1 & (c & Hc & ->)%store_Returned & H).
  assert (Hp : p < length (w_heap w)) by (eapply lookup_lt_Some; eauto).
  apply bind_Returned in H as (? & w2 & (c2 & Hc2 & ->)%store_Returned & H).
  apply bind_Returned in H as (? & w3 & (c3 & Hc3 & ->)%store_Returned & H).
  apply bind_Returned in H as (? & w4 & (c4 & Hc4 & ->)%store_Returned & H).
  apply store_Returned in H as (c5 & Hc5 & ->).
  simpl in *.
  rewrite list_lookup_insert_eq in Hc2 by exact Hp.
  rewrite list_insert_insert_eq in Hc3, Hc4, Hc5 |- *.
  rewrite list_lookup_insert_eq in Hc3 by exact Hp.
  rewrite list_insert_insert_eq in Hc4, Hc5 |- *.
  rewrite list_lookup_insert_eq in Hc4 by exact Hp.
  rewrite list_insert_insert_eq in Hc5 |- *.
  rewrite list_lookup_insert_eq in Hc5 by exact Hp.
  rewrite list_insert_insert_eq.
  injection Hc2 as <-. injection Hc3 as <-. injection Hc4 as <-. injection Hc5 as <-.
  exists c. split; [exact Hc|]. reflexivity.
Qed.

(** One turn of the loop of [imagesToCopyFromRegistry]: the context
    behind [serverCtx] now holds the registry settings, nothing else on
    the heap or in the file system has changed, and at most one
    descriptor, pointing at that context, has been added. *)
Lemma registry_loop_body_Returned registryName cfg p entry ds w ds' w' :
  registry_loop_body registryName cfg p entry ds w = Returned ds' w' ->
  exists c, w_heap w !! p = Some c
            /\ w_heap w' = <[p := overridden cfg c]> (w_heap w)
            /\ w_fs w' = w_fs w
            /\ (ds' = ds
                \/ exists refs, refs <> []
                     /\ ds' = ds ++ [{| DirBasePath := ""; TaggedImages := refs;
                                        Context := p |}]).
Proof.
  unfold registry_loop_body. destruct entry as [imageName tags]. intros H.
  apply bind_Returned in H as (? & w1 & Hlog & H).
  apply keeps_logrus in Hlog as [Hh1 Hf1].
  apply bind_Returned in H as (? & w2 & (c & Hc & ->)%override_context_Returned & H).
  apply bind_Returned in H as (o & w3 & Hres & H).
  apply keeps_resolve_tags in Hres as [Hh3 Hf3]. simpl in Hh3, Hf3.
  rewrite Hh1 in Hc, Hh3. rewrite Hf1 in Hf3.
  exists c. split; [exact Hc|].
  destruct o as [refs|].
  - destruct (Nat.eqb (length refs) 0) eqn:Hlen.
    + apply bind_Returned in H as (? & w4 & [Hh4 Hf4]%keeps_logrus & H).
      apply ret_Returned in H as [<- <-].
      repeat split; [congruence|congruence|now left].
    + apply ret_Returned in H as [<- <-].
      repeat split; [congruence|congruence|right].
      exists refs. split; [|reflexivity]. intros ->. discriminate.
  - apply ret_Returned in H as [<- <-].
    repeat split; [congruence|congruence|now left].
Qed.

(** The whole loop: after a first turn the heap does not change any
    more. *)
Lemma registry_loop_Returned registryName cfg p images ds w ds' w' :
  for_range images (registry_loop_body registryName cfg p) ds w = Returned ds' w' ->
  w_fs w' = w_fs w
  /\ (exists new, ds' = ds ++ new /\ Forall (fun d => Context d = p) new
                  /\ (images = [] -> new = []))
  /\ match images with
     | [] => w_heap w' = w_heap w
     | _ :: _ => exists c, w_heap w !! p = Some c
                           /\ w_heap w' = <[p := overridden cfg c]> (w_heap w)
     end.
Proof.
  revert ds w. induction images as [|entry images IH]; intros ds w H; simpl in H.
  - apply ret_Returned in H as [<- <-]. repeat split.
    exists []. rewrite app_nil_r. auto.
  - apply bind_Returned in H as (ds1 & w1 & Hbody & H).
    apply registry_loop_body_Returned in Hbody as (c & Hc & Hh1 & Hf1 & Hds1).
    apply IH in H as (Hf & (new & -> & Hnew & _) & Hh).
    assert (Hp : p < length (w_heap w)) by (eapply lookup_lt_Some; eauto).
    split; [congruence|]. split.
    + destruct Hds1 as [->|(refs & _ & ->)].
      * exists new. repeat split; [exact Hnew|discriminate].
      * eexists. rewrite <- app_assoc. repeat split; [|discriminate].
        constructor; [reflexivity|exact Hnew].
    + exists c. split; [exact Hc|].
      destruct images as [|entry' images]; [congruence|].
      destruct Hh as (c' & Hc' & ->). rewrite Hh1 in Hc' |- *.
      rewrite list_lookup_insert_eq in Hc' by exact Hp. injection Hc' as <-.
      now rewrite list_insert_insert_eq.
Qed.

(** [imagesToCopyFromRegistry] clones: its context is a new object at
    the end of the heap, no other object is written, and every
    descriptor points at the new object. *)
Lemma imagesToCopyFromRegistry_Returned registryName cfg c w ds err w' :
  imagesToCopyFromRegistry registryName cfg c w = Returned (ds, err) w' ->
  err = None
  /\ w_fs w' = w_fs w
  /\ w_heap w' = w_heap w ++ [if Nat.eqb (length (Images cfg)) 0 then c
                              else overridden cfg c]
  /\ Forall (fun d => Context d = length (w_heap w)) ds
  /\ (Images cfg = [] -> ds = []).
Proof.
  unfold imagesToCopyFromRegistry. intros H.
  apply bind_Returned in H as (p & w1 & Halloc & H).
  unfold alloc in Halloc. injection Halloc as <- <-.
  apply bind_Returned in H as (ds' & w2 & Hloop & H).
  apply ret_Returned in H as [[= <- <-] <-].
  apply registry_loop_Returned in Hloop as (Hf & (new & -> & Hnew & Hnil) & Hh).
  simpl in *. repeat split; [exact Hf| |exact Hnew|exact Hnil].
  destruct (Images cfg) as [|entry images]; simpl; [exact Hh|].
  destruct Hh as (c' & Hc' & ->).
  rewrite lookup_app_r, Nat.sub_diag in Hc' by lia. injection Hc' as <-.
  replace (length (w_heap w)) with (length (w_heap w) + 0) at 1 by lia.
  now rewrite insert_app_r.
Qed.

(** One turn of the loop of the yaml case. *)
Lemma yaml_loop_body_Returned p entry ds base w r w' :
  w_heap w !! p = Some base ->
  yaml_loop_body p entry ds w = Returned r w' ->
  w_fs w' = w_fs w
  /\ w_heap w' = w_heap w ++ map (fun rc => overridden rc base) (with_images [entry])
  /\ exists new, r = inl (ds ++ new)
                 /\ Forall (fun d => Context d = length (w_heap w)) new
                 /\ (with_images [entry] = [] -> new = []).
Proof.
  intros Hbase. unfold yaml_loop_body, with_images. destruct entry as [rn rc]. simpl.
  destruct (Nat.eqb (length (Images rc)) 0) eqn:Hlen; simpl.
  - intros H. apply bind_Returned in H as (? & w1 & [Hh Hf]%keeps_logrus & H).
    apply ret_Returned in H as [<- <-]. rewrite app_nil_r.
    repeat split; [exact Hf|exact Hh|]. exists []. rewrite app_nil_r. auto.
  - intros H. apply bind_Returned in H as (c & w1 & Hload & H).
    unfold load in Hload. rewrite Hbase in Hload. injection Hload as <- <-.
    apply bind_Returned in H as ([descs err] & w2 & Hreg & H).
    apply imagesToCopyFromRegistry_Returned in Hreg as (-> & Hf & Hh & Hctx & _).
    apply ret_Returned in H as [<- <-]. rewrite Hlen in Hh.
    repeat split; [exact Hf|exact Hh|]. exists descs. repeat split; [exact Hctx|].
    discriminate.
Qed.

(** The loop of the yaml case appends one overridden clone of the base
    context for every registry with images; the descriptors it adds
    point at those clones. *)
Lemma yaml_loop_Returned p cfg ds base w r w' :
  w_heap w !! p = Some base ->
  for_range_return cfg (yaml_loop_body p) ds w = Returned r w' ->
  w_fs w' = w_fs w
  /\ w_heap w' = w_heap w ++ map (fun rc => overridden rc base) (with_images cfg)
  /\ exists new, r = inl (ds ++ new)
       /\ Forall (fun d => length (w_heap w) <= Context d < length (w_heap w')
                           /\ exists rc, rc ∈ with_images cfg
                                /\ w_heap w' !! Context d = Some (overridden rc base))
            new.
Proof.
  revert ds w. induction cfg as [|entry cfg IH]; intros ds w Hbase H; simpl in H.
  - apply ret_Returned in H as [<- <-]. simpl. rewrite app_nil_r.
    repeat split. exists []. rewrite app_nil_r. auto.
  - apply bind_Returned in H as (o & w1 & Hbody & H).
    apply (yaml_loop_body_Returned _ _ _ base) in Hbody
      as (Hf1 & Hh1 & new1 & -> & Hnew1 & Hnil1); [|exact Hbase].
    assert (Hbase1 : w_heap w1 !! p = Some base)
      by (rewrite Hh1; now apply lookup_app_l_Some).
    apply IH in H as (Hf & Hh & new & -> & Hnew); [|exact Hbase1].
    assert (Hsplit : with_images (entry :: cfg) = with_images [entry] ++ with_images cfg).
    { unfold with_images. simpl.
      destruct (negb (Nat.eqb (length (Images (snd entry))) 0)); reflexivity. }
    split; [congruence|]. split.
    { rewrite Hh, Hh1, Hsplit, map_app. now rewrite <- app_assoc. }
    exists (new1 ++ new). split; [now rewrite app_assoc|].
    apply Forall_app. split.
    + destruct (with_images [entry]) as [|rc rest] eqn:Hentry.
      { rewrite Hnil1 by reflexivity. constructor. }
      assert (rest = []) as ->.
      { unfold with_images in Hentry. simpl in Hentry.
        destruct (negb (Nat.eqb (length (Images (snd entry))) 0));
          simpl in Hentry; congruence. }
      eapply Forall_impl; [exact Hnew1|]. intros d Hd. simpl in Hd.
      rewrite Hh, Hh1, Hsplit, Hd, !length_app. simpl.
      split; [lia|]. exists rc. split; [apply elem_of_cons; now left|].
      rewrite <- app_assoc. simpl. now apply list_lookup_middle.
    + eapply Forall_impl; [exact Hnew|]. intros d [Hrange (rc & Hrc & Hd)].
      assert (length (w_heap w) <= length (w_heap w1))
        by (rewrite Hh1, length_app; lia).
      split; [lia|]. exists rc. split; [|exact Hd].
      rewrite Hsplit. apply elem_of_app. now right.
Qed.

Lemma newSourceConfig_Returned yamlFile w r w' :
  newSourceConfig yamlFile w = Returned r w' -> w' = w.
Proof.
  unfold newSourceConfig. intros (w0 & w1 & [= <- <-] & H)%bind_Returned.
  destruct (FS.ReadFile (w_fs w) yamlFile) as [content|err].
  - destruct (match yaml_Unmarshal content with
              | inl v => Yaml.decode_sourceConfig v
              | inr err => inr err
              end);
      apply ret_Returned in H as [_ <-]; reflexivity.
  - apply ret_Returned in H as [_ <-]; reflexivity.
Qed.

(** C2: in a manifest run every registry with images gets a context of
    its own, a clone of the base context with the settings of the
    registry written over it: the heap after planning is the heap
    before it followed by those clones, so the base context and every
    other object that existed are untouched, and the context of every
    descriptor is such a clone, never the base.  The context of a
    descriptor does not change once the descriptor is built: not while
    the loop over the images of its registry goes on, and not while
    later registries are planned. *)
Theorem manifest_contexts_cloned_and_frozen :
  (forall (source_ : string) (p : ptr) (base : SystemContext) (w w' : World)
          (ds : list repoDescriptor) (err : option error),
      w_heap w !! p = Some base ->
      imagesToCopy source_ "yaml" p w = Returned (ds, err) w' ->
      w_heap w' !! p = Some base
      /\ (exists cfg, w_heap w'
                      = w_heap w ++ map (fun rc => overridden rc base) (with_images cfg)
                      /\ forall d, d ∈ ds ->
                           Context d <> p
                           /\ newSourceConfig source_ w = Returned (cfg, None) w
                           /\ exists rc, rc ∈ with_images cfg
                                /\ w_heap w' !! Context d = Some (overridden rc base)))
  /\ (forall (registryName : string) (cfg : registrySyncConfig) (p : ptr)
             (images1 images2 : list (string * yamlValue)) (w0 w2 : World)
             (ds2 : list repoDescriptor),
        for_range (images1 ++ images2) (registry_loop_body registryName cfg p) [] w0
        = Returned ds2 w2 ->
        exists ds1 w1 new,
          for_range images1 (registry_loop_body registryName cfg p) [] w0
          = Returned ds1 w1
          /\ ds2 = ds1 ++ new
          /\ forall d, d ∈ ds1 -> w_heap w2 !! Context d = w_heap w1 !! Context d)
  /\ (forall (p : ptr) (base : SystemContext) (cfg1 cfg2 : sourceConfig)
             (w0 w2 : World)
             (r : list repoDescriptor + list repoDescriptor * option error),
        w_heap w0 !! p = Some base ->
        for_range_return (cfg1 ++ cfg2) (yaml_loop_body p) [] w0 = Returned r w2 ->
        exists ds1 w1 new,
          for_range_return cfg1 (yaml_loop_body p) [] w0 = Returned (inl ds1) w1
          /\ r = inl (ds1 ++ new)
          /\ forall d, d ∈ ds1 ->
               Context d <> p
               /\ w_heap w2 !! Context d = w_heap w1 !! Context d).
Proof.
  split; [|split].
  - intros source_ p base w w' ds err Hbase H.
    unfold imagesToCopy in H. simpl in H.
    apply bind_Returned in H as ([cfg cerr] & w1 & Hcfg & H).
    pose proof (newSourceConfig_Returned _ _ _ _ Hcfg) as ->.
    destruct cerr as [cerr|].
    + apply ret_Returned in H as [[= <- <-] <-]. split; [exact Hbase|].
      exists []. simpl. rewrite app_nil_r. split; [reflexivity|].
      intros d Hd. now apply elem_of_nil in Hd.
    + apply bind_Returned in H as (r & w2 & Hloop & H).
      apply (yaml_loop_Returned _ _ _ base) in Hloop
        as (_ & Hh & new & -> & Hnew); [|exact Hbase].
      apply ret_Returned in H as [[= <- <-] <-].
      split; [rewrite Hh; now apply lookup_app_l_Some|].
      exists cfg. split; [exact Hh|]. intros d Hd. simpl in Hd.
      rewrite Forall_forall in Hnew. destruct (Hnew d Hd) as [Hrange Hrc].
      apply lookup_lt_Some in Hbase.
      split; [lia|]. split; [exact Hcfg|exact Hrc].
  - intros registryName cfg p images1 images2 w0 w2 ds2 H.
    apply for_range_app in H as (ds1 & w1 & H1 & H2).
    exists ds1, w1.
    pose proof (registry_loop_Returned _ _ _ _ _ _ _ _ H1)
      as (_ & (new1 & Hds1 & Hctx1 & Hnil1) & Hh1).
    pose proof (registry_loop_Returned _ _ _ _ _ _ _ _ H2)
      as (_ & (new2 & -> & _ & _) & Hh2).
    exists new2. split; [exact H1|]. split; [reflexivity|].
    intros d Hd. destruct images1 as [|e1 images1].
    { simpl in Hds1. rewrite (Hnil1 eq_refl) in Hds1. subst ds1.
      now apply elem_of_nil in Hd. }
    destruct Hh1 as (c & Hc & Hh1). apply lookup_lt_Some in Hc.
    destruct images2 as [|e2 images2]; [now rewrite Hh2|].
    destruct Hh2 as (c' & Hc' & ->). rewrite Hh1 in Hc' |- *.
    rewrite list_lookup_insert_eq in Hc' by exact Hc. injection Hc' as <-.
    now rewrite list_insert_insert_eq.
  - intros p base cfg1 cfg2 w0 w2 r Hbase H.
    apply for_range_return_app in H as [(ds1 & w1 & H1 & H2)|(res & H1 & ->)].
    + pose proof (yaml_loop_Returned _ _ _ _ _ _ _ Hbase H1)
        as (_ & Hh1 & new1 & [= Hds1] & Hnew1).
      simpl in Hds1. subst ds1.
      assert (Hbase1 : w_heap w1 !! p = Some base)
        by (rewrite Hh1; now apply lookup_app_l_Some).
      pose proof (yaml_loop_Returned _ _ _ _ _ _ _ Hbase1 H2)
        as (_ & Hh2 & new2 & -> & _).
      exists new1, w1, new2. split; [exact H1|]. split; [reflexivity|].
      intros d Hd. rewrite Forall_forall in Hnew1.
      destruct (Hnew1 d Hd) as [Hrange _]. apply lookup_lt_Some in Hbase.
      split; [lia|]. rewrite Hh2. apply lookup_app_l. lia.
    + pose proof (yaml_loop_Returned _ _ _ _ _ _ _ Hbase H1)
        as (_ & _ & new1 & [=] & _).
Qed.

Lemma decode_registry_fields_TLSVerify fields out cfg :
  (forall v, (YString "tls-verify", v) ∉ fields) ->
  Yaml.decode_registry_fields fields out = inl cfg ->
  TLSVerify cfg = TLSVerify out.
Proof.
  revert out. induction fields as [|[k v] fields IH]; intros out Habsent H; simpl in H.
  - now injection H as <-.
  - assert (Hrest : forall v', (YString "tls-verify", v') ∉ fields).
    { intros v' Hin. apply (Habsent v'). apply elem_of_cons. now right. }
    destruct k as [|k| | | | | | |]; try discriminate.
    destruct (String.eqb k "images") eqn:Himages.
    { destruct (Yaml.decode_images v (Images out)); [|discriminate].
      now rewrite (IH _ Hrest H). }
    destruct (String.eqb k "credentials") eqn:Hcredentials.
    { destruct (Yaml.decode_credentials v (Credentials out)); [|discriminate].
      now rewrite (IH _ Hrest H). }
    destruct (String.eqb k "tls-verify") eqn:Htls.
    { apply String.eqb_eq in Htls. subst k. exfalso.
      apply (Habsent v). apply elem_of_cons. now left. }
    destruct (String.eqb k "cert-dir") eqn:Hcert.
    { destruct (Yaml.decode_string v (CertDir out)); [|discriminate].
      now rewrite (IH _ Hrest H). }
    exact (IH _ Hrest H).
Qed.

End WithEnv.
End ContextProperties.

(** ** File system destinations *)

Module DestinationProperties.
Import GoStrings GoPath GoFacts Sync.

Lemma find_entry_replace {A} (name : string) (x y : A) (es : list (string * A)) :
  FS.find_entry name es = Some x ->
  FS.find_entry name (FS.replace_entry name y es) = Some y.
Proof.
  induction es as [|[n z] es IH]; simpl; [discriminate|].
  destruct (String.eqb n name) eqn:Hn; simpl; rewrite Hn; auto.
Qed.

Lemma find_entry_snoc {A} (name : string) (y : A) (es : list (string * A)) :
  FS.find_entry name es = None ->
  FS.find_entry name (es ++ [(name, y)]) = Some y.
Proof.
  induction es as [|[n z] es IH]; simpl.
  - now rewrite String.eqb_refl.
  - destruct (String.eqb n name); [discriminate|auto].
Qed.

Lemma mkdir_all_IsDir (n n' : node) (comps : list string) :
  FS.mkdir_all n comps = inl n' -> IsDir n' = true.
Proof.
  destruct comps as [|c r]; destruct n as [content|wr es]; simpl; try discriminate.
  - now intros [= <-].
  - destruct (FS.find_entry c es) as [child|].
    + destruct (FS.mkdir_all child r); [now intros [= <-]|discriminate].
    + destruct wr; [|discriminate].
      destruct (FS.mkdir_all (Directory true []) r); [now intros [= <-]|discriminate].
Qed.

(** After [mkdir_all] every prefix of the path is a directory. *)
Lemma mkdir_all_resolve (comps : list string) :
  forall (n n' : node) (pre suf : list string),
    FS.mkdir_all n comps = inl n' ->
    comps = pre ++ suf ->
    exists wr es, FS.resolve n' pre = inl (Directory wr es).
Proof.
  induction comps as [|c r IH]; intros n n' pre suf Hmk Hsplit.
  - destruct pre; [|discriminate]. simpl.
    apply mkdir_all_IsDir in Hmk. destruct n'; [discriminate|eauto].
  - destruct pre as [|c' pre].
    + simpl. apply mkdir_all_IsDir in Hmk. destruct n'; [discriminate|eauto].
    + injection Hsplit as <- ->. simpl in Hmk.
      destruct n as [content|wr es]; [discriminate|].
      destruct (FS.find_entry c es) as [child|] eqn:Hfind.
      * destruct (FS.mkdir_all child (pre ++ suf)) as [child'|] eqn:Hchild;
          [|discriminate].
        injection Hmk as <-. simpl.
        rewrite (find_entry_replace _ _ _ _ Hfind). eapply IH; eauto.
      * destruct wr; [|discriminate].
        destruct (FS.mkdir_all (Directory true []) (pre ++ suf)) as [child'|] eqn:Hchild;
          [|discriminate].
        injection Hmk as <-. simpl.
        rewrite (find_entry_snoc _ _ _ Hfind). eapply IH; eauto.
Qed.

Section WithEnv.
Context {E : Env}.

(** C9: for a dir destination, when the target path exists
    [destinationReference] returns the refusal to overwrite and leaves
    the world as it is, and the loop of [run] ends there with that
    error, before any copy; when it returns a reference, the path did
    not exist, all directories along it have been created, and the
    reference was parsed on the file system that has them; and it does
    return a reference when the path does not exist, the directories can
    be created and the path resolves. *)
Theorem filesystem_destination :
  forall (destination_ : string) (w : World),
    (forall n : node,
        FS.Stat (w_fs w) destination_ = inl n ->
        destinationReference destination_ "dir" w
        = Returned
            (inr (ErrorString ("Refusing to overwrite destination directory "
                               +:+ quoted destination_))) w)
    /\ (forall (destRef : ImageReference) (w' : World),
          destinationReference destination_ "dir" w = Returned (inl destRef) w' ->
          (exists err, FS.Stat (w_fs w) destination_ = inr err /\ IsNotExist err = true)
          /\ FS.mkdir_all (w_fs w) (FS.components destination_) = inl (w_fs w')
          /\ (forall pre suf : list string,
                FS.components destination_ = pre ++ suf ->
                exists wr es, FS.resolve (w_fs w') pre = inl (Directory wr es))
          /\ destRef = dirReference destination_
          /\ directory_resolve_error (w_fs w') destination_ = None)
    /\ (forall (opts : syncOptions) (root : string) (options : copyOptions)
               (srcRepo : repoDescriptor) (ref : ImageReference) (imagesNumber : nat)
               (n : node),
          destination opts = "dir" ->
          destination_ = Join2 root (destSuffix_of opts ref srcRepo) ->
          FS.Stat (w_fs w) destination_ = inl n ->
          copy_loop_body opts root options srcRepo ref imagesNumber w
          = Returned
              (inr (ErrorString ("Refusing to overwrite destination directory "
                                 +:+ quoted destination_))) w)
    /\ (forall (err : error) (fs' : node),
          destination_ <> "" ->
          FS.Stat (w_fs w) destination_ = inr err ->
          IsNotExist err = true ->
          FS.mkdir_all (w_fs w) (FS.components destination_) = inl fs' ->
          directory_resolve_error fs' destination_ = None ->
          exists w',
            destinationReference destination_ "dir" w
            = Returned (inl (dirReference destination_)) w'
            /\ w_fs w' = fs').
Proof.
  intros destination_ w.
  assert (Hexists : forall n : node,
    FS.Stat (w_fs w) destination_ = inl n ->
    destinationReference destination_ "dir" w
    = Returned (inr (ErrorString ("Refusing to overwrite destination directory "
                                  +:+ quoted destination_))) w).
  { intros n Hstat. unfold destinationReference. simpl.
    rewrite bind_unfold. simpl. now rewrite Hstat. }
  split; [exact Hexists|]. split; [|split].
  - intros destRef w' H. unfold destinationReference in H. simpl in H.
    rewrite bind_unfold in H. simpl in H.
    destruct (FS.Stat (w_fs w) destination_) as [n|err] eqn:Hstat.
    { apply ret_Returned in H as [[=] _]. }
    destruct (IsNotExist err) eqn:Hne; simpl in H.
    2: { apply ret_Returned in H as [[=] _]. }
    split; [eauto|].
    apply bind_Returned in H as (merr & w1 & Hmk & H).
    unfold FS.MkdirAll in Hmk.
    destruct (String.eqb destination_ "").
    { injection Hmk as <- <-. apply ret_Returned in H as [[=] _]. }
    destruct (FS.mkdir_all (w_fs w) (FS.components destination_)) as [fs'|e] eqn:Hall.
    2: { injection Hmk as <- <-. apply ret_Returned in H as [[=] _]. }
    injection Hmk as <- <-.
    apply bind_Returned in H as (? & w2 & Hlog & H).
    apply keeps_logrus in Hlog as [_ Hf2]. simpl in Hf2.
    apply bind_Returned in H as (r & w3 & Hparse & H).
    unfold directory_ParseReference in Hparse. rewrite Hf2 in Hparse.
    destruct (directory_resolve_error fs' destination_) eqn:Hres.
    { injection Hparse as <- <-. apply ret_Returned in H as [[=] _]. }
    injection Hparse as <- <-. apply ret_Returned in H as [[= <-] <-].
    rewrite Hf2. repeat split; try reflexivity; [|exact Hres].
    intros pre suf Hsplit. eapply mkdir_all_resolve; eauto.
  - intros opts root options srcRepo ref imagesNumber n Hdir -> Hstat.
    unfold copy_loop_body. rewrite bind_unfold, Hdir.
    now rewrite (Hexists n Hstat).
  - intros err fs' Hdest Hstat Hne Hmk Hres. apply String.eqb_neq in Hdest.
    unfold destinationReference. simpl. rewrite bind_unfold. simpl.
    rewrite Hstat, Hne. simpl. rewrite bind_unfold.
    unfold FS.MkdirAll. rewrite Hdest, Hmk.
    rewrite bind_unfold. simpl. rewrite bind_unfold.
    unfold directory_ParseReference. simpl. rewrite Hres.
    eexists. split; reflexivity.
Qed.

End WithEnv.
End DestinationProperties.

(** ** The walk over a tree of stored images *)

Module WalkProperties.
Import GoStrings GoPath GoFacts Sync Markers WalkSpec.

Lemma node_nested_ind (P : node -> Prop) :
  (forall content, P (File content)) ->
  (forall wr es, Forall (fun e => P (snd e)) es -> P (Directory wr es)) ->
  forall n, P n.
Proof.
  intros HFile HDirectory. fix IH 1. intros [content|wr es]; [apply HFile|].
  apply HDirectory. induction es as [|e es IHes]; constructor; [apply IH|exact IHes].
Qed.

Section Sorting.
Context {A B : Type}.

Lemma insert_by_name_map (f : string * A -> string * B) (e : string * A)
    (l : list (string * A)) :
  (forall x, fst (f x) = fst x) ->
  FS.insert_by_name (f e) (map f l) = map f (FS.insert_by_name e l).
Proof.
  intros Hf. induction l as [|e' l IH]; simpl; [reflexivity|].
  rewrite !Hf. destruct (String.leb (fst e) (fst e')); simpl; [reflexivity|].
  now rewrite IH.
Qed.

Lemma sort_by_name_map (f : string * A -> string * B) (l : list (string * A)) :
  (forall x, fst (f x) = fst x) ->
  FS.sort_by_name (map f l) = map f (FS.sort_by_name l).
Proof.
  intros Hf. induction l as [|e l IH]; simpl; [reflexivity|].
  now rewrite IH, insert_by_name_map.
Qed.

Lemma Forall_insert_by_name (P : string * A -> Prop) (e : string * A)
    (l : list (string * A)) :
  P e -> Forall P l -> Forall P (FS.insert_by_name e l).
Proof.
  intros He Hl. induction Hl as [|e' l He' Hl IH]; simpl.
  - constructor; [exact He|constructor].
  - destruct (String.leb (fst e) (fst e')); repeat constructor; assumption.
Qed.

Lemma Forall_sort_by_name (P : string * A -> Prop) (l : list (string * A)) :
  Forall P l -> Forall P (FS.sort_by_name l).
Proof.
  induction 1 as [|e l He Hl IH]; simpl; [constructor|].
  now apply Forall_insert_by_name.
Qed.

Lemma existsb_insert_by_name (p : string * A -> bool) (e : string * A)
    (l : list (string * A)) :
  existsb p (FS.insert_by_name e l) = p e || existsb p l.
Proof.
  induction l as [|e' l IH]; simpl; [reflexivity|].
  destruct (String.leb (fst e) (fst e')); simpl; [reflexivity|].
  rewrite IH. destruct (p e), (p e'); reflexivity.
Qed.

Lemma existsb_sort_by_name (p : string * A -> bool) (l : list (string * A)) :
  existsb p (FS.sort_by_name l) = existsb p l.
Proof.
  induction l as [|e l IH]; simpl; [reflexivity|].
  now rewrite existsb_insert_by_name, IH.
Qed.
End Sorting.

Section WithEnv.
Context {E : Env}.

Lemma walk_directory fs name wr es path s :
  FS.walk (walk_manifest fs) name (Directory wr es) path s
  = FS.walk_entries path (map (walker fs) (FS.sort_by_name es)) s.
Proof.
  simpl. f_equal. now apply (sort_by_name_map (walker fs)).
Qed.

Lemma walk_file fs name content path s :
  FS.walk (walk_manifest fs) name (File content) path s
  = if String.eqb name "manifest.json" then
      match directory_resolve_error fs (Dir path) with
      | Some err => (s, Some (Wrapped err (cannot_obtain "dir" (Dir path))))
      | None => (s ++ [dirReference (Dir path)], Some SkipDir)
      end
    else (s, None).
Proof. simpl. destruct (String.eqb name "manifest.json"); reflexivity. Qed.

Lemma walk_entries_quiet fs path l s :
  Forall (quiet fs) l -> FS.walk_entries path (map (walker fs) l) s = (s, None).
Proof.
  induction 1 as [|e l He Hl IH]; simpl; [reflexivity|].
  now rewrite He.
Qed.

Lemma existsb_false_Forall {A} (p : A -> bool) (l : list A) :
  existsb p l = false -> Forall (fun x => p x = false) l.
Proof.
  induction l as [|x l IH]; simpl; [constructor|].
  intros [Hx Hl]%orb_false_iff. constructor; auto.
Qed.

Lemma forallb_true_Forall {A} (p : A -> bool) (l : list A) :
  forallb p l = true -> Forall (fun x => p x = true) l.
Proof.
  induction l as [|x l IH]; simpl; [constructor|].
  intros [Hx Hl]%andb_true_iff. constructor; auto.
Qed.

Lemma Forall_and3 {A} (P Q R : A -> Prop) (l : list A) :
  Forall P l -> Forall Q l -> Forall R l -> Forall (fun x => P x /\ Q x /\ R x) l.
Proof.
  induction 1 as [|x l Hx Hl IH]; intros HQ HR; [constructor|].
  inversion HQ; inversion HR; subst. constructor; auto.
Qed.

Lemma marker_free_quiet fs (n : node) :
  forall name, marker_free n = true -> is_marker (name, n) = false ->
               quiet fs (name, n).
Proof.
  induction n as [content|wr es IH] using node_nested_ind;
    intros name Hfree Hmarker path s; simpl.
  - unfold is_marker in Hmarker. simpl in Hmarker. now rewrite Hmarker.
  - change (FS.walk (walk_manifest fs) name (Directory wr es) path s = (s, None)).
    rewrite walk_directory. apply walk_entries_quiet.
    apply Forall_sort_by_name. simpl in Hfree.
    apply andb_true_iff in Hfree as [Hno Hchildren].
    apply negb_true_iff, existsb_false_Forall in Hno.
    apply forallb_true_Forall in Hchildren.
    pose proof (Forall_and3 _ _ _ _ IH Hno Hchildren) as Hall.
    eapply Forall_impl; [exact Hall|]. intros [nm child] (H1 & H2 & H3). simpl in *.
    now apply H1.
Qed.

Lemma marker_free_marker_dirs (n : node) :
  forall path, marker_free n = true -> marker_dirs n path = [].
Proof.
  induction n as [content|wr es IH] using node_nested_ind; intros path Hfree;
    [reflexivity|].
  simpl in *. apply andb_true_iff in Hfree as [Hno Hchildren].
  apply negb_true_iff in Hno. rewrite Hno. simpl.
  rewrite (sort_by_name_map (fun e => (fst e, marker_dirs (snd e)))) by reflexivity.
  apply forallb_true_Forall in Hchildren.
  assert (Hall : Forall (fun e => forall p, marker_dirs (snd e) p = [])
                   (FS.sort_by_name es)).
  { apply Forall_sort_by_name.
    rewrite Forall_forall in IH, Hchildren |- *. intros e He p. apply IH; auto. }
  induction Hall as [|e l He Hl IHl]; simpl; [reflexivity|].
  now rewrite He, IHl.
Qed.

Lemma marker_free_concat path (l : list (string * node)) :
  Forall (fun e => marker_free (snd e) = true) l ->
  concat (map (fun e => marker_dirs (snd e) (Join2 path (fst e))) l) = [].
Proof.
  induction 1 as [|e l He Hl IHl]; simpl; [reflexivity|].
  now rewrite (marker_free_marker_dirs _ _ He), IHl.
Qed.

(** In a directory with a marker whose other entries are quiet, the
    walk reports the directory and skips what is left of it. *)
Lemma walk_entries_marker fs path l s :
  (forall p, directory_resolve_error fs p = None) ->
  has_marker l = true ->
  Forall (fun e => is_marker e = false -> quiet fs e) l ->
  FS.walk_entries path (map (walker fs) l) s
  = (s ++ [dirReference (reported path)], Some SkipDir).
Proof.
  intros Hres Hhas Hl. induction Hl as [|[name child] l He Hl IH]; [discriminate|].
  simpl. destruct (is_marker (name, child)) eqn:Hm.
  - unfold is_marker in Hm. simpl in Hm. apply andb_true_iff in Hm as [Hfile Hname].
    destruct child as [content|]; [|discriminate].
    apply String.eqb_eq in Hname. subst name.
    rewrite walk_file, Hres. reflexivity.
  - rewrite (He eq_refl). simpl in Hhas. unfold has_marker in IH.
    rewrite Hm in Hhas. now apply IH.
Qed.

Lemma walk_entries_collects fs path l s :
  Forall (collects fs) l ->
  FS.walk_entries path (map (walker fs) l) s
  = (s ++ map dirReference
            (concat (map (fun e => marker_dirs (snd e) (Join2 path (fst e))) l)),
     None).
Proof.
  intros Hl. revert s. induction Hl as [|e l He Hl IH]; intros s; simpl.
  - now rewrite app_nil_r.
  - destruct (He (Join2 path (fst e)) s) as (st & -> & Hst).
    rewrite map_app, app_assoc.
    destruct Hst as [->|[-> ->]]; simpl; apply IH.
Qed.

Lemma nested_free_collects fs (n : node) :
  (forall p, directory_resolve_error fs p = None) ->
  forall name, nested_free n = true ->
               IsDir n = true \/ is_marker (name, n) = false ->
               collects fs (name, n).
Proof.
  intros Hres.
  induction n as [content|wr es IH] using node_nested_ind;
    intros name Hnested Hkind path s; simpl.
  - destruct Hkind as [Hdir|Hm]; [discriminate|]. unfold is_marker in Hm.
    simpl in Hm. rewrite Hm. exists None. rewrite app_nil_r. auto.
  - change (exists st,
               FS.walk (walk_manifest fs) name (Directory wr es) path s
               = (s ++ map dirReference (marker_dirs (Directory wr es) path), st)
               /\ (st = None \/ (st = Some SkipDir /\ true = true))).
    rewrite walk_directory. simpl in Hnested |- *.
    rewrite (sort_by_name_map (fun e => (fst e, marker_dirs (snd e)))) by reflexivity.
    rewrite map_map. simpl.
    destruct (has_marker es) eqn:Hhas.
    + apply forallb_true_Forall in Hnested.
      assert (Hquiet : Forall (fun e => is_marker e = false -> quiet fs e)
                         (FS.sort_by_name es)).
      { apply Forall_sort_by_name. eapply Forall_impl; [exact Hnested|].
        intros [nm child] Hfree Hm. now apply marker_free_quiet. }
      assert (Hnone : concat (map (fun e => marker_dirs (snd e) (Join2 path (fst e)))
                                (FS.sort_by_name es)) = []).
      { apply marker_free_concat. now apply Forall_sort_by_name. }
      rewrite Hnone, app_nil_r.
      exists (Some SkipDir). split; [|now right].
      apply walk_entries_marker; [exact Hres| |exact Hquiet].
      unfold has_marker. now rewrite existsb_sort_by_name.
    + exists None. split; [|now left]. simpl.
      apply walk_entries_collects. apply Forall_sort_by_name.
      apply forallb_true_Forall in Hnested.
      apply existsb_false_Forall in Hhas.
      pose proof (Forall_and3 _ _ _ _ IH Hnested Hhas) as Hall.
      eapply Forall_impl; [exact Hall|].
      intros [nm child] (H1 & H2 & H3). simpl in *. apply H1; [exact H2|now right].
Qed.

(** Whatever follows a marker in the listing of a directory has no
    part in the walk. *)
Lemma walk_entries_stops_at_marker fs path l1 e l2 l2' s :
  is_marker e = true ->
  FS.walk_entries path (map (walker fs) (l1 ++ e :: l2)) s
  = FS.walk_entries path (map (walker fs) (l1 ++ e :: l2')) s.
Proof.
  intros Hm. revert s. induction l1 as [|[name child] l1 IH]; intros s; simpl.
  - destruct e as [name child]. unfold is_marker in Hm. simpl in Hm.
    apply andb_true_iff in Hm as [Hfile Hname].
    destruct child as [content|]; [|discriminate]. simpl.
    rewrite Hname.
    destruct (directory_resolve_error fs (Dir (Join2 path name))); reflexivity.
  - destruct (FS.walk (walk_manifest fs) name child (Join2 path name) s)
      as [s' [err|]]; [|apply IH].
    destruct (negb (IsDir child) || negb (is_SkipDir err)); [reflexivity|apply IH].
Qed.

(** X1: in a tree where no directory with a marker file lies beneath
    another one, [imagesToCopyFromDir] returns exactly
    one reference for every directory that directly contains a marker
    file, and nothing else.  In any tree, once the walk of a directory
    reaches its marker file the entries that follow it in the listing
    play no part: two directories whose sorted listings agree up to the
    marker are walked alike. *)
Theorem directory_enumeration :
  (forall (dirPath : string) (w : World) (wr : bool) (es : list (string * node)),
      (forall p, directory_resolve_error (w_fs w) p = None) ->
      FS.Stat (w_fs w) dirPath = inl (Directory wr es) ->
      nested_free (Directory wr es) = true ->
      imagesToCopyFromDir dirPath w
      = Returned (map dirReference (marker_dirs (Directory wr es) dirPath), None) w)
  /\ (forall (fs : node) (name path : string) (wr wr' : bool)
             (es es' l1 l2 l2' : list (string * node)) (e : string * node)
             (s : list ImageReference),
        FS.sort_by_name es = l1 ++ e :: l2 ->
        FS.sort_by_name es' = l1 ++ e :: l2' ->
        is_marker e = true ->
        FS.walk (walk_manifest fs) name (Directory wr es) path s
        = FS.walk (walk_manifest fs) name (Directory wr' es') path s).
Proof.
  split.
  - intros dirPath w wr es Hres Hstat Hnested.
    unfold imagesToCopyFromDir. rewrite bind_unfold. simpl.
    unfold FS.Walk. rewrite Hstat.
    destruct (nested_free_collects (w_fs w) (Directory wr es) Hres (Base dirPath)
                Hnested (or_introl eq_refl) dirPath []) as (st & Hwalk & Hst).
    simpl fst in Hwalk. simpl snd in Hwalk. rewrite Hwalk.
    destruct Hst as [->|[-> _]]; reflexivity.
  - intros fs name path wr wr' es es' l1 l2 l2' e s Hes Hes' Hm.
    rewrite !walk_directory, Hes, Hes'. now apply walk_entries_stops_at_marker.
Qed.

End WithEnv.
End WalkProperties.

(** ** Explicit tag lists *)

Module TagListProperties.
Import GoStrings GoPath GoFacts Sync TagListSpec.

Section WithEnv.
Context {E : Env}.

Lemma log_more_nil w : log_more [] w = w.
Proof. destruct w. unfold log_more, with_log. simpl. now rewrite app_nil_r. Qed.

Lemma log_more_more l1 l2 w : log_more l2 (log_more l1 w) = log_more (l1 ++ l2) w.
Proof. unfold log_more, with_log. simpl. now rewrite app_assoc. Qed.

Lemma tagList_loop imageName registryName tagIns tagList w :
  for_range tagIns (fun tagValue tagList =>
    match tagValue with
    | YString _ | YInt _ | YFloat64 _ =>
        mret (tagList ++ [format_v tagValue])
    | _ =>
        logrus ErrorLevel (repo_fields imageName registryName)
          "Error processing repo, skipping";;
        logrus ErrorLevel []
          "Elements can only be strings if they are of type array, wrong value";;
        mret tagList
    end) tagList w
  = Returned (tagList ++ scalars tagIns)
      (log_more (flat_map (element_log imageName registryName) tagIns) w).
Proof.
  revert tagList w. induction tagIns as [|v tagIns IH]; intros tagList w; simpl.
  - now rewrite app_nil_r, log_more_nil.
  - rewrite bind_unfold.
    destruct v; simpl; rewrite IH; unfold scalars, log_more, with_log; simpl;
      rewrite <- ?app_assoc; reflexivity.
Qed.

Lemma references_loop repoName tagList refs w :
  for_range tagList (fun tag sourceReferences =>
    let source := repoName +:+ ":" +:+ tag in
    match docker_ParseReference source with
    | inr err =>
        logrus ErrorLevel [("tag", source)] "Error processing tag, skipping";;
        logrus ErrorLevel [] ("Error getting image reference: " +:+ Error err);;
        mret sourceReferences
    | inl imageRef => mret (sourceReferences ++ [imageRef])
    end) refs w
  = Returned (refs ++ parsed repoName tagList)
      (log_more (flat_map (tag_log repoName) tagList) w).
Proof.
  revert refs w. induction tagList as [|tag tagList IH]; intros refs w; simpl.
  - now rewrite app_nil_r, log_more_nil.
  - rewrite bind_unfold. unfold parsed, tag_log, parse_tag. simpl.
    destruct (docker_ParseReference (repoName +:+ ":" +:+ tag)) as [ref|err]; simpl.
    + rewrite IH. unfold parsed, parse_tag. now rewrite <- app_assoc.
    + rewrite IH. unfold log_more, with_log. simpl.
      rewrite <- ?app_assoc. reflexivity.
Qed.

Lemma length_parsed repoName tagList :
  length (parsed repoName tagList) = length (valid_tags repoName tagList).
Proof.
  unfold parsed, valid_tags. induction tagList as [|tag tagList IH]; simpl;
    [reflexivity|].
  destruct (parse_tag repoName tag); simpl; [f_equal|]; exact IH.
Qed.

Lemma scalars_all tagIns :
  forallb is_scalar tagIns = true -> scalars tagIns = map format_v tagIns.
Proof.
  unfold scalars. induction tagIns as [|v tagIns IH]; simpl; [reflexivity|].
  intros [Hv Hrest]%andb_true_iff. rewrite Hv. simpl. now rewrite IH.
Qed.

(** C4, as the code has it: an explicit list with at least one scalar
    element resolves, without a query to the registry, to the
    references of its scalar elements that parse, in the order of the
    list; so the resolved sequence is as long as the list has valid
    scalar entries, and when all elements are scalars every element is
    a candidate.  An element of another type is reported in the log and
    skipped, and so is a tag that does not parse; the rest of the list
    is resolved all the same.  The resolved sequence is what the
    descriptor of the image holds.  A list without a scalar element, the
    empty list included, is resolved as an absent selector is, once its
    elements have been reported. *)
Theorem explicit_tag_list :
  forall (registryName imageName : string) (tagIns : list yamlValue)
         (serverCtx : ptr) (w : World),
    let repoName := "//" +:+ Join2 registryName imageName in
    (scalars tagIns <> [] ->
     resolve_tags registryName imageName repoName (YSlice tagIns) serverCtx w
     = Returned (Some (parsed repoName (scalars tagIns)))
         (log_more (flat_map (element_log imageName registryName) tagIns
                    ++ flat_map (tag_log repoName) (scalars tagIns)) w)
     /\ length (parsed repoName (scalars tagIns))
        = length (valid_tags repoName (scalars tagIns))
     /\ (forallb is_scalar tagIns = true -> scalars tagIns = map format_v tagIns)
     /\ (forall (cfg : registrySyncConfig) (ds ds' : list repoDescriptor) (w0 w' : World),
           registry_loop_body registryName cfg serverCtx (imageName, YSlice tagIns) ds w0
           = Returned ds' w' ->
           ds' = match parsed repoName (scalars tagIns) with
                 | [] => ds
                 | refs => ds ++ [{| DirBasePath := ""; TaggedImages := refs;
                                     Context := serverCtx |}]
                 end))
    /\ (scalars tagIns = [] ->
        resolve_tags registryName imageName repoName (YSlice tagIns) serverCtx w
        = resolve_tags registryName imageName repoName YNil serverCtx
            (log_more (flat_map (element_log imageName registryName) tagIns) w)).
Proof.
  intros registryName imageName tagIns serverCtx w repoName. split.
  - intros Hsome.
    assert (Hresolve : forall w,
      resolve_tags registryName imageName repoName (YSlice tagIns) serverCtx w
      = Returned (Some (parsed repoName (scalars tagIns)))
          (log_more (flat_map (element_log imageName registryName) tagIns
                     ++ flat_map (tag_log repoName) (scalars tagIns)) w)).
    { intros w1. unfold resolve_tags, tagList_of, references_of_tagList.
      rewrite bind_unfold, tagList_loop. simpl.
      rewrite bind_unfold, references_loop. simpl.
      destruct (scalars tagIns) as [|tag tagList] eqn:Hscalars; [congruence|].
      simpl. now rewrite log_more_more. }
    split; [apply Hresolve|]. split; [apply length_parsed|].
    split; [apply scalars_all|].
    intros cfg ds ds' w0 w' H. unfold registry_loop_body in H.
    apply bind_Returned in H as (? & w1 & _ & H).
    apply bind_Returned in H as (? & w2 & _ & H).
    fold repoName in H. rewrite bind_unfold, Hresolve in H.
    destruct (parsed repoName (scalars tagIns)) as [|ref refs]; simpl in H.
    + apply bind_Returned in H as (? & w3 & _ & H).
      now apply ret_Returned in H as [<- _].
    + now apply ret_Returned in H as [<- _].
  - intros Hnone. unfold resolve_tags, tagList_of.
    rewrite bind_unfold, tagList_loop, Hnone. reflexivity.
Qed.

End WithEnv.
End TagListProperties.

(** ** Regular expression selectors *)

Module PatternProperties.
Import GoStrings GoPath GoFacts Sync TagListSpec TagListProperties PatternSpec.

Section WithEnv.
Context {E : Env}.

Lemma getImageTags_listed (sysCtx : ptr) (n : Named) (tags : list string) (w : World) :
  docker_GetRepositoryTags (w_heap w !! sysCtx) n = inl tags ->
  getImageTags sysCtx (dockerReference n) w
  = Returned (tags, None)
      (log_more [{| level := InfoLevel; fields := [("image", Reference.Name n)];
                    message := "Getting tags" |}] w).
Proof.
  intros H. unfold getImageTags.
  unfold on_DockerReference, mbind, Go_bind, mret, Go_ret, logrus, peek. simpl.
  unfold id. now rewrite H.
Qed.

(** A pattern that does not compile is logged as skipped, but the body
    of the loop goes on with a nil [tagReg]: as soon as the repository
    lists a tag, filtering panics. *)
Lemma invalid_regex_with_tags_panics
    (registryName imageName repoName pattern : string) (serverCtx : ptr)
    (err : error) (n ref : Named) (tag : string) (tags : list string)
    (refs : list ImageReference) (w : World) :
  regexp_Compile pattern = inr err ->
  docker_ParseReference repoName = inl (dockerReference n) ->
  docker_GetRepositoryTags (w_heap w !! serverCtx) n = inl (tag :: tags) ->
  references_of_tags repoName (tag :: tags) [] = (dockerReference ref :: refs, None) ->
  exists reason w',
    resolve_tags registryName imageName repoName (YString pattern) serverCtx w
    = Panicked reason w'.
Proof.
  intros Hcompile Hparse Htags Hrefs.
  unfold resolve_tags. rewrite Hcompile, Hparse.
  rewrite bind_unfold. unfold skip_repo at 1. rewrite bind_unfold. simpl.
  rewrite bind_unfold. simpl. rewrite bind_unfold.
  unfold imagesToCopyFromRepo. rewrite bind_unfold.
  erewrite getImageTags_listed by (simpl; exact Htags).
  simpl in Hrefs |- *. unfold mret at 1, Go_ret at 1. rewrite Hrefs.
  rewrite bind_unfold. simpl. rewrite bind_unfold.
  unfold filter_references. simpl. rewrite bind_unfold.
  unfold on_DockerReference. simpl. unfold mret at 1, Go_ret at 1.
  unfold mbind, Go_bind, mret, Go_ret, panic. simpl.
  destruct (Split (Reference.String_ ref) ":" !! 1%nat); eauto.
Qed.

Lemma plain_tagged_Split (n : Named) (t : string) :
  plain_tagged (dockerReference n) = true -> named_tag n = Some t ->
  Split (Reference.String_ n) ":" !! 1%nat = Some t.
Proof.
  unfold plain_tagged, Reference.String_. intros H Ht. rewrite Ht in H |- *.
  apply andb_true_iff in H as [[Hname Htag]%andb_true_iff Hdigest].
  destruct (named_digest n); [discriminate|].
  change (":" +:+ t) with (String ":" t). simpl (String ":" t +:+ "").
  rewrite GoStringsFacts.append_empty, (GoStringsFacts.Split_app _ _ _ Hname).
  now rewrite (GoStringsFacts.Split_lacks _ _ Htag).
Qed.

(** X2: where no registry host has a port, the filter keeps exactly
    the references whose tag matches, in their order, and leaves the
    world as it is. *)
Lemma filter_references_by_tag (re : Regexp) (refs : list ImageReference) (w : World) :
  forallb plain_tagged refs = true ->
  filter_references (Some re) refs w = Returned (List.filter (tag_matches re) refs) w.
Proof.
  unfold filter_references.
  set (body := fun (sReference : ImageReference) (sourceReferences : list ImageReference) =>
    str ← on_DockerReference sReference Reference.String_;
    match Split str ":"%char !! 1%nat with
    | None => panic index_out_of_range
    | Some tag =>
        Match (Some re) tag ≫= fun matched : bool =>
          if matched then mret (sourceReferences ++ [sReference])
          else mret sourceReferences
    end).
  assert (Hstep : forall r acc w,
    plain_tagged r = true ->
    body r acc w = Returned (acc ++ List.filter (tag_matches re) [r]) w).
  { intros [n|path] acc w0 Hr; [|discriminate].
    destruct (named_tag n) as [t|] eqn:Ht.
    2: { unfold plain_tagged in Hr. rewrite Ht in Hr. now rewrite andb_false_r in Hr. }
    unfold body, on_DockerReference, Match, mbind, Go_bind, mret, Go_ret. simpl.
    rewrite (plain_tagged_Split n t Hr Ht), Ht.
    destruct (Regexp_Match re t); [reflexivity|now rewrite app_nil_r]. }
  enough (Hloop : forall acc w,
    forallb plain_tagged refs = true ->
    for_range refs body acc w = Returned (acc ++ List.filter (tag_matches re) refs) w)
    by apply (Hloop []).
  induction refs as [|r refs IH]; intros acc w0 Hall.
  - simpl. now rewrite app_nil_r.
  - simpl in Hall. apply andb_true_iff in Hall as [Hr Hrest].
    change (for_range (r :: refs) body acc w0)
      with ((body r acc ≫= for_range refs body) w0).
    rewrite bind_unfold, (Hstep r acc w0 Hr), (IH _ _ Hrest), <- app_assoc.
    simpl. now destruct (tag_matches re r).
Qed.

End WithEnv.
End PatternProperties.

(** ** Loops *)

Module LoopFacts.
Import GoFacts.

(** A property of the loop state that every turn of the body keeps
    holds when the loop is left. *)
Lemma for_range_invariant {A S} (P : S -> Prop) (l : list A) (body : A -> S -> Go S) :
  (forall x s w s' w', P s -> body x s w = Returned s' w' -> P s') ->
  forall s w s' w', P s -> for_range l body s w = Returned s' w' -> P s'.
Proof.
  intros Hbody. induction l as [|x l IH]; intros s w s' w' Hs H; simpl in H.
  - now apply ret_Returned in H as [<- _].
  - apply bind_Returned in H as (s1 & w1 & H1 & H). eauto.
Qed.

(** The same for a loop whose body may return, when in fact no turn
    does. *)
Lemma for_range_return_invariant {A S T} (P : S -> Prop) (l : list A)
    (body : A -> S -> Go (S + T)) :
  (forall x s w r w', P s -> body x s w = Returned r w' -> exists s', r = inl s' /\ P s') ->
  forall s w r w',
    P s -> for_range_return l body s w = Returned r w' -> exists s', r = inl s' /\ P s'.
Proof.
  intros Hbody. induction l as [|x l IH]; intros s w r w' Hs H; simpl in H.
  - apply ret_Returned in H as [<- _]. eauto.
  - apply bind_Returned in H as (o & w1 & H1 & H).
    destruct (Hbody _ _ _ _ _ Hs H1) as (s1 & -> & Hs1). eauto.
Qed.

End LoopFacts.

(** ** The run of the command *)

Module RunProperties.
Import GoStrings GoPath GoFacts Sync SyncProperties TagListSpec RunSpec.

Section WithEnv.
Context {E : Env}.

(** A turn of the copy loop that does not return has counted one
    image. *)
Lemma copy_loop_body_counts opts destination_ options srcRepo ref n w n' w' :
  copy_loop_body opts destination_ options srcRepo ref n w = Returned (inl n') w' ->
  n' = Datatypes.S n.
Proof.
  unfold copy_loop_body. intros H.
  apply bind_Returned in H as ([destRef|err] & w1 & _ & H).
  - apply bind_Returned in H as (? & w2 & _ & H).
    apply bind_Returned in H as ([err|] & w3 & _ & H);
      apply ret_Returned in H as [[=] _]; congruence.
  - apply ret_Returned in H as [[=] _].
Qed.

Lemma copy_loop_counts opts destination_ options srcRepo refs n w n' w' :
  for_range_return refs (copy_loop_body opts destination_ options srcRepo) n w
  = Returned (inl n') w' ->
  n' = n + length refs.
Proof.
  revert n w. induction refs as [|ref refs IH]; intros n w H; simpl in H.
  - apply ret_Returned in H as [[= <-] _]. simpl. lia.
  - apply bind_Returned in H as ([n1|err] & w1 & Hbody & H).
    + apply copy_loop_body_counts in Hbody as ->. apply IH in H. simpl. lia.
    + apply ret_Returned in H as [[=] _].
Qed.

Lemma repo_loop_counts opts destination_ destinationCtx srcRepoList n w n' w' :
  for_range_return srcRepoList (fun srcRepo imagesNumber =>
    let options :=
      {| RemoveSignatures := removeSignatures opts;
         SignBy := signByFingerprint opts;
         SourceCtx := Context srcRepo;
         DestinationCtx := destinationCtx |} in
    for_range_return (TaggedImages srcRepo)
      (copy_loop_body opts destination_ options srcRepo)
      imagesNumber) n w
  = Returned (inl n') w' ->
  n' = n + planned_images srcRepoList.
Proof.
  revert n w. induction srcRepoList as [|d ds IH]; intros n w H; simpl in H.
  - apply ret_Returned in H as [[= <-] _]. unfold planned_images. simpl. lia.
  - apply bind_Returned in H as ([n1|err] & w1 & Hbody & H).
    + apply copy_loop_counts in Hbody as ->. apply IH in H.
      unfold planned_images in *. simpl. lia.
    + apply ret_Returned in H as [[=] _].
Qed.

Lemma all_copied_app opts destination_ destinationCtx copies1 copies2 w w1 w2 :
  all_copied opts destination_ destinationCtx copies1 w w1 ->
  all_copied opts destination_ destinationCtx copies2 w1 w2 ->
  all_copied opts destination_ destinationCtx (copies1 ++ copies2) w w2.
Proof.
  revert w. induction copies1 as [|[srcRepo ref] copies1 IH]; intros w H1 H2.
  - simpl in H1. now subst w1.
  - destruct H1 as (destRef & w0 & fs' & Hdest & Hcopy & H1).
    exists destRef, w0, fs'. split; [exact Hdest|]. split; [exact Hcopy|].
    now apply IH.
Qed.

(** A loop over the images of a descriptor that does not return has
    copied each of them. *)
Lemma copy_loop_copies opts destination_ destinationCtx srcRepo refs n w n' w' :
  for_range_return refs
    (copy_loop_body opts destination_
       {| RemoveSignatures := removeSignatures opts;
          SignBy := signByFingerprint opts;
          SourceCtx := Context srcRepo;
          DestinationCtx := destinationCtx |} srcRepo) n w
  = Returned (inl n') w' ->
  all_copied opts destination_ destinationCtx (map (pair srcRepo) refs) w w'.
Proof.
  revert n w. induction refs as [|ref refs IH]; intros n w H; simpl in H.
  - now apply ret_Returned in H as [_ ->].
  - apply bind_Returned in H as ([n1|err] & w1 & Hbody & H);
      [|apply ret_Returned in H as [[=] _]].
    unfold copy_loop_body in Hbody.
    apply bind_Returned in Hbody as ([destRef|err] & w2 & Hdest & Hbody);
      [|apply ret_Returned in Hbody as [[=] _]].
    apply bind_Returned in Hbody as ([] & w3 & Hlog & Hbody).
    apply bind_Returned in Hbody as (err & w4 & Hcopy & Hbody).
    unfold logrus in Hlog. injection Hlog as <-.
    unfold copyImage in Hcopy. simpl in Hcopy.
    destruct (copy_Image destRef ref _ (w_heap w2) (w_fs w2)) as [err' fs'] eqn:Himage.
    injection Hcopy as -> <-.
    destruct err as [err|]; apply ret_Returned in Hbody as [[=] <-].
    simpl. exists destRef, w2, fs'. split; [exact Hdest|]. split; [exact Himage|].
    exact (IH _ _ H).
Qed.

Lemma repo_loop_copies opts destination_ destinationCtx srcRepoList n w n' w' :
  for_range_return srcRepoList (fun srcRepo imagesNumber =>
    let options :=
      {| RemoveSignatures := removeSignatures opts;
         SignBy := signByFingerprint opts;
         SourceCtx := Context srcRepo;
         DestinationCtx := destinationCtx |} in
    for_range_return (TaggedImages srcRepo)
      (copy_loop_body opts destination_ options srcRepo)
      imagesNumber) n w
  = Returned (inl n') w' ->
  all_copied opts destination_ destinationCtx (planned_copies srcRepoList) w w'.
Proof.
  revert n w. induction srcRepoList as [|d ds IH]; intros n w H; simpl in H.
  - now apply ret_Returned in H as [_ ->].
  - apply bind_Returned in H as ([n1|err] & w1 & Hbody & H);
      [|apply ret_Returned in H as [[=] _]].
    unfold planned_copies. simpl. apply all_copied_app with (w1 := w1).
    + exact (copy_loop_copies _ _ _ _ _ _ _ _ _ Hbody).
    + exact (IH _ _ H).
Qed.

Lemma planned_copies_length srcRepoList :
  length (planned_copies srcRepoList) = planned_images srcRepoList.
Proof.
  unfold planned_copies, planned_images.
  induction srcRepoList as [|d ds IH]; simpl; [reflexivity|].
  now rewrite length_app, length_map, IH.
Qed.

(** X3: [run] refuses an invocation before it plans, logs or writes
    anything.  With other than two arguments it returns the usage error,
    whatever the options are; with a trust policy that cannot be loaded,
    the wrapped error of the policy; with a destination transport other
    than docker and dir, the error that names it, or that says that one
    must be given; and from dir to dir, the advice to use rsync.  Each
    time the world is left as it was. *)
Theorem run_refuses_invalid_invocation :
  forall (opts : syncOptions) (w : World),
    (forall args : list string,
        length args <> 2 ->
        run opts args w
        = Returned (Some (errorShouldDisplayUsage
                            (ErrorString "Exactly two arguments expected"))) w)
    /\ (forall (sourceArg destination_ : string) (err : error),
          getPolicyContext = Some err ->
          run opts [sourceArg; destination_] w
          = Returned (Some (Wrapped err "Error loading trust policy")) w)
    /\ (forall sourceArg destination_ : string,
          getPolicyContext = None ->
          contains (source opts) ["docker"; "dir"; "yaml"] = true ->
          contains (destination opts) ["docker"; "dir"] = false ->
          run opts [sourceArg; destination_] w
          = Returned
              (Some (ErrorString
                       (if String.eqb (destination opts) ""
                        then "A destination transport must be specified"
                        else quoted (destination opts)
                             +:+ " is not a valid destination transport")))
              w)
    /\ (forall sourceArg destination_ : string,
          getPolicyContext = None ->
          source opts = "dir" -> destination opts = "dir" ->
          run opts [sourceArg; destination_] w
          = Returned
              (Some (ErrorString
                 "sync from 'dir' to 'dir' not implemented, consider using rsync instead"))
              w).
Proof.
  intros opts w. split; [|split; [|split]].
  - intros [|a [|b [|c args]]] Hlen; try reflexivity. now contradict Hlen.
  - intros sourceArg destination_ err Hpol. unfold run. now rewrite Hpol.
  - intros sourceArg destination_ Hpol Hsrc Hdst. unfold run.
    rewrite Hpol, Hsrc, Hdst, !length_zero_eqb.
    assert (Hs : String.eqb (source opts) "" = false).
    { destruct (String.eqb (source opts) "") eqn:Hs; [|reflexivity].
      apply String.eqb_eq in Hs. rewrite Hs in Hsrc. discriminate. }
    rewrite Hs. simpl. now destruct (String.eqb (destination opts) "").
  - intros sourceArg destination_ Hpol Hsrc Hdst. unfold run.
    now rewrite Hpol, Hsrc, Hdst.
Qed.

(** X4: when [run] returns no error, every planned image was copied.
    The plan that [imagesToCopy] returned came without an error, and from
    the world in which the destination context was allocated the images
    of the plan were gone through in order, descriptor by descriptor:
    for each of them [destinationReference] gave a destination,
    [copy.Image] was given the image, that destination, the context of
    the descriptor and the destination context, and returned no error,
    and the next image started from the file system that this copy left.
    The world of the return is the world after the last copy with one
    more log entry, which counts as synced every image of every
    descriptor of the plan; that number is the number of the copies. *)
Theorem run_success_counts_images :
  forall (opts : syncOptions) (sourceArg destination_ : string) (w w' : World),
    run opts [sourceArg; destination_] w = Returned None w' ->
    exists (c d : SystemContext) (srcRepoList : list repoDescriptor) (w1 w2 : World),
      srcImage_newSystemContext = inl c
      /\ imagesToCopy sourceArg (source opts) (length (w_heap w))
           (with_heap (w_heap w ++ [c]) w)
         = Returned (srcRepoList, None) w1
      /\ destImage_newSystemContext = inl d
      /\ all_copied opts destination_ (length (w_heap w1)) (planned_copies srcRepoList)
           (with_heap (w_heap w1 ++ [d]) w1) w2
      /\ length (planned_copies srcRepoList) = planned_images srcRepoList
      /\ w' = log_more [synced (planned_images srcRepoList) (length srcRepoList)] w2
      /\ last (w_log w')
         = Some (synced (planned_images srcRepoList) (length srcRepoList)).
Proof.
  intros opts sourceArg destination_ w w' H. unfold run in H.
  destruct getPolicyContext; [apply ret_Returned in H as [[=] _]|].
  destruct (Nat.eqb (String.length (source opts)) 0);
    [apply ret_Returned in H as [[=] _]|].
  destruct (negb (contains (source opts) ["docker"; "dir"; "yaml"]));
    [apply ret_Returned in H as [[=] _]|].
  destruct (Nat.eqb (String.length (destination opts)) 0);
    [apply ret_Returned in H as [[=] _]|].
  destruct (negb (contains (destination opts) ["docker"; "dir"]));
    [apply ret_Returned in H as [[=] _]|].
  destruct (String.eqb (source opts) (destination opts) && String.eqb (source opts) "dir");
    [apply ret_Returned in H as [[=] _]|].
  destruct srcImage_newSystemContext as [c|err];
    [|apply ret_Returned in H as [[=] _]].
  apply bind_Returned in H as (p & w0 & Halloc & H).
  unfold alloc in Halloc. injection Halloc as <- <-.
  apply bind_Returned in H as ([srcRepoList [err|]] & w1 & Hplan & H);
    [apply ret_Returned in H as [[=] _]|].
  destruct destImage_newSystemContext as [d|err];
    [|apply ret_Returned in H as [[=] _]].
  apply bind_Returned in H as (q & w2 & Halloc & H).
  unfold alloc in Halloc. injection Halloc as <- <-.
  apply bind_Returned in H as ([n|err] & w3 & Hloop & H);
    [|apply ret_Returned in H as [[=] _]].
  pose proof (repo_loop_copies _ _ _ _ _ _ _ _ Hloop) as Hcopies.
  apply repo_loop_counts in Hloop as ->.
  apply bind_Returned in H as (? & w4 & Hlog & H).
  apply ret_Returned in H as [_ ->].
  unfold logrus in Hlog. injection Hlog as _ Hw.
  exists c, d, srcRepoList, w1, w3.
  split; [reflexivity|]. split; [exact Hplan|]. split; [reflexivity|].
  split; [exact Hcopies|]. split; [apply planned_copies_length|].
  split; [now rewrite <- Hw|].
  rewrite <- Hw. unfold with_log. cbn [w_log]. apply last_snoc.
Qed.

(** A loop that has gone through its first part without returning goes
    on with the rest. *)
Lemma for_range_return_goes_on {A S T} (l1 l2 : list A) (body : A -> S -> Go (S + T))
    (s s1 : S) (w w1 : World) :
  for_range_return l1 body s w = Returned (inl s1) w1 ->
  for_range_return (l1 ++ l2) body s w = for_range_return l2 body s1 w1.
Proof.
  revert s w. induction l1 as [|x l1 IH]; intros s w H; simpl in H |- *.
  - now apply ret_Returned in H as [[= <-] <-].
  - apply bind_Returned in H as ([s'|t] & w' & Hbody & H).
    + rewrite bind_unfold, Hbody. now apply IH.
    + apply ret_Returned in H as [[=] _].
Qed.

(** X5: a copy that fails ends the loop over the images of a
    descriptor.  When the images before it have been copied and counted
    and the destination of an image has been obtained, an error of
    [copy.Image] for that image is returned wrapped with the name of the
    image; the images after it are not attempted, whatever they are,
    and the file system is left as the failed copy left it. *)
Theorem copy_failure_ends_the_loop :
  forall (opts : syncOptions) (destination_ : string) (options : copyOptions)
         (srcRepo : repoDescriptor) (copied rest : list ImageReference)
         (ref destRef : ImageReference) (n n1 : nat) (w w1 w2 : World)
         (err : error) (fs' : node),
    for_range_return copied (copy_loop_body opts destination_ options srcRepo) n w
    = Returned (inl n1) w1 ->
    destinationReference (Join2 destination_ (destSuffix_of opts ref srcRepo))
      (destination opts) w1
    = Returned (inl destRef) w2 ->
    copy_Image destRef ref options (w_heap w2) (w_fs w2) = (Some err, fs') ->
    exists w',
      for_range_return (copied ++ ref :: rest)
        (copy_loop_body opts destination_ options srcRepo) n w
      = Returned (inr (Wrapped err ("Error copying tag " +:+ quoted (ImageName ref)))) w'
      /\ w_fs w' = fs'
      /\ w_heap w' = w_heap w2
      /\ n1 = n + length copied.
Proof.
  intros opts destination_ options srcRepo copied rest ref destRef n n1 w w1 w2 err fs'
    Hcopied Hdest Hcopy.
  rewrite (for_range_return_goes_on _ _ _ _ _ _ _ Hcopied).
  cbn [for_range_return]. rewrite bind_unfold. unfold copy_loop_body at 1.
  rewrite bind_unfold, Hdest, bind_unfold. simpl. rewrite bind_unfold.
  unfold copyImage. simpl. rewrite Hcopy. simpl.
  eexists. split; [reflexivity|]. split; [reflexivity|]. split; [reflexivity|].
  now apply copy_loop_counts in Hcopied.
Qed.

End WithEnv.
End RunProperties.

(** ** What a plan holds *)

Module PlanProperties.
Import GoStrings GoPath GoFacts LoopFacts Sync SyncFrame SyncProperties ContextProperties.
Import Markers WalkSpec WalkProperties TagListSpec TagListProperties PlanSpec.

#[global] Instance grows_preorder : PreOrder grows.
Proof.
  split.
  - intros w. split; [reflexivity|]. exists []. now rewrite app_nil_r.
  - intros w1 w2 w3 [Hf1 [m1 Hh1]] [Hf2 [m2 Hh2]]. split; [congruence|].
    exists (m1 ++ m2). now rewrite Hh2, Hh1, app_assoc.
Qed.

Lemma only_logs_grows w w' : only_logs w w' -> grows w w'.
Proof. intros [Hh Hf]. split; [exact Hf|]. exists []. now rewrite app_nil_r. Qed.

Section WithEnv.
Context {E : Env}.

(** [docker.ParseReference] gives references of the docker transport. *)
Lemma docker_ParseReference_docker refString ref :
  docker_ParseReference refString = inl ref -> is_docker ref = true.
Proof.
  unfold docker_ParseReference.
  destruct (negb (HasPrefix refString "//")); [discriminate|].
  destruct (reference_ParseNormalizedNamed (TrimPrefix refString "//")) as [n|];
    [|discriminate].
  unfold Reference.NewReference.
  destruct (Reference.IsNameOnly (Reference.TagNameOnly n)); [discriminate|].
  destruct (named_tag (Reference.TagNameOnly n)), (named_digest (Reference.TagNameOnly n));
    try discriminate; now intros [= <-].
Qed.

Lemma forallb_snoc {A} (p : A -> bool) (l : list A) (x : A) :
  forallb p (l ++ [x]) = forallb p l && p x.
Proof. rewrite forallb_app. simpl. now rewrite andb_true_r. Qed.

Lemma references_of_tags_docker repoName tags acc refs err :
  forallb is_docker acc = true ->
  references_of_tags repoName tags acc = (refs, err) ->
  forallb is_docker refs = true.
Proof.
  revert acc. induction tags as [|tag tags IH]; intros acc Hacc H; simpl in H.
  - now injection H as <- _.
  - destruct (docker_ParseReference (repoName +:+ ":" +:+ tag)) as [ref|e] eqn:Hparse.
    + apply (IH (acc ++ [ref])); [|exact H].
      rewrite forallb_snoc, Hacc. apply docker_ParseReference_docker in Hparse.
      now rewrite Hparse.
    + now injection H as <- _.
Qed.

Lemma imagesToCopyFromRepo_docker repoReference repoName sourceCtx w refs err w' :
  imagesToCopyFromRepo repoReference repoName sourceCtx w = Returned (refs, err) w' ->
  forallb is_docker refs = true.
Proof.
  unfold imagesToCopyFromRepo. intros H.
  apply bind_Returned in H as ([tags [e|]] & w1 & _ & H).
  - now apply ret_Returned in H as [[= <- _] _].
  - apply ret_Returned in H as [H _].
    now apply (references_of_tags_docker _ _ []) in H.
Qed.

Lemma parsed_docker repoName tagList : forallb is_docker (parsed repoName tagList) = true.
Proof.
  unfold parsed. induction tagList as [|tag tagList IH]; [reflexivity|].
  change (omap (parse_tag repoName) (tag :: tagList))
    with (match parse_tag repoName tag with
          | Some y => y :: omap (parse_tag repoName) tagList
          | None => omap (parse_tag repoName) tagList
          end).
  unfold parse_tag at 1.
  destruct (docker_ParseReference (repoName +:+ ":" +:+ tag)) as [ref|e] eqn:Hparse;
    [|exact IH].
  cbn [forallb]. rewrite IH. apply docker_ParseReference_docker in Hparse.
  now rewrite Hparse.
Qed.

Lemma filter_references_docker tagReg all refs w w' :
  filter_references tagReg all w = Returned refs w' ->
  forallb is_docker refs = true.
Proof.
  unfold filter_references.
  apply (for_range_invariant (fun s => forallb is_docker s = true)); [|reflexivity].
  intros r s w0 s' w0' Hs H.
  apply bind_Returned in H as (str & w1 & Hstr & H).
  destruct r as [n|path]; [|discriminate].
  destruct (Split str ":" !! 1%nat); [|discriminate].
  apply bind_Returned in H as ([|] & w2 & _ & H);
    apply ret_Returned in H as [<- _]; [|exact Hs].
  now rewrite forallb_snoc, Hs.
Qed.

Lemma resolve_tags_docker registryName imageName repoName tags serverCtx w refs w' :
  resolve_tags registryName imageName repoName tags serverCtx w
  = Returned (Some refs) w' ->
  forallb is_docker refs = true.
Proof.
  assert (Hquery : forall w refs w',
    (logrus InfoLevel (repo_fields imageName registryName)
       "Querying registry for image tags";;
     match docker_ParseReference repoName with
     | inr err => skip_repo imageName registryName err;; mret None
     | inl imageRef =>
         '(sourceReferences, err) ← imagesToCopyFromRepo imageRef repoName serverCtx;
         match err with
         | Some err => skip_repo imageName registryName err;; mret None
         | None => mret (Some sourceReferences)
         end
     end) w = Returned (Some refs) w' ->
    forallb is_docker refs = true).
  { intros w0 refs0 w0' H.
    apply bind_Returned in H as (? & w1 & _ & H).
    destruct (docker_ParseReference repoName) as [imageRef|e].
    - apply bind_Returned in H as ([rs [e|]] & w2 & Hrepo & H).
      + apply bind_Returned in H as (? & w3 & _ & H).
        apply ret_Returned in H as [[=] _].
      + apply ret_Returned in H as [[= <-] _].
        now apply imagesToCopyFromRepo_docker in Hrepo.
    - apply bind_Returned in H as (? & w3 & _ & H).
      apply ret_Returned in H as [[=] _]. }
  assert (Hlist : forall tagList w refs w',
    (sourceReferences ← references_of_tagList repoName tagList;
     if Nat.eqb (length tagList) 0 then
       logrus InfoLevel (repo_fields imageName registryName)
         "Querying registry for image tags";;
       match docker_ParseReference repoName with
       | inr err => skip_repo imageName registryName err;; mret None
       | inl imageRef =>
           '(sourceReferences, err) ← imagesToCopyFromRepo imageRef repoName serverCtx;
           match err with
           | Some err => skip_repo imageName registryName err;; mret None
           | None => mret (Some sourceReferences)
           end
       end
     else mret (Some sourceReferences)) w = Returned (Some refs) w' ->
    forallb is_docker refs = true).
  { intros tagList w0 refs0 w0' H.
    apply bind_Returned in H as (rs & w1 & Hrs & H).
    unfold references_of_tagList in Hrs. rewrite references_loop in Hrs.
    injection Hrs as <- _.
    destruct (Nat.eqb (length tagList) 0); [now apply Hquery in H|].
    apply ret_Returned in H as [[= <-] _]. apply parsed_docker. }
  unfold resolve_tags. intros H. destruct tags.
  - apply bind_Returned in H as (tagList & w1 & _ & H). now apply Hlist in H.
  - destruct (regexp_Compile s) as [re|e].
    + apply bind_Returned in H as (? & w1 & _ & H).
      apply bind_Returned in H as (? & w2 & _ & H).
      destruct (docker_ParseReference repoName) as [imageRef|e].
      * apply bind_Returned in H as ([rs [e|]] & w3 & Hrepo & H).
        -- apply bind_Returned in H as (? & w4 & _ & H).
           apply ret_Returned in H as [[=] _].
        -- apply bind_Returned in H as (? & w4 & _ & H).
           apply bind_Returned in H as (rs' & w5 & Hfilter & H).
           apply ret_Returned in H as [[= <-] _].
           now apply filter_references_docker in Hfilter.
      * apply bind_Returned in H as (? & w3 & _ & H).
        apply ret_Returned in H as [[=] _].
    + apply bind_Returned in H as (? & w1 & _ & H).
      apply bind_Returned in H as (? & w2 & _ & H).
      destruct (docker_ParseReference repoName) as [imageRef|e'].
      * apply bind_Returned in H as ([rs [e'|]] & w3 & Hrepo & H).
        -- apply bind_Returned in H as (? & w4 & _ & H).
           apply ret_Returned in H as [[=] _].
        -- apply bind_Returned in H as (? & w4 & _ & H).
           apply bind_Returned in H as (rs' & w5 & Hfilter & H).
           apply ret_Returned in H as [[= <-] _].
           now apply filter_references_docker in Hfilter.
      * apply bind_Returned in H as (? & w3 & _ & H).
        apply ret_Returned in H as [[=] _].
  - apply bind_Returned in H as (? & w1 & _ & H).
    apply bind_Returned in H as (? & w2 & _ & H). apply ret_Returned in H as [[=] _].
  - apply bind_Returned in H as (? & w1 & _ & H).
    apply bind_Returned in H as (? & w2 & _ & H). apply ret_Returned in H as [[=] _].
  - apply bind_Returned in H as (? & w1 & _ & H).
    apply bind_Returned in H as (? & w2 & _ & H). apply ret_Returned in H as [[=] _].
  - apply bind_Returned in H as (? & w1 & _ & H).
    apply bind_Returned in H as (? & w2 & _ & H). apply ret_Returned in H as [[=] _].
  - apply bind_Returned in H as (tagList & w1 & _ & H). now apply Hlist in H.
  - apply bind_Returned in H as (tagList & w1 & _ & H). now apply Hlist in H.
  - apply bind_Returned in H as (? & w1 & _ & H).
    apply bind_Returned in H as (? & w2 & _ & H). apply ret_Returned in H as [[=] _].
Qed.

(** The descriptors built from a manifest are docker descriptors. *)
Lemma registry_loop_body_descriptor registryName cfg p entry ds w ds' w' :
  Forall docker_descriptor ds ->
  registry_loop_body registryName cfg p entry ds w = Returned ds' w' ->
  Forall docker_descriptor ds'.
Proof.
  unfold registry_loop_body. destruct entry as [imageName tags]. intros Hds H.
  apply bind_Returned in H as (? & w1 & _ & H).
  apply bind_Returned in H as (? & w2 & _ & H).
  apply bind_Returned in H as ([refs|] & w3 & Hres & H).
  - destruct (Nat.eqb (length refs) 0) eqn:Hlen.
    + apply bind_Returned in H as (? & w4 & _ & H).
      now apply ret_Returned in H as [<- _].
    + apply ret_Returned in H as [<- _]. apply Forall_app. split; [exact Hds|].
      constructor; [|constructor]. repeat split; simpl.
      * intros ->. discriminate.
      * now apply resolve_tags_docker in Hres.
  - now apply ret_Returned in H as [<- _].
Qed.

Lemma imagesToCopyFromRegistry_descriptors registryName cfg c w ds err w' :
  imagesToCopyFromRegistry registryName cfg c w = Returned (ds, err) w' ->
  Forall docker_descriptor ds.
Proof.
  unfold imagesToCopyFromRegistry. intros H.
  apply bind_Returned in H as (p & w1 & _ & H).
  apply bind_Returned in H as (ds' & w2 & Hloop & H).
  apply ret_Returned in H as [[= <- _] _].
  revert Hloop. apply for_range_invariant; [|constructor].
  intros entry s w0 s' w0' Hs Hbody.
  now apply (registry_loop_body_descriptor _ _ _ _ _ _ _ _ Hs Hbody).
Qed.

Lemma yaml_loop_descriptors p cfg ds w r w' :
  Forall docker_descriptor ds ->
  for_range_return cfg (yaml_loop_body p) ds w = Returned r w' ->
  exists ds', r = inl ds' /\ Forall docker_descriptor ds'.
Proof.
  apply (for_range_return_invariant (Forall docker_descriptor)).
  intros [registryName registryConfig] s w0 r0 w0' Hs H. unfold yaml_loop_body in H.
  destruct (Nat.eqb (length (Images registryConfig)) 0).
  - apply bind_Returned in H as (? & w1 & _ & H).
    apply ret_Returned in H as [<- _]. eauto.
  - apply bind_Returned in H as (c & w1 & _ & H).
    apply bind_Returned in H as ([descs err] & w2 & Hreg & H).
    pose proof (imagesToCopyFromRegistry_descriptors _ _ _ _ _ _ _ Hreg) as Hdescs.
    apply imagesToCopyFromRegistry_Returned in Hreg as (-> & _).
    apply ret_Returned in H as [<- _]. eexists. split; [reflexivity|].
    apply Forall_app. auto.
Qed.

(** The walk adds references of the dir transport only. *)
Lemma walk_entries_dir fs path l s :
  Forall (fun e => forall path s, forallb is_dir s = true ->
                   forallb is_dir (FS.walk (walk_manifest fs) (fst e) (snd e) path s).1
                   = true) l ->
  forallb is_dir s = true ->
  forallb is_dir (FS.walk_entries path (map (walker fs) l) s).1 = true.
Proof.
  intros Hl. revert s. induction Hl as [|[name child] l He Hl IH]; intros s Hs; simpl;
    [exact Hs|].
  specialize (He (Join2 path name) s Hs). simpl in He.
  destruct (FS.walk (walk_manifest fs) name child (Join2 path name) s) as [s' [err|]];
    simpl in He; [|now apply IH].
  destruct (negb (IsDir child) || negb (is_SkipDir err)); [exact He|now apply IH].
Qed.

Lemma walk_dir fs (n : node) :
  forall name path s,
    forallb is_dir s = true ->
    forallb is_dir (FS.walk (walk_manifest fs) name n path s).1 = true.
Proof.
  induction n as [content|wr es IH] using node_nested_ind; intros name path s Hs.
  - rewrite walk_file. destruct (String.eqb name "manifest.json"); [|exact Hs].
    destruct (directory_resolve_error fs (Dir path)); [exact Hs|].
    simpl. now rewrite forallb_snoc, Hs.
  - rewrite walk_directory. apply walk_entries_dir; [|exact Hs].
    apply Forall_sort_by_name. eapply Forall_impl; [exact IH|].
    intros [nm child] H. exact (H nm).
Qed.

Lemma imagesToCopyFromDir_Returned dirPath w refs err w' :
  imagesToCopyFromDir dirPath w = Returned (refs, err) w' ->
  w' = w /\ forallb is_dir refs = true.
Proof.
  unfold imagesToCopyFromDir. rewrite bind_unfold. simpl.
  assert (Hwalk : forallb is_dir
                    (FS.Walk (walk_manifest (w_fs w)) (w_fs w) dirPath []).1 = true).
  { unfold FS.Walk. destruct (FS.Stat (w_fs w) dirPath) as [n|e]; simpl.
    - pose proof (walk_dir (w_fs w) n (Base dirPath) dirPath [] eq_refl) as Hn.
      destruct (FS.walk (walk_manifest (w_fs w)) (Base dirPath) n dirPath [])
        as [s [[]|]]; exact Hn.
    - now destruct e. }
  destruct (FS.Walk (walk_manifest (w_fs w)) (w_fs w) dirPath []) as [s [e|]];
    intros [[= <- _] <-]%ret_Returned; auto.
Qed.

(** What [imagesToCopy] returns, case by case. *)
Lemma imagesToCopy_Returned source_ transport p w ds err w' :
  imagesToCopy source_ transport p w = Returned (ds, err) w' ->
  (err <> None -> ds = [])
  /\ if String.eqb transport "docker" then
       only_logs w w'
       /\ (ds = [] /\ err <> None
           \/ exists refs, ds = [{| DirBasePath := ""; TaggedImages := refs;
                                    Context := p |}]
                /\ refs <> [] /\ forallb is_docker refs = true)
     else if String.eqb transport "dir" then
       w' = w
       /\ (ds = [] /\ err <> None
           \/ exists refs, ds = [{| DirBasePath := source_; TaggedImages := refs;
                                    Context := p |}]
                /\ refs <> [] /\ forallb is_dir refs = true)
     else if String.eqb transport "yaml" then
       grows w w' /\ Forall docker_descriptor ds
     else w' = w /\ ds = [] /\ err = None.
Proof.
  unfold imagesToCopy. intros H.
  destruct (String.eqb transport "docker").
  { destruct (docker_ParseReference ("//" +:+ source_)) as [srcRef|e] eqn:Hparse.
    2: { apply ret_Returned in H as [[= <- <-] <-]. split; [reflexivity|].
         split; [reflexivity|]. left. split; [reflexivity|discriminate]. }
    apply bind_Returned in H as ([imageTagged [e|]] & w1 & Htag & H).
    { apply ret_Returned in H as [[= <- <-] <-]. split; [reflexivity|].
      split; [now apply keeps_isTagSpecified in Htag|].
      left. split; [reflexivity|discriminate]. }
    apply keeps_isTagSpecified in Htag. destruct imageTagged.
    { apply ret_Returned in H as [[= <- <-] <-]. split; [congruence|].
      split; [exact Htag|]. right. eexists. split; [reflexivity|].
      split; [discriminate|]. simpl.
      apply docker_ParseReference_docker in Hparse. now rewrite Hparse. }
    apply bind_Returned in H as ([images [e|]] & w2 & Hrepo & H).
    { apply ret_Returned in H as [[= <- <-] <-]. split; [reflexivity|].
      split; [|left; split; [reflexivity|discriminate]].
      etransitivity; [exact Htag|]. now apply keeps_imagesToCopyFromRepo in Hrepo. }
    pose proof (imagesToCopyFromRepo_docker _ _ _ _ _ _ _ Hrepo) as Hdocker.
    apply keeps_imagesToCopyFromRepo in Hrepo.
    assert (Hlogs : only_logs w w2) by (etransitivity; eassumption).
    destruct (Nat.eqb (length images) 0) eqn:Hlen;
      apply ret_Returned in H as [[= <- <-] <-].
    - split; [reflexivity|]. split; [exact Hlogs|].
      left. split; [reflexivity|discriminate].
    - split; [congruence|]. split; [exact Hlogs|]. right. eexists.
      split; [reflexivity|]. split; [|exact Hdocker]. intros ->. discriminate. }
  destruct (String.eqb transport "dir").
  { apply bind_Returned in H as (w0 & w1 & [= <- <-] & H).
    destruct (FS.Stat (w_fs w) source_) as [n|e].
    2: { apply ret_Returned in H as [[= <- <-] <-]. split; [reflexivity|].
         split; [reflexivity|]. left. split; [reflexivity|discriminate]. }
    apply bind_Returned in H as ([images [e|]] & w2 & Hdir & H);
      apply imagesToCopyFromDir_Returned in Hdir as [-> Hdirs].
    { apply ret_Returned in H as [[= <- <-] <-]. split; [reflexivity|].
      split; [reflexivity|]. left. split; [reflexivity|discriminate]. }
    destruct (Nat.eqb (length images) 0) eqn:Hlen;
      apply ret_Returned in H as [[= <- <-] <-].
    - split; [reflexivity|]. split; [reflexivity|].
      left. split; [reflexivity|discriminate].
    - split; [congruence|]. split; [reflexivity|]. right. eexists.
      split; [reflexivity|]. split; [|exact Hdirs]. intros ->. discriminate. }
  destruct (String.eqb transport "yaml").
  { apply bind_Returned in H as ([cfg [e|]] & w1 & Hcfg & H);
      apply newSourceConfig_Returned in Hcfg as ->.
    { apply ret_Returned in H as [[= <- <-] <-]. split; [reflexivity|].
      split; [reflexivity|constructor]. }
    apply bind_Returned in H as (r & w2 & Hloop & H).
    destruct (yaml_loop_descriptors _ _ _ _ _ _ (List.Forall_nil _) Hloop)
      as (ds' & -> & Hds').
    apply ret_Returned in H as [[= <- <-] <-]. split; [congruence|].
    split; [|exact Hds'].
    revert Hloop. apply keeps_for_range_return; [apply grows_preorder|].
    intros [registryName registryConfig] s w0 r0 w0' Hbody. unfold yaml_loop_body in Hbody.
    destruct (Nat.eqb (length (Images registryConfig)) 0).
    - apply bind_Returned in Hbody as (? & w3 & Hlog & Hbody).
      apply ret_Returned in Hbody as [_ <-].
      apply only_logs_grows. now apply keeps_logrus in Hlog.
    - apply bind_Returned in Hbody as (c & w3 & Hload & Hbody).
      unfold load in Hload. destruct (w_heap w0 !! p); [|discriminate].
      injection Hload as _ <-.
      apply bind_Returned in Hbody as ([descs err'] & w4 & Hreg & Hbody).
      apply imagesToCopyFromRegistry_Returned in Hreg as (-> & Hf & Hh & _).
      apply ret_Returned in Hbody as [_ <-]. split; [exact Hf|]. eauto. }
  apply ret_Returned in H as [[= <- <-] <-]. auto.
Qed.

(** X6: no descriptor returned by [imagesToCopy] is without images; an
    error comes with no descriptor at all; and a docker or dir source
    that is planned without an error gives exactly one descriptor. *)
Theorem planned_descriptors_hold_images :
  forall (source_ transport : string) (p : ptr) (w w' : World)
         (ds : list repoDescriptor) (err : option error),
    imagesToCopy source_ transport p w = Returned (ds, err) w' ->
    Forall (fun d => TaggedImages d <> []) ds
    /\ (err <> None -> ds = [])
    /\ (transport = "docker" \/ transport = "dir" -> err = None -> length ds = 1).
Proof.
  intros source_ transport p w w' ds err H.
  apply imagesToCopy_Returned in H as [Herr H]. split; [|split; [exact Herr|]].
  - destruct (String.eqb transport "docker").
    { destruct H as [_ [[-> _]|(refs & -> & Hne & _)]]; repeat constructor. exact Hne. }
    destruct (String.eqb transport "dir").
    { destruct H as [_ [[-> _]|(refs & -> & Hne & _)]]; repeat constructor. exact Hne. }
    destruct (String.eqb transport "yaml").
    { destruct H as [_ H]. eapply Forall_impl; [exact H|]. now intros d [Hne _]. }
    destruct H as (_ & -> & _). constructor.
  - intros [->| ->] ->; simpl in H;
      destruct H as [_ [[_ Hsome]|(refs & -> & _)]]; try reflexivity; now contradict Hsome.
Qed.

(** X7: the references of a plan are of the transport of the source.
    For a dir source they are dir references and the base path of the
    descriptor is the source; for the other sources they are docker
    references and the descriptor has no base path.  The descriptor of a
    docker or dir source holds the context pointer that was passed in. *)
Theorem planned_references_match_transport :
  forall (source_ transport : string) (p : ptr) (w w' : World)
         (ds : list repoDescriptor) (err : option error),
    imagesToCopy source_ transport p w = Returned (ds, err) w' ->
    forall d, d ∈ ds ->
      if String.eqb transport "dir"
      then DirBasePath d = source_ /\ forallb is_dir (TaggedImages d) = true
           /\ Context d = p
      else DirBasePath d = "" /\ forallb is_docker (TaggedImages d) = true
           /\ (transport = "docker" -> Context d = p).
Proof.
  intros source_ transport p w w' ds err H d Hd.
  apply imagesToCopy_Returned in H as [_ H].
  destruct (String.eqb transport "docker") eqn:Hdocker.
  { apply String.eqb_eq in Hdocker. subst transport. simpl.
    destruct H as [_ [[-> _]|(refs & -> & _ & Hrefs)]];
      [now apply elem_of_nil in Hd|].
    apply list_elem_of_singleton in Hd. subst d. auto. }
  destruct (String.eqb transport "dir").
  { destruct H as [_ [[-> _]|(refs & -> & _ & Hrefs)]];
      [now apply elem_of_nil in Hd|].
    apply list_elem_of_singleton in Hd. subst d. auto. }
  apply String.eqb_neq in Hdocker.
  destruct (String.eqb transport "yaml").
  - destruct H as [_ H]. rewrite Forall_forall in H.
    destruct (H d Hd) as (_ & Hbase & Hrefs).
    split; [exact Hbase|]. split; [exact Hrefs|]. intros ->. now contradict Hdocker.
  - destruct H as (_ & -> & _). now apply elem_of_nil in Hd.
Qed.

(** X8: planning does not write to the file system and does not change
    a context that exists: the heap after planning is the heap before it
    with contexts added at its end.  Only a manifest source adds any, and
    a dir source leaves the whole world, the log included, as it was. *)
Theorem planning_is_read_only :
  forall (source_ transport : string) (p : ptr) (w w' : World)
         (r : list repoDescriptor * option error),
    imagesToCopy source_ transport p w = Returned r w' ->
    w_fs w' = w_fs w
    /\ (exists more, w_heap w' = w_heap w ++ more)
    /\ (transport <> "yaml" -> w_heap w' = w_heap w)
    /\ (transport = "dir" -> w' = w).
Proof.
  intros source_ transport p w w' [ds err] H.
  apply imagesToCopy_Returned in H as [_ H].
  assert (Hsame : w_heap w' = w_heap w -> exists more, w_heap w' = w_heap w ++ more).
  { intros ->. exists []. now rewrite app_nil_r. }
  destruct (String.eqb transport "docker") eqn:Hdocker.
  { apply String.eqb_eq in Hdocker. subst transport. destruct H as [[Hh Hf] _].
    split; [exact Hf|]. split; [auto|]. split; [auto|discriminate]. }
  destruct (String.eqb transport "dir") eqn:Hdir.
  { destruct H as [-> _]. split; [reflexivity|]. split; [auto|]. split; auto. }
  apply String.eqb_neq in Hdir.
  destruct (String.eqb transport "yaml") eqn:Hyaml.
  - apply String.eqb_eq in Hyaml. destruct H as [[Hf Hh] _].
    split; [exact Hf|]. split; [exact Hh|]. split; congruence.
  - destruct H as (-> & _). split; [reflexivity|]. split; [auto|]. split; congruence.
Qed.

(** X9: the plan of a manifest source fails on the manifest only.
    When [imagesToCopy] returns an error for a yaml source, it is the
    error of reading or decoding the manifest, no descriptor is returned
    and the world is as it was: no registry and no repository of a
    manifest that was decoded can make the plan fail. *)
Theorem manifest_plan_fails_on_the_manifest_only :
  forall (source_ : string) (p : ptr) (w w' : World) (ds : list repoDescriptor)
         (err : error),
    imagesToCopy source_ "yaml" p w = Returned (ds, Some err) w' ->
    newSourceConfig source_ w = Returned ([], Some err) w /\ ds = [] /\ w' = w.
Proof.
  intros source_ p w w' ds err H. unfold imagesToCopy in H. simpl in H.
  apply bind_Returned in H as ([cfg [e|]] & w1 & Hcfg & H);
    pose proof (newSourceConfig_Returned _ _ _ _ Hcfg) as ->.
  - apply ret_Returned in H as [[= <- <-] <-].
    assert (Hnil : cfg = []).
    { unfold newSourceConfig in Hcfg. rewrite bind_unfold in Hcfg. simpl in Hcfg.
      destruct (FS.ReadFile (w_fs w) source_) as [content|e'].
      - destruct (match yaml_Unmarshal content with
                  | inl v => Yaml.decode_sourceConfig v
                  | inr err => inr err
                  end);
          apply ret_Returned in Hcfg as [[=] _]; congruence.
      - apply ret_Returned in Hcfg as [[=] _]; congruence. }
    subst cfg. auto.
  - apply bind_Returned in H as (r & w2 & Hloop & H).
    destruct (yaml_loop_descriptors _ _ _ _ _ _ (List.Forall_nil _) Hloop)
      as (ds' & -> & _).
    apply ret_Returned in H as [[=] _].
Qed.

End WithEnv.
End PlanProperties.

(** ** The repositories of a registry *)

Module RegistryProperties.
Import GoStrings GoPath GoStringsFacts GoFacts Sync SyncFrame SyncProperties.
Import ContextSpec ContextProperties TagListSpec TagListProperties RegistrySpec.

Section WithEnv.
Context {E : Env}.

Lemma getImageTags_failed (sysCtx : ptr) (n : Named) (err : error) (w : World) :
  docker_GetRepositoryTags (w_heap w !! sysCtx) n = inr err ->
  fatal_listing_error err ->
  getImageTags sysCtx (dockerReference n) w
  = Returned
      ([], Some (Wrapped err ("Error determining repository tags for image "
                              +:+ Reference.Name n)))
      (log_more [getting_tags n] w).
Proof.
  intros H Hfatal. unfold getImageTags.
  unfold on_DockerReference, mbind, Go_bind, mret, Go_ret, logrus, peek. simpl.
  unfold id. rewrite H. simpl.
  destruct err; try reflexivity. now destruct (Hfatal msg).
Qed.

Lemma references_of_tags_parsed repoName tags acc :
  Forall (fun tag => is_Some (parse_tag repoName tag)) tags ->
  references_of_tags repoName tags acc = (acc ++ parsed repoName tags, None)
  /\ length (parsed repoName tags) = length tags
  /\ Forall2 (fun tag ref => docker_ParseReference (repoName +:+ ":" +:+ tag) = inl ref)
       tags (parsed repoName tags).
Proof.
  intros Htags. revert acc. induction Htags as [|tag tags [ref Href] Htags IH]; intros acc.
  - simpl. rewrite app_nil_r. repeat split. constructor.
  - unfold parsed.
    change (omap (parse_tag repoName) (tag :: tags))
      with (match parse_tag repoName tag with
            | Some y => y :: omap (parse_tag repoName) tags
            | None => omap (parse_tag repoName) tags
            end).
    rewrite Href. fold (parsed repoName tags).
    unfold parse_tag in Href. simpl.
    destruct (docker_ParseReference (repoName +:+ ":" +:+ tag)) as [r|e] eqn:Hparse;
      [|discriminate].
    injection Href as ->.
    destruct (IH (acc ++ [ref])) as (-> & Hlen & Hall).
    rewrite <- app_assoc. repeat split; [now rewrite Hlen|].
    constructor; assumption.
Qed.

Lemma references_of_tags_stops repoName good bad rest err acc :
  Forall (fun tag => is_Some (parse_tag repoName tag)) good ->
  docker_ParseReference (repoName +:+ ":" +:+ bad) = inr err ->
  references_of_tags repoName (good ++ bad :: rest) acc
  = ([], Some (Wrapped err (cannot_obtain "docker" (repoName +:+ ":" +:+ bad)))).
Proof.
  intros Hgood Hbad. revert acc.
  induction Hgood as [|tag good [ref Href] Hgood IH]; intros acc; simpl.
  - now rewrite Hbad.
  - unfold parse_tag in Href.
    destruct (docker_ParseReference (repoName +:+ ":" +:+ tag)); [apply IH|discriminate].
Qed.

(** X10: a docker source that has a tag or a digest is planned as that
    one image, with the context passed in.  The registry is not asked for
    tags: the one entry logged is the tag presence check, which reports
    the source as tagged also when it only has a digest. *)
Theorem tagged_docker_source :
  forall (source_ : string) (nn : Named) (p : ptr) (w : World),
    reference_ParseNormalizedNamed source_ = inl nn ->
    Reference.IsNameOnly nn = false ->
    named_tag nn = None \/ named_digest nn = None ->
    imagesToCopy source_ "docker" p w
    = Returned
        ([{| DirBasePath := ""; TaggedImages := [dockerReference nn]; Context := p |}],
         None)
        (log_more [tag_presence source_ true] w).
Proof.
  intros source_ nn p w Hparse Hname Hone.
  unfold imagesToCopy. simpl. rewrite docker_ParseReference_slashes, Hparse.
  assert (Hsame : Reference.TagNameOnly nn = nn)
    by (unfold Reference.TagNameOnly; now rewrite Hname).
  assert (Hnew : Reference.NewReference nn = inl (dockerReference nn)).
  { unfold Reference.NewReference. rewrite Hname.
    destruct Hone as [-> | ->]; [reflexivity|]. now destruct (named_tag nn). }
  rewrite Hsame, Hnew, bind_unfold. unfold isTagSpecified. rewrite Hparse, Hname.
  reflexivity.
Qed.

(** X11: when the registry lists the tags of a repository,
    [imagesToCopyFromRepo] returns one reference for every tag, in the
    order of the listing, if every tag gives a valid reference: as many
    references as tags.  At the first tag that gives none it returns no
    reference at all, and the error of that tag wrapped; the tags before
    it are not kept. *)
Theorem listed_tags_all_or_nothing :
  forall (n : Named) (repoName : string) (sourceCtx : ptr) (tags : list string)
         (w : World),
    docker_GetRepositoryTags (w_heap w !! sourceCtx) n = inl tags ->
    (Forall (fun tag => is_Some (parse_tag repoName tag)) tags ->
     imagesToCopyFromRepo (dockerReference n) repoName sourceCtx w
     = Returned (parsed repoName tags, None) (log_more [getting_tags n] w)
     /\ length (parsed repoName tags) = length tags
     /\ Forall2 (fun tag ref => docker_ParseReference (repoName +:+ ":" +:+ tag) = inl ref)
          tags (parsed repoName tags))
    /\ (forall (good rest : list string) (bad : string) (err : error),
          tags = good ++ bad :: rest ->
          Forall (fun tag => is_Some (parse_tag repoName tag)) good ->
          docker_ParseReference (repoName +:+ ":" +:+ bad) = inr err ->
          imagesToCopyFromRepo (dockerReference n) repoName sourceCtx w
          = Returned
              ([], Some (Wrapped err (cannot_obtain "docker" (repoName +:+ ":" +:+ bad))))
              (log_more [getting_tags n] w)).
Proof.
  intros n repoName sourceCtx tags w Htags.
  assert (Hrun : imagesToCopyFromRepo (dockerReference n) repoName sourceCtx w
                 = Returned (references_of_tags repoName tags [])
                     (log_more [getting_tags n] w)).
  { unfold imagesToCopyFromRepo. rewrite bind_unfold.
    now rewrite (PatternProperties.getImageTags_listed _ _ _ _ Htags). }
  split.
  - intros Hall. destruct (references_of_tags_parsed repoName tags [] Hall)
      as (Hrefs & Hlen & Hparsed).
    rewrite Hrun, Hrefs. auto.
  - intros good rest bad err -> Hgood Hbad.
    now rewrite Hrun, (references_of_tags_stops _ _ _ _ err).
Qed.

(** X12: an error of the tag listing other than the refusal of the
    credentials is returned by [getImageTags] wrapped with the name of
    the image, with no tags, after the one entry that announces the
    listing; for a docker source without a tag that wrapped error is the
    error of the plan, which has no descriptor. *)
Theorem listing_failure_is_fatal_for_a_repository_source :
  (forall (sysCtx : ptr) (n : Named) (err : error) (w : World),
      docker_GetRepositoryTags (w_heap w !! sysCtx) n = inr err ->
      fatal_listing_error err ->
      getImageTags sysCtx (dockerReference n) w
      = Returned
          ([], Some (Wrapped err ("Error determining repository tags for image "
                                  +:+ Reference.Name n)))
          (log_more [getting_tags n] w))
  /\ (forall (source_ : string) (nn : Named) (err : error) (p : ptr) (w : World),
        reference_ParseNormalizedNamed source_ = inl nn ->
        Reference.IsNameOnly nn = true ->
        docker_GetRepositoryTags (w_heap w !! p) (Reference.TagNameOnly nn) = inr err ->
        fatal_listing_error err ->
        imagesToCopy source_ "docker" p w
        = Returned
            ([], Some (Wrapped err ("Error determining repository tags for image "
                                    +:+ named_name nn)))
            (log_more [tag_presence source_ false;
                       getting_tags (Reference.TagNameOnly nn)] w)).
Proof.
  split; [exact getImageTags_failed|].
  intros source_ nn err p w Hparse Hbare Htags Hfatal.
  unfold imagesToCopy. simpl. rewrite docker_ParseReference_slashes, Hparse.
  assert (Htagged : Reference.TagNameOnly nn =
                    {| named_name := named_name nn; named_tag := Some "latest";
                       named_digest := None |})
    by (unfold Reference.TagNameOnly; now rewrite Hbare).
  rewrite Htagged in *. unfold Reference.NewReference. simpl.
  rewrite bind_unfold. unfold isTagSpecified. rewrite Hparse, Hbare. simpl.
  rewrite bind_unfold. unfold imagesToCopyFromRepo. rewrite bind_unfold.
  rewrite (getImageTags_failed _ _ err) by (simpl; assumption).
  simpl. unfold mret, Go_ret. f_equal.
  unfold log_more, with_log. simpl. now rewrite <- app_assoc.
Qed.

Lemma override_context_runs cfg p c w :
  w_heap w !! p = Some c ->
  override_context cfg p w
  = Returned tt (with_heap (<[p := overridden cfg c]> (w_heap w)) w).
Proof.
  intros Hc. assert (Hp : p < length (w_heap w)) by (eapply lookup_lt_Some; eauto).
  unfold override_context, store, mbind, Go_bind. simpl. rewrite Hc. simpl.
  rewrite list_lookup_insert_eq by exact Hp. simpl.
  rewrite list_insert_insert_eq, list_lookup_insert_eq by exact Hp. simpl.
  rewrite list_insert_insert_eq, list_lookup_insert_eq by exact Hp. simpl.
  rewrite list_insert_insert_eq, list_lookup_insert_eq by exact Hp. simpl.
  now rewrite list_insert_insert_eq.
Qed.

(** X13: the stores at the head of the loop body write the certificate
    directory, the two TLS fields and the credentials of the registry
    into the context behind [serverCtx]; the flag of the daemon is set
    exactly when the registry says skip.  The other fields of the
    context, every other context, the file system and the log stay as
    they were, and running the stores again changes nothing. *)
Theorem override_context_writes_registry_settings :
  forall (cfg : registrySyncConfig) (p : ptr) (c : SystemContext) (w : World),
    w_heap w !! p = Some c ->
    exists (c' : SystemContext) (w' : World),
      override_context cfg p w = Returned tt w'
      /\ w_heap w' = <[p := c']> (w_heap w)
      /\ w_fs w' = w_fs w /\ w_log w' = w_log w
      /\ DockerCertPath c' = CertDir cfg
      /\ DockerDaemonCertPath c' = CertDir cfg
      /\ DockerInsecureSkipTLSVerify c' = skip (TLSVerify cfg)
      /\ (DockerDaemonInsecureSkipTLSVerify c' = true
          <-> skip (TLSVerify cfg) = OptionalBoolTrue)
      /\ DockerAuthConfig_ c' = Some (Credentials cfg)
      /\ AuthFilePath c' = AuthFilePath c
      /\ RegistriesDirPath c' = RegistriesDirPath c
      /\ SystemRegistriesConfPath c' = SystemRegistriesConfPath c
      /\ override_context cfg p w' = Returned tt w'.
Proof.
  intros cfg p c w Hc.
  assert (Hp : p < length (w_heap w)) by (eapply lookup_lt_Some; eauto).
  exists (overridden cfg c), (with_heap (<[p := overridden cfg c]> (w_heap w)) w).
  split; [now apply override_context_runs|].
  repeat (split; [reflexivity|]). split.
  { simpl. destruct (skip (TLSVerify cfg)); simpl; split; congruence. }
  repeat (split; [reflexivity|]).
  rewrite (override_context_runs cfg p (overridden cfg c)).
  - unfold with_heap. simpl. now rewrite list_insert_insert_eq.
  - simpl. now apply list_lookup_insert_eq.
Qed.

(** The query of the registry for all tags of a repository, when the
    listing fails. *)
Lemma query_fails imageName registryName repoName serverCtx n err w :
  docker_ParseReference repoName = inl (dockerReference n) ->
  docker_GetRepositoryTags (w_heap w !! serverCtx) n = inr err ->
  fatal_listing_error err ->
  exists w',
    match docker_ParseReference repoName with
    | inr err => skip_repo imageName registryName err;; mret None
    | inl imageRef =>
        '(sourceReferences, err) ← imagesToCopyFromRepo imageRef repoName serverCtx;
        match err with
        | Some err => skip_repo imageName registryName err;; mret (@None (list ImageReference))
        | None => mret (Some sourceReferences)
        end
    end w = Returned None w'.
Proof.
  intros Hparse Htags Hfatal. rewrite Hparse.
  unfold imagesToCopyFromRepo. rewrite bind_unfold, bind_unfold.
  rewrite (getImageTags_failed _ _ err) by assumption.
  simpl. eexists. reflexivity.
Qed.

Lemma resolve_tags_listing_fails registryName imageName repoName tags serverCtx n err w :
  tags = YNil \/ (exists pattern, tags = YString pattern) ->
  docker_ParseReference repoName = inl (dockerReference n) ->
  docker_GetRepositoryTags (w_heap w !! serverCtx) n = inr err ->
  fatal_listing_error err ->
  exists w', resolve_tags registryName imageName repoName tags serverCtx w
             = Returned None w'.
Proof.
  intros [->|[pattern ->]] Hparse Htags Hfatal; unfold resolve_tags.
  - rewrite bind_unfold. simpl. rewrite bind_unfold. simpl. rewrite bind_unfold. simpl.
    now apply query_fails with (n := n) (err := err).
  - destruct (regexp_Compile pattern) as [re|e].
    + rewrite bind_unfold. simpl. rewrite bind_unfold. simpl.
      rewrite Hparse. unfold imagesToCopyFromRepo. rewrite bind_unfold, bind_unfold.
      rewrite (getImageTags_failed _ _ err) by assumption.
      simpl. eexists. reflexivity.
    + rewrite bind_unfold. unfold skip_repo at 1. rewrite bind_unfold. simpl.
      rewrite bind_unfold. simpl.
      rewrite Hparse. unfold imagesToCopyFromRepo. rewrite bind_unfold, bind_unfold.
      rewrite (getImageTags_failed _ _ err) by assumption.
      simpl. eexists. reflexivity.
Qed.

Lemma resolve_tags_name_fails registryName imageName repoName tags serverCtx err w :
  tags = YNil \/ (exists pattern, tags = YString pattern) ->
  docker_ParseReference repoName = inr err ->
  exists w', resolve_tags registryName imageName repoName tags serverCtx w
             = Returned None w'.
Proof.
  intros [->|[pattern ->]] Hparse; unfold resolve_tags.
  - rewrite bind_unfold. simpl. rewrite bind_unfold. simpl. rewrite bind_unfold. simpl.
    rewrite Hparse. eexists. reflexivity.
  - destruct (regexp_Compile pattern) as [re|e].
    + rewrite bind_unfold. simpl. rewrite bind_unfold. simpl.
      rewrite Hparse. eexists. reflexivity.
    + rewrite bind_unfold. unfold skip_repo at 1. rewrite bind_unfold. simpl.
      rewrite bind_unfold. simpl.
      rewrite Hparse. eexists. reflexivity.
Qed.

Lemma resolve_tags_unsupported registryName imageName repoName tags serverCtx w :
  unsupported_selector tags = true ->
  exists w', resolve_tags registryName imageName repoName tags serverCtx w
             = Returned None w'.
Proof.
  intros Htags. destruct tags; try discriminate; eexists; reflexivity.
Qed.

(** A repository whose selector resolves to nothing leaves the list of
    descriptors as it is, and the loop goes on with the next
    repository. *)
Lemma skipped_repository registryName cfg p imageName tags rest ds c w :
  w_heap w !! p = Some c ->
  (forall w1, w_heap w1 = <[p := overridden cfg c]> (w_heap w) ->
              exists o w2, resolve_tags registryName imageName
                             ("//" +:+ Join2 registryName imageName) tags p w1
                           = Returned o w2
                           /\ (o = None \/ o = Some [])) ->
  exists w',
    registry_loop_body registryName cfg p (imageName, tags) ds w = Returned ds w'
    /\ w_heap w' = <[p := overridden cfg c]> (w_heap w)
    /\ w_fs w' = w_fs w
    /\ for_range ((imageName, tags) :: rest) (registry_loop_body registryName cfg p) ds w
       = for_range rest (registry_loop_body registryName cfg p) ds w'.
Proof.
  intros Hc Hres.
  assert (Hbody : exists w',
    registry_loop_body registryName cfg p (imageName, tags) ds w = Returned ds w'
    /\ w_heap w' = <[p := overridden cfg c]> (w_heap w) /\ w_fs w' = w_fs w).
  { unfold registry_loop_body. rewrite bind_unfold. simpl. rewrite bind_unfold.
    rewrite (override_context_runs cfg p c) by exact Hc.
    rewrite bind_unfold.
    match goal with
    | |- context [resolve_tags _ _ _ _ _ ?w1] =>
        destruct (Hres w1 eq_refl) as (o & w2 & Hw2 & Ho);
        pose proof (keeps_resolve_tags _ _ _ _ _ _ _ _ Hw2) as [Hh Hf];
        rewrite Hw2
    end.
    destruct Ho as [-> | ->].
    - exists w2. split; [reflexivity|]. split; [exact Hh|exact Hf].
    - simpl. rewrite bind_unfold. simpl. eexists. split; [reflexivity|].
      split; [exact Hh|exact Hf]. }
  destruct Hbody as (w' & Hbody & Hh & Hf). exists w'.
  repeat split; try assumption. cbn [for_range]. now rewrite bind_unfold, Hbody.
Qed.

Lemma resolve_tags_lists_nothing registryName imageName repoName tags serverCtx n w :
  tags = YNil \/ (exists pattern, tags = YString pattern) ->
  docker_ParseReference repoName = inl (dockerReference n) ->
  docker_GetRepositoryTags (w_heap w !! serverCtx) n = inl [] ->
  exists w', resolve_tags registryName imageName repoName tags serverCtx w
             = Returned (Some []) w'.
Proof.
  intros [->|[pattern ->]] Hparse Htags; unfold resolve_tags.
  - rewrite bind_unfold. simpl. rewrite bind_unfold. simpl. rewrite bind_unfold. simpl.
    rewrite Hparse. unfold imagesToCopyFromRepo. rewrite bind_unfold, bind_unfold.
    erewrite PatternProperties.getImageTags_listed by (simpl; exact Htags).
    simpl. eexists. reflexivity.
  - destruct (regexp_Compile pattern) as [re|e].
    + rewrite bind_unfold. simpl. rewrite bind_unfold. simpl.
      rewrite Hparse. unfold imagesToCopyFromRepo. rewrite bind_unfold, bind_unfold.
      erewrite PatternProperties.getImageTags_listed by (simpl; exact Htags).
      simpl. eexists. reflexivity.
    + rewrite bind_unfold. unfold skip_repo at 1. rewrite bind_unfold. simpl.
      rewrite bind_unfold. simpl.
      rewrite Hparse. unfold imagesToCopyFromRepo. rewrite bind_unfold, bind_unfold.
      erewrite PatternProperties.getImageTags_listed by (simpl; exact Htags).
      simpl. eexists. reflexivity.
Qed.

(** X14: in a manifest run the body of the loop over the images of a
    registry leaves the list of descriptors as it is, and the loop goes
    on with the next image, when the selector of the image is of a type
    that is not supported, when the name of the repository is no valid
    reference, when the listing of its tags fails, and when the registry
    lists no tag.  The registry is asked with its own settings already
    written to the context; the file system is not touched. *)
Theorem manifest_repository_failures_are_skipped :
  forall (registryName : string) (cfg : registrySyncConfig) (p : ptr)
         (imageName : string) (tags : yamlValue) (rest : list (string * yamlValue))
         (ds : list repoDescriptor) (c : SystemContext) (w : World),
    w_heap w !! p = Some c ->
    let repoName := "//" +:+ Join2 registryName imageName in
    let skipped :=
      exists w',
        registry_loop_body registryName cfg p (imageName, tags) ds w = Returned ds w'
        /\ w_heap w' = <[p := overridden cfg c]> (w_heap w)
        /\ w_fs w' = w_fs w
        /\ for_range ((imageName, tags) :: rest)
             (registry_loop_body registryName cfg p) ds w
           = for_range rest (registry_loop_body registryName cfg p) ds w' in
    (unsupported_selector tags = true -> skipped)
    /\ (forall err : error,
          tags = YNil \/ (exists pattern, tags = YString pattern) ->
          docker_ParseReference repoName = inr err ->
          skipped)
    /\ (forall (n : Named) (err : error),
          tags = YNil \/ (exists pattern, tags = YString pattern) ->
          docker_ParseReference repoName = inl (dockerReference n) ->
          docker_GetRepositoryTags (Some (overridden cfg c)) n = inr err ->
          fatal_listing_error err ->
          skipped)
    /\ (forall n : Named,
          tags = YNil \/ (exists pattern, tags = YString pattern) ->
          docker_ParseReference repoName = inl (dockerReference n) ->
          docker_GetRepositoryTags (Some (overridden cfg c)) n = inl [] ->
          skipped).
Proof.
  intros registryName cfg p imageName tags rest ds c w Hc repoName skipped.
  assert (Hp : p < length (w_heap w)) by (eapply lookup_lt_Some; eauto).
  split; [|split; [|split]].
  - intros Htags. apply (skipped_repository _ _ _ _ _ _ _ c); [exact Hc|].
    intros w1 _.
    destruct (resolve_tags_unsupported registryName imageName repoName tags p w1 Htags)
      as [w2 Hw2]. eauto.
  - intros err Htags Hparse. apply (skipped_repository _ _ _ _ _ _ _ c); [exact Hc|].
    intros w1 _.
    destruct (resolve_tags_name_fails registryName imageName repoName tags p err w1
                Htags Hparse) as [w2 Hw2]. eauto.
  - intros n err Htags Hparse Hlist Hfatal.
    apply (skipped_repository _ _ _ _ _ _ _ c); [exact Hc|].
    intros w1 Hw1.
    destruct (resolve_tags_listing_fails registryName imageName repoName tags p n err w1
                Htags Hparse) as [w2 Hw2]; [|exact Hfatal|eauto].
    now rewrite Hw1, list_lookup_insert_eq.
  - intros n Htags Hparse Hlist.
    apply (skipped_repository _ _ _ _ _ _ _ c); [exact Hc|].
    intros w1 Hw1.
    destruct (resolve_tags_lists_nothing registryName imageName repoName tags p n w1
                Htags Hparse) as [w2 Hw2]; [|eauto].
    now rewrite Hw1, list_lookup_insert_eq.
Qed.

(** X15: a docker source without tag and digest is planned as one
    descriptor that holds a reference for each tag the registry lists, in
    the order of the listing, when every tag gives a valid reference;
    when the registry lists no tag, the plan is the error that no images
    were found. *)
Theorem untagged_docker_source_lists_every_tag :
  forall (source_ : string) (nn : Named) (tags : list string) (p : ptr) (w : World),
    reference_ParseNormalizedNamed source_ = inl nn ->
    Reference.IsNameOnly nn = true ->
    docker_GetRepositoryTags (w_heap w !! p) (Reference.TagNameOnly nn) = inl tags ->
    Forall (fun tag => is_Some (parse_tag ("//" +:+ source_) tag)) tags ->
    imagesToCopy source_ "docker" p w
    = Returned
        (match tags with
         | [] => ([], Some (no_images source_))
         | _ :: _ =>
             ([{| DirBasePath := ""; TaggedImages := parsed ("//" +:+ source_) tags;
                  Context := p |}], None)
         end)
        (log_more [tag_presence source_ false;
                   getting_tags (Reference.TagNameOnly nn)] w)
    /\ length (parsed ("//" +:+ source_) tags) = length tags.
Proof.
  intros source_ nn tags p w Hparse Hbare Htags Hall.
  destruct (references_of_tags_parsed ("//" +:+ source_) tags [] Hall)
    as (Hrefs & Hlen & _).
  split; [|exact Hlen].
  unfold imagesToCopy. simpl. rewrite docker_ParseReference_slashes, Hparse.
  assert (Htagged : Reference.TagNameOnly nn =
                    {| named_name := named_name nn; named_tag := Some "latest";
                       named_digest := None |})
    by (unfold Reference.TagNameOnly; now rewrite Hbare).
  rewrite Htagged in *. unfold Reference.NewReference. simpl.
  rewrite bind_unfold. unfold isTagSpecified. rewrite Hparse, Hbare. simpl.
  rewrite bind_unfold. unfold imagesToCopyFromRepo. rewrite bind_unfold.
  erewrite PatternProperties.getImageTags_listed by (simpl; exact Htags).
  simpl. unfold mret at 1, Go_ret at 1. rewrite Hrefs. simpl.
  assert (Hworld : log_more
                     [{| level := InfoLevel;
                         fields := [("image",
                                     Reference.Name
                                       {| named_name := named_name nn;
                                          named_tag := Some "latest";
                                          named_digest := None |})];
                         message := "Getting tags" |}]
                     (with_log (w_log w ++ [tag_presence source_ false]) w)
                   = log_more [tag_presence source_ false;
                               getting_tags {| named_name := named_name nn;
                                               named_tag := Some "latest";
                                               named_digest := None |}] w).
  { unfold log_more, with_log. simpl. now rewrite <- app_assoc. }
  destruct tags as [|tag tags].
  - simpl. unfold mret, Go_ret. f_equal. exact Hworld.
  - destruct (parsed ("//" +:+ source_) (tag :: tags)) as [|r refs] eqn:Hp;
      [discriminate|].
    simpl. unfold mret, Go_ret. f_equal. exact Hworld.
Qed.

End WithEnv.
End RegistryProperties.

(** ** Manifests *)

Module ManifestProperties.
Import GoStrings GoPath GoStringsFacts GoFacts Sync SyncFrame SyncProperties.
Import ContextSpec ContextProperties TagListSpec TagListProperties ManifestSpec.
Import RunSpec.

Section WithEnv.
Context {E : Env}.

Lemma newSourceConfig_runs yamlFile content w :
  FS.ReadFile (w_fs w) yamlFile = inl content ->
  newSourceConfig yamlFile w
  = Returned (match unmarshal_sourceConfig content with
              | inl cfg => (cfg, None)
              | inr err => ([], Some (Wrapped err ("Failed to unmarshal "
                                                   +:+ quoted yamlFile)))
              end) w.
Proof.
  intros Hread. unfold newSourceConfig, unmarshal_sourceConfig.
  rewrite bind_unfold. simpl. rewrite Hread.
  destruct (yaml_Unmarshal content) as [v|err]; [|reflexivity].
  now destruct (Yaml.decode_sourceConfig v).
Qed.

Lemma yaml_loop_without_images p cfg ds w :
  Forall (fun entry => Images entry.2 = []) cfg ->
  for_range_return cfg (yaml_loop_body p) ds w
  = Returned (inl ds) (log_more (map (fun entry => no_images_specified entry.1) cfg) w).
Proof.
  intros Hcfg. revert w. induction Hcfg as [|[rn rc] cfg Hrc Hcfg IH]; intros w.
  - simpl. now rewrite log_more_nil.
  - cbn [for_range_return]. rewrite bind_unfold. unfold yaml_loop_body at 1.
    simpl in Hrc. rewrite Hrc. simpl. rewrite IH.
    f_equal. unfold log_more, with_log. simpl. now rewrite <- app_assoc.
Qed.

(** X16: a manifest none of whose registries lists an image is planned
    as no descriptor and no error, and the log gets one warning for each
    registry and nothing else.  The registries are the entries of a Go
    map, which [range] may visit in any order: whatever the order, the
    loop over them ends without returning, leaves the descriptors as
    they were and logs the warning of each registry as it is visited.
    [run] then returns no error, and its log ends with 0 images synced
    from 0 sources.  The file system is not touched. *)
Theorem manifest_without_images_plans_nothing :
  forall (source_ content : string) (cfg : sourceConfig) (p : ptr) (w : World),
    FS.ReadFile (w_fs w) source_ = inl content ->
    unmarshal_sourceConfig content = inl cfg ->
    Forall (fun entry => Images entry.2 = []) cfg ->
    (exists warnings : list logEntry,
        warnings ≡ₚ map (fun entry => no_images_specified entry.1) cfg
        /\ imagesToCopy source_ "yaml" p w = Returned ([], None) (log_more warnings w))
    /\ (forall (visited : sourceConfig) (descriptors : list repoDescriptor) (w0 : World),
          visited ≡ₚ cfg ->
          for_range_return visited (yaml_loop_body p) descriptors w0
          = Returned (inl descriptors)
              (log_more (map (fun entry => no_images_specified entry.1) visited) w0))
    /\ forall (opts : syncOptions) (destination_ : string) (c d : SystemContext),
         source opts = "yaml" ->
         contains (destination opts) ["docker"; "dir"] = true ->
         getPolicyContext = None ->
         srcImage_newSystemContext = inl c ->
         destImage_newSystemContext = inl d ->
         exists w',
           run opts [source_; destination_] w = Returned None w'
           /\ last (w_log w') = Some (synced 0 0)
           /\ w_fs w' = w_fs w.
Proof.
  intros source_ content cfg p w Hread Hcfg Hnone.
  assert (Hplan : forall p w0, w_fs w0 = w_fs w ->
    imagesToCopy source_ "yaml" p w0
    = Returned ([], None)
        (log_more (map (fun entry => no_images_specified entry.1) cfg) w0)).
  { intros p0 w0 Hfs. unfold imagesToCopy. simpl. rewrite bind_unfold.
    rewrite (newSourceConfig_runs _ content) by (now rewrite Hfs).
    rewrite Hcfg, bind_unfold. now rewrite yaml_loop_without_images. }
  split; [eexists; split; [reflexivity|now apply Hplan]|].
  split.
  { intros visited descriptors w0 Hvisited. apply yaml_loop_without_images.
    symmetry in Hvisited. exact (Permutation_Forall Hvisited Hnone). }
  intros opts destination_ c d Hsrc Hdst Hpol Hc Hd.
  assert (Hdest : String.eqb (destination opts) "" = false).
  { destruct (String.eqb (destination opts) "") eqn:Hq; [|reflexivity].
    apply String.eqb_eq in Hq. rewrite Hq in Hdst. discriminate. }
  unfold run. rewrite Hpol, Hsrc, Hc, Hd, Hdst, !length_zero_eqb, Hdest.
  replace (String.eqb "yaml" (destination opts) && String.eqb "yaml" "dir")
    with false by (now rewrite andb_false_r).
  simpl. rewrite bind_unfold. simpl. rewrite bind_unfold.
  rewrite Hplan by reflexivity.
  rewrite bind_unfold. simpl. rewrite bind_unfold. simpl. rewrite bind_unfold. simpl.
  eexists. split; [reflexivity|]. split; [|reflexivity].
  unfold with_log. cbn [w_log]. apply last_snoc.
Qed.

(** X17: a manifest that cannot be read makes the plan fail with the
    error of the read as it is, and one that cannot be unmarshalled
    with that error wrapped with the name of the file; no descriptor is
    returned and nothing is logged.  [run] returns the same error, having
    done no more than build the source context. *)
Theorem unreadable_or_malformed_manifest_is_fatal :
  forall (source_ : string) (w : World),
    let failure (err : error) :=
      forall p : ptr,
        imagesToCopy source_ "yaml" p w = Returned ([], Some err) w
        /\ forall (opts : syncOptions) (destination_ : string) (c : SystemContext),
             source opts = "yaml" ->
             contains (destination opts) ["docker"; "dir"] = true ->
             getPolicyContext = None ->
             srcImage_newSystemContext = inl c ->
             run opts [source_; destination_] w
             = Returned (Some err) (with_heap (w_heap w ++ [c]) w) in
    (forall err : error, FS.ReadFile (w_fs w) source_ = inr err -> failure err)
    /\ (forall (content : string) (err : error),
          FS.ReadFile (w_fs w) source_ = inl content ->
          unmarshal_sourceConfig content = inr err ->
          failure (Wrapped err ("Failed to unmarshal " +:+ quoted source_))).
Proof.
  intros source_ w failure.
  assert (Hrun : forall err,
    (forall w0, w_fs w0 = w_fs w ->
                newSourceConfig source_ w0 = Returned ([], Some err) w0) ->
    failure err).
  { intros err Hcfg p.
    assert (Hplan : forall p w0, w_fs w0 = w_fs w ->
      imagesToCopy source_ "yaml" p w0 = Returned ([], Some err) w0).
    { intros p0 w0 Hfs. unfold imagesToCopy. simpl.
      now rewrite bind_unfold, (Hcfg w0 Hfs). }
    split; [now apply Hplan|].
    intros opts destination_ c Hsrc Hdst Hpol Hc.
    assert (Hdest : String.eqb (destination opts) "" = false).
    { destruct (String.eqb (destination opts) "") eqn:Hq; [|reflexivity].
      apply String.eqb_eq in Hq. rewrite Hq in Hdst. discriminate. }
    unfold run. rewrite Hpol, Hsrc, Hc, Hdst, !length_zero_eqb, Hdest.
    replace (String.eqb "yaml" (destination opts) && String.eqb "yaml" "dir")
      with false by (now rewrite andb_false_r).
    simpl. rewrite bind_unfold. simpl. rewrite bind_unfold.
    now rewrite Hplan by reflexivity. }
  split.
  - intros err Hread. apply Hrun. intros w0 Hfs.
    unfold newSourceConfig. rewrite bind_unfold. simpl. now rewrite Hfs, Hread.
  - intros content err Hread Hbad. apply Hrun. intros w0 Hfs.
    rewrite (newSourceConfig_runs _ content) by (now rewrite Hfs). now rewrite Hbad.
Qed.

End WithEnv.
End ManifestProperties.

(** ** The tls-verify key *)

Module TLSProperties.
Import GoStrings GoPath GoFacts Sync SyncProperties ContextSpec ContextProperties.
Import ManifestSpec RegistrySpec RegistryProperties.

Section WithEnv.
Context {E : Env}.

Lemma decode_registry_fields_app pre post out cfg :
  Yaml.decode_registry_fields (pre ++ post) out = inl cfg ->
  exists mid, Yaml.decode_registry_fields pre out = inl mid
              /\ Yaml.decode_registry_fields post mid = inl cfg.
Proof.
  revert out. induction pre as [|[k v] pre IH]; intros out H; simpl in H |- *.
  - eauto.
  - destruct k as [|k| | | | | | |]; try discriminate.
    destruct (String.eqb k "images").
    { destruct (Yaml.decode_images v (Images out)); [exact (IH _ H)|discriminate]. }
    destruct (String.eqb k "credentials").
    { destruct (Yaml.decode_credentials v (Credentials out));
        [exact (IH _ H)|discriminate]. }
    destruct (String.eqb k "tls-verify").
    { destruct v; simpl in H |- *; try discriminate; exact (IH _ H). }
    destruct (String.eqb k "cert-dir").
    { destruct (Yaml.decode_string v (CertDir out)); [exact (IH _ H)|discriminate]. }
    exact (IH _ H).
Qed.

Lemma resolve_tags_unauthorized registryName imageName repoName tags serverCtx n msg w :
  tags = YNil \/ (exists pattern, tags = YString pattern) ->
  docker_ParseReference repoName = inl (dockerReference n) ->
  docker_GetRepositoryTags (w_heap w !! serverCtx) n
  = inr (ErrUnauthorizedForCredentials msg) ->
  exists w', resolve_tags registryName imageName repoName tags serverCtx w
             = Returned (Some []) w'.
Proof.
  intros [->|[pattern ->]] Hparse Htags; unfold resolve_tags.
  - rewrite bind_unfold. simpl. rewrite bind_unfold. simpl. rewrite bind_unfold. simpl.
    rewrite Hparse. unfold imagesToCopyFromRepo. rewrite bind_unfold, bind_unfold.
    erewrite getImageTags_unauthorized by (simpl; exact Htags).
    simpl. eexists. reflexivity.
  - destruct (regexp_Compile pattern) as [re|e].
    + rewrite bind_unfold. simpl. rewrite bind_unfold. simpl.
      rewrite Hparse. unfold imagesToCopyFromRepo. rewrite bind_unfold, bind_unfold.
      erewrite getImageTags_unauthorized by (simpl; exact Htags).
      simpl. eexists. reflexivity.
    + rewrite bind_unfold. unfold skip_repo at 1. rewrite bind_unfold. simpl.
      rewrite bind_unfold. simpl.
      rewrite Hparse. unfold imagesToCopyFromRepo. rewrite bind_unfold, bind_unfold.
      erewrite getImageTags_unauthorized by (simpl; exact Htags).
      simpl. eexists. reflexivity.
Qed.

(** A registry that answers the listing with an error or without a tag
    gives the selector nothing to resolve to. *)
Lemma resolve_tags_without_tags registryName imageName repoName tags serverCtx n w :
  tags = YNil \/ (exists pattern, tags = YString pattern) ->
  docker_ParseReference repoName = inl (dockerReference n) ->
  (forall tag tagList,
      docker_GetRepositoryTags (w_heap w !! serverCtx) n <> inl (tag :: tagList)) ->
  exists o w', resolve_tags registryName imageName repoName tags serverCtx w
               = Returned o w'
               /\ (o = None \/ o = Some []).
Proof.
  intros Htags Hparse Hnone.
  destruct (docker_GetRepositoryTags (w_heap w !! serverCtx) n)
    as [[|tag tagList]|err] eqn:Hlist.
  - destruct (resolve_tags_lists_nothing registryName imageName repoName tags serverCtx
                n w Htags Hparse Hlist) as [w' Hw']. eauto.
  - now destruct (Hnone tag tagList).
  - assert (Hcases : (exists msg, err = ErrUnauthorizedForCredentials msg)
                     \/ fatal_listing_error err).
    { destruct err; try (right; intros ?; discriminate). left. eauto. }
    destruct Hcases as [[msg ->]|Hfatal].
    + destruct (resolve_tags_unauthorized registryName imageName repoName tags serverCtx
                  n msg w Htags Hparse Hlist) as [w' Hw']. eauto.
    + destruct (resolve_tags_listing_fails registryName imageName repoName tags serverCtx
                  n err w Htags Hparse Hlist Hfatal) as [w' Hw']. eauto.
Qed.

(** C6: a registry entry of the manifest without a tls-verify key
    decodes to a configuration whose [skip] is the undefined value of
    [OptionalBool], and the context of that registry has TLS
    verification on, whatever the base context said.  The settings of
    the registry written over any context give a context that enforces
    verification, and the stores at the head of the loop body write
    them.  A registry that lists an image gets a context of its own,
    the one new object of the heap, and that context enforces
    verification whether descriptors result or not; the context of
    every descriptor is that object.  Every turn of the loop leaves it
    behind the pointer, and it is the context the registry is asked
    with: when the registry answers that listing with an error or
    without a tag, the turn ends with the descriptors as they were.
    That is not what the zero value of a boolean would give: an
    [UnmarshalYAML] whose [unmarshal] leaves [verify] at its zero value
    sets [skip] to true. *)
Theorem absent_tls_verify_enforces_verification :
  forall (fields : list (yamlValue * yamlValue)) (cfg : registrySyncConfig),
    (forall v, (YString "tls-verify", v) ∉ fields) ->
    Yaml.decode_registry (YMap fields) = inl cfg ->
    skip (TLSVerify cfg) = OptionalBoolUndefined
    /\ (forall c : SystemContext,
          DockerInsecureSkipTLSVerify (overridden cfg c) = OptionalBoolUndefined
          /\ enforces_TLS_verification (overridden cfg c))
    /\ (forall (p : ptr) (c : SystemContext) (w : World),
          w_heap w !! p = Some c ->
          override_context cfg p w
          = Returned tt (with_heap (<[p := overridden cfg c]> (w_heap w)) w))
    /\ (forall (registryName : string) (sourceCtx : SystemContext) (w w' : World)
               (ds : list repoDescriptor) (err : option error),
          imagesToCopyFromRegistry registryName cfg sourceCtx w = Returned (ds, err) w' ->
          (Images cfg <> [] ->
           w_heap w' = w_heap w ++ [overridden cfg sourceCtx])
          /\ (forall d, d ∈ ds -> Context d = length (w_heap w))
          /\ forall d, d ∈ ds ->
               exists c, w_heap w' !! Context d = Some c
                         /\ DockerInsecureSkipTLSVerify c = OptionalBoolUndefined
                         /\ enforces_TLS_verification c)
    /\ (forall (registryName : string) (p : ptr) (entry : string * yamlValue)
               (ds ds' : list repoDescriptor) (w w' : World),
          registry_loop_body registryName cfg p entry ds w = Returned ds' w' ->
          exists c, w_heap w !! p = Some c
                    /\ w_heap w' !! p = Some (overridden cfg c))
    /\ (forall (registryName : string) (p : ptr) (imageName : string) (tags : yamlValue)
               (ds : list repoDescriptor) (c : SystemContext) (w : World) (n : Named),
          w_heap w !! p = Some c ->
          tags = YNil \/ (exists pattern, tags = YString pattern) ->
          docker_ParseReference ("//" +:+ Join2 registryName imageName)
          = inl (dockerReference n) ->
          (forall tag tagList,
              docker_GetRepositoryTags (Some (overridden cfg c)) n
              <> inl (tag :: tagList)) ->
          exists w',
            registry_loop_body registryName cfg p (imageName, tags) ds w
            = Returned ds w'
            /\ w_heap w' !! p = Some (overridden cfg c))
    /\ (forall tls : tlsVerifyConfig,
          Yaml.UnmarshalYAML tls (fun verify => inl verify)
          = ({| skip := OptionalBoolTrue |}, None)).
Proof.
  intros fields cfg Habsent Hdecode. simpl in Hdecode.
  apply decode_registry_fields_TLSVerify in Hdecode; [|exact Habsent].
  simpl in Hdecode.
  assert (Hskip : skip (TLSVerify cfg) = OptionalBoolUndefined) by now rewrite Hdecode.
  assert (Hon : forall c : SystemContext,
    DockerInsecureSkipTLSVerify (overridden cfg c) = OptionalBoolUndefined
    /\ enforces_TLS_verification (overridden cfg c)).
  { intros c. unfold enforces_TLS_verification. simpl. rewrite Hskip. simpl.
    repeat split. discriminate. }
  split; [exact Hskip|]. split; [exact Hon|].
  split; [intros p c w Hc; now apply override_context_runs|].
  split; [|split; [|split; [|reflexivity]]].
  - intros registryName sourceCtx w w' ds err H.
    apply imagesToCopyFromRegistry_Returned in H as (_ & _ & Hh & Hctx & Hnil).
    rewrite Forall_forall in Hctx.
    split; [|split; [exact Hctx|]].
    + intros Himages. rewrite Hh.
      destruct (Images cfg) as [|entry images]; [now contradict Himages|reflexivity].
    + intros d Hd. rewrite (Hctx d Hd), Hh.
      destruct (Images cfg) as [|entry images] eqn:Himages.
      { rewrite (Hnil eq_refl) in Hd. now apply elem_of_nil in Hd. }
      simpl. exists (overridden cfg sourceCtx).
      split; [now apply list_lookup_middle|]. apply Hon.
  - intros registryName p entry ds ds' w w' H.
    apply registry_loop_body_Returned in H as (c & Hc & Hh & _).
    exists c. split; [exact Hc|]. rewrite Hh.
    apply list_lookup_insert_eq. eapply lookup_lt_Some; eauto.
  - intros registryName p imageName tags ds c w n Hc Htags Hparse Hnone.
    assert (Hp : p < length (w_heap w)) by (eapply lookup_lt_Some; eauto).
    destruct (skipped_repository registryName cfg p imageName tags [] ds c w Hc)
      as (w' & Hbody & Hh & _).
    { intros w1 Hw1. apply resolve_tags_without_tags with (n := n);
        [exact Htags|exact Hparse|].
      rewrite Hw1, list_lookup_insert_eq by exact Hp. exact Hnone. }
    exists w'. split; [exact Hbody|].
    rewrite Hh. now apply list_lookup_insert_eq.
Qed.

(** X18: [UnmarshalYAML] sets [skip] to the negation of the boolean it
    unmarshals, and returns the configuration as it was together with
    the error when unmarshalling fails.  A registry entry whose last
    tls-verify key holds the boolean [b] decodes to a configuration with
    [skip] the negation of [b], and every context built from it has both
    skip fields at the negation of [b].  A tls-verify value that is
    neither a boolean nor null makes the decoding of the entry fail. *)
Theorem tls_verify_key_sets_both_flags :
  (forall (tls : tlsVerifyConfig) (b : bool) (err : error),
      Yaml.UnmarshalYAML tls (fun _ => inl b) = ({| skip := NewOptionalBool (negb b) |}, None)
      /\ Yaml.UnmarshalYAML tls (fun _ => inr err) = (tls, Some err))
  /\ (forall (pre post : list (yamlValue * yamlValue)) (b : bool)
             (cfg : registrySyncConfig),
        (forall v, (YString "tls-verify", v) ∉ post) ->
        Yaml.decode_registry (YMap (pre ++ (YString "tls-verify", YBool b) :: post))
        = inl cfg ->
        skip (TLSVerify cfg) = NewOptionalBool (negb b)
        /\ forall (registryName : string) (sourceCtx : SystemContext) (w w' : World)
                  (ds : list repoDescriptor) (err : option error),
             imagesToCopyFromRegistry registryName cfg sourceCtx w = Returned (ds, err) w' ->
             forall d, d ∈ ds ->
               exists c, w_heap w' !! Context d = Some c
                         /\ DockerInsecureSkipTLSVerify c = NewOptionalBool (negb b)
                         /\ DockerDaemonInsecureSkipTLSVerify c = negb b)
  /\ (forall (pre post : list (yamlValue * yamlValue)) (v : yamlValue)
             (mid : registrySyncConfig),
        is_bool_or_null v = false ->
        Yaml.decode_registry_fields pre Yaml.zero_registrySyncConfig = inl mid ->
        exists err,
          Yaml.decode_registry (YMap (pre ++ (YString "tls-verify", v) :: post))
          = inr err).
Proof.
  split; [|split].
  - intros tls b err. split; reflexivity.
  - intros pre post b cfg Habsent Hdecode. simpl in Hdecode.
    apply decode_registry_fields_app in Hdecode as (mid & _ & Hpost).
    simpl in Hpost.
    apply decode_registry_fields_TLSVerify in Hpost; [|exact Habsent].
    simpl in Hpost.
    assert (Hskip : skip (TLSVerify cfg) = NewOptionalBool (negb b))
      by now rewrite Hpost.
    split; [exact Hskip|].
    intros registryName sourceCtx w w' ds err H d Hd.
    apply imagesToCopyFromRegistry_Returned in H as (_ & _ & Hh & Hctx & Hnil).
    rewrite Forall_forall in Hctx. rewrite (Hctx d Hd), Hh.
    destruct (Images cfg) as [|entry images] eqn:Himages.
    { rewrite (Hnil eq_refl) in Hd. now apply elem_of_nil in Hd. }
    simpl. exists (overridden cfg sourceCtx).
    split; [now apply list_lookup_middle|].
    simpl. rewrite Hskip. now destruct b.
  - intros pre post v mid Hv Hpre. simpl.
    assert (Happ : forall fields out,
      Yaml.decode_registry_fields pre out = inl mid ->
      Yaml.decode_registry_fields (pre ++ fields) out
      = Yaml.decode_registry_fields fields mid).
    { intros fields. clear Hpre. induction pre as [|[k x] pre IH]; intros out H;
        simpl in H |- *.
      - now injection H as ->.
      - destruct k as [|k| | | | | | |]; try discriminate.
        destruct (String.eqb k "images").
        { destruct (Yaml.decode_images x (Images out)); [exact (IH _ H)|discriminate]. }
        destruct (String.eqb k "credentials").
        { destruct (Yaml.decode_credentials x (Credentials out));
            [exact (IH _ H)|discriminate]. }
        destruct (String.eqb k "tls-verify").
        { destruct x; simpl in H |- *; try discriminate; exact (IH _ H). }
        destruct (String.eqb k "cert-dir").
        { destruct (Yaml.decode_string x (CertDir out)); [exact (IH _ H)|discriminate]. }
        exact (IH _ H). }
    rewrite (Happ ((YString "tls-verify", v) :: post) _ Hpre).
    simpl. destruct v; try discriminate; simpl; eauto.
Qed.

End WithEnv.
End TLSProperties.

(** ** Directory sources and destinations *)

Module EndpointProperties.
Import GoStrings GoPath GoStringsFacts GoFacts Sync SyncProperties.
Import Markers WalkSpec WalkProperties PlanSpec PlanProperties.

Lemma append_associative (a b c : string) : (a +:+ b) +:+ c = a +:+ b +:+ c.
Proof.
  induction a as [|x a IH]; [reflexivity|].
  change ((String x a +:+ b) +:+ c) with (String x ((a +:+ b) +:+ c)).
  change (String x a +:+ b +:+ c) with (String x (a +:+ b +:+ c)).
  now rewrite IH.
Qed.

Lemma has_slash_after_last_slash (s : string) : has_slash (after_last_slash s) = false.
Proof.
  induction s as [|c s IH]; simpl; [reflexivity|].
  destruct (has_slash s) eqn:Hs; [exact IH|].
  destruct (is_slash c) eqn:Hc; [exact Hs|]. simpl. now rewrite Hc, Hs.
Qed.

Lemma Base_flat (p : string) : Base p = "/" \/ has_slash (Base p) = false.
Proof.
  unfold Base. destruct (String.eqb p ""); [now right|].
  destruct (String.eqb (after_last_slash (strip_trailing_slashes p)) "");
    [now left|right; apply has_slash_after_last_slash].
Qed.

Lemma strip_trailing_slashes_leaf (pre leaf : string) :
  leaf <> "" -> has_slash leaf = false ->
  strip_trailing_slashes (pre +:+ leaf) = pre +:+ leaf.
Proof.
  intros Hne Hleaf. induction pre as [|c pre IH].
  - change ("" +:+ leaf) with leaf. clear Hne.
    induction leaf as [|c leaf IH]; [reflexivity|].
    simpl in Hleaf |- *. apply orb_false_iff in Hleaf as [Hc Hleaf].
    rewrite (IH Hleaf), Hc. now destruct leaf.
  - change (String c pre +:+ leaf) with (String c (pre +:+ leaf)).
    simpl. rewrite IH. destruct (pre +:+ leaf) eqn:Happ; [|reflexivity].
    destruct pre; [|discriminate]. now contradict Hne.
Qed.

Lemma has_slash_app (a b : string) : has_slash (a +:+ b) = has_slash a || has_slash b.
Proof.
  induction a as [|c a IH]; [reflexivity|].
  change (String c a +:+ b) with (String c (a +:+ b)). simpl.
  now rewrite IH, orb_assoc.
Qed.

Lemma after_last_slash_leaf (pre leaf : string) :
  has_slash leaf = false -> after_last_slash (pre +:+ "/" +:+ leaf) = leaf.
Proof.
  intros Hleaf. induction pre as [|c pre IH].
  - change ("" +:+ "/" +:+ leaf) with (String "/" leaf). simpl. now rewrite Hleaf.
  - change (String c pre +:+ "/" +:+ leaf) with (String c (pre +:+ "/" +:+ leaf)).
    simpl. rewrite has_slash_app. change ("/" +:+ leaf) with (String "/" leaf).
    simpl. now rewrite orb_true_r.
Qed.

Lemma Base_leaf (pre leaf : string) :
  leaf <> "" -> has_slash leaf = false -> Base (pre +:+ "/" +:+ leaf) = leaf.
Proof.
  intros Hne Hleaf. unfold Base.
  assert (Happ : pre +:+ "/" +:+ leaf = (pre +:+ "/") +:+ leaf)
    by now rewrite append_associative.
  destruct (String.eqb (pre +:+ "/" +:+ leaf) "") eqn:Hempty.
  { apply String.eqb_eq in Hempty. destruct pre; discriminate. }
  rewrite Happ, (strip_trailing_slashes_leaf _ _ Hne Hleaf), <- Happ.
  rewrite (after_last_slash_leaf _ _ Hleaf).
  destruct (String.eqb leaf "") eqn:Hq; [|reflexivity].
  apply String.eqb_eq in Hq. now contradict Hne.
Qed.

Section WithEnv.
Context {E : Env}.

(** X19: a dir source that [Stat] refuses makes the plan fail with the
    wrapped error of [Stat], and a dir source whose tree holds no file
    named manifest.json makes it fail with the error that no images were
    found; neither returns a descriptor nor changes the world. *)
Theorem directory_source_without_images_is_fatal :
  forall (source_ : string) (p : ptr) (w : World),
    (forall err : error,
        FS.Stat (w_fs w) source_ = inr err ->
        imagesToCopy source_ "dir" p w
        = Returned ([], Some (Wrapped err "Invalid source directory specified")) w)
    /\ (forall n : node,
          FS.Stat (w_fs w) source_ = inl n ->
          marker_free n = true ->
          is_marker (Base source_, n) = false ->
          imagesToCopy source_ "dir" p w
          = Returned ([], Some (no_images source_)) w).
Proof.
  intros source_ p w. split.
  - intros err Hstat. unfold imagesToCopy. simpl. rewrite bind_unfold. simpl.
    now rewrite Hstat.
  - intros n Hstat Hfree Hmarker. unfold imagesToCopy. simpl.
    rewrite bind_unfold. simpl. rewrite Hstat, bind_unfold.
    unfold imagesToCopyFromDir. rewrite bind_unfold. simpl.
    unfold FS.Walk. rewrite Hstat.
    pose proof (marker_free_quiet (w_fs w) n (Base source_) Hfree Hmarker source_ [])
      as Hquiet.
    simpl in Hquiet. rewrite Hquiet. reflexivity.
Qed.

(** X20: [destinationReference] always returns.  It never touches the
    heap, and it touches the file system for the dir transport only.  A
    reference it returns is, for the docker transport, the docker
    reference parsed from the destination behind two slashes, and for
    the dir transport the dir reference of the destination.  Any other
    transport is refused with the error that names it, and the world is
    left as it was. *)
Theorem destinationReference_is_of_the_transport :
  forall (destination_ transport : string) (w : World),
    exists (r : ImageReference + error) (w' : World),
      destinationReference destination_ transport w = Returned r w'
      /\ w_heap w' = w_heap w
      /\ (transport <> "dir" -> w_fs w' = w_fs w)
      /\ (forall destRef : ImageReference,
            r = inl destRef ->
            transport = "docker"
            /\ docker_ParseReference ("//" +:+ destination_) = inl destRef
            /\ is_docker destRef = true
            \/ transport = "dir" /\ destRef = dirReference destination_)
      /\ (transport <> "docker" -> transport <> "dir" ->
          r = inr (ErrorString (quoted transport
                                +:+ " is not a valid destination transport"))
          /\ w' = w).
Proof.
  intros destination_ transport w. unfold destinationReference.
  destruct (String.eqb transport "docker") eqn:Hdocker.
  { apply String.eqb_eq in Hdocker. subst transport.
    rewrite bind_unfold. simpl.
    destruct (docker_ParseReference ("//" +:+ destination_)) as [destRef|err] eqn:Hparse;
      eexists _, _; (split; [reflexivity|]); (split; [reflexivity|]);
      (split; [now intros _|]); (split; [|now intros []]).
    - intros ? [= <-]. left. split; [reflexivity|]. split; [reflexivity|].
      now apply docker_ParseReference_docker in Hparse.
    - intros ? [=]. }
  destruct (String.eqb transport "dir") eqn:Hdir.
  { apply String.eqb_eq in Hdir. subst transport.
    rewrite bind_unfold. simpl.
    destruct (FS.Stat (w_fs w) destination_) as [n|err].
    { eexists _, _. split; [reflexivity|]. split; [reflexivity|].
      split; [now intros []|]. split; [intros ? [=]|now intros _ []]. }
    destruct (negb (IsNotExist err)).
    { eexists _, _. split; [reflexivity|]. split; [reflexivity|].
      split; [now intros []|]. split; [intros ? [=]|now intros _ []]. }
    rewrite bind_unfold. unfold FS.MkdirAll.
    destruct (String.eqb destination_ "").
    { eexists _, _. split; [reflexivity|]. split; [reflexivity|].
      split; [now intros []|]. split; [intros ? [=]|now intros _ []]. }
    destruct (FS.mkdir_all (w_fs w) (FS.components destination_)) as [fs'|e].
    2: { eexists _, _. split; [reflexivity|]. split; [reflexivity|].
         split; [now intros []|]. split; [intros ? [=]|now intros _ []]. }
    rewrite bind_unfold. simpl. rewrite bind_unfold.
    unfold directory_ParseReference. simpl.
    destruct (directory_resolve_error fs' destination_).
    { eexists _, _. split; [reflexivity|]. split; [reflexivity|].
      split; [now intros []|]. split; [intros ? [=]|now intros _ []]. }
    eexists _, _. split; [reflexivity|]. split; [reflexivity|].
    split; [now intros []|]. split; [|now intros _ []].
    intros ? [= <-]. now right. }
  eexists _, _. split; [reflexivity|]. split; [reflexivity|].
  split; [now intros _|]. split; [intros ? [=]|auto].
Qed.

(** X21: without scoping the destination suffix is the last element of
    the scoped suffix, so it holds no slash unless it is the root
    itself.  For a docker reference with a tag and no digest whose name
    ends in a slash and a last element, it is that last element, a colon
    and the tag, whatever comes before the slash. *)
Theorem unscoped_destination_is_flat :
  forall (opts : syncOptions) (ref : ImageReference) (srcRepo : repoDescriptor),
    scoped opts = false ->
    destSuffix_of opts ref srcRepo = Base (destSuffix_by_transport ref srcRepo)
    /\ (destSuffix_of opts ref srcRepo = "/"
        \/ has_slash (destSuffix_of opts ref srcRepo) = false)
    /\ (forall (n : Named) (front leaf tag : string),
          ref = dockerReference n ->
          named_name n = front +:+ "/" +:+ leaf ->
          named_tag n = Some tag -> named_digest n = None ->
          leaf <> "" -> has_slash leaf = false -> has_slash tag = false ->
          destSuffix_of opts ref srcRepo = leaf +:+ ":" +:+ tag).
Proof.
  intros opts ref srcRepo Hscoped. unfold destSuffix_of. rewrite Hscoped. simpl.
  split; [reflexivity|]. split; [apply Base_flat|].
  intros n front leaf tag -> Hname Htag Hdigest Hne Hleaf Hnotag. simpl.
  unfold Reference.String_. rewrite Hname, Htag, Hdigest, !append_empty.
  assert (Happ : (front +:+ "/" +:+ leaf) +:+ ":" +:+ tag
                 = front +:+ "/" +:+ (leaf +:+ ":" +:+ tag))
    by now rewrite !append_associative.
  rewrite Happ. apply Base_leaf.
  - destruct leaf; [now contradict Hne|discriminate].
  - rewrite has_slash_app, Hleaf. change (":" +:+ tag) with (String ":" tag). simpl.
    exact Hnotag.
Qed.

End WithEnv.
End EndpointProperties.

(** ** Patterns that do not compile *)

Module SelectorProperties.
Import GoStrings GoPath GoFacts Sync SyncFrame TagListSpec TagListProperties.
Import PatternProperties PlanSpec PlanProperties RegistrySpec RegistryProperties.

Section WithEnv.
Context {E : Env}.

(** X22: for a pattern that does not compile, [resolve_tags] panics as
    soon as the registry lists a tag and the listed tags give valid
    references; when the registry lists no tag it returns the empty
    selection and has done nothing but log. *)
Theorem invalid_pattern_panics_once_a_tag_is_listed :
  forall (registryName imageName repoName pattern : string) (serverCtx : ptr)
         (err : error) (n : Named) (w : World),
    regexp_Compile pattern = inr err ->
    docker_ParseReference repoName = inl (dockerReference n) ->
    (forall (tag : string) (tags : list string),
        docker_GetRepositoryTags (w_heap w !! serverCtx) n = inl (tag :: tags) ->
        Forall (fun t => is_Some (parse_tag repoName t)) (tag :: tags) ->
        exists reason w',
          resolve_tags registryName imageName repoName (YString pattern) serverCtx w
          = Panicked reason w')
    /\ (docker_GetRepositoryTags (w_heap w !! serverCtx) n = inl [] ->
        exists w',
          resolve_tags registryName imageName repoName (YString pattern) serverCtx w
          = Returned (Some []) w'
          /\ only_logs w w').
Proof.
  intros registryName imageName repoName pattern serverCtx err n w Hcompile Hparse.
  split.
  - intros tag tags Htags Hall.
    destruct (references_of_tags_parsed repoName (tag :: tags) [] Hall)
      as (Hrefs & Hlen & _).
    pose proof (parsed_docker repoName (tag :: tags)) as Hdocker.
    destruct (parsed repoName (tag :: tags)) as [|[ref|path] refs]; try discriminate.
    simpl in Hrefs.
    now apply (invalid_regex_with_tags_panics registryName imageName repoName pattern
                 serverCtx err n ref tag tags refs w).
  - intros Htags.
    assert (Hrun : exists w',
      resolve_tags registryName imageName repoName (YString pattern) serverCtx w
      = Returned (Some []) w').
    { unfold resolve_tags. rewrite Hcompile, Hparse.
      rewrite bind_unfold. unfold skip_repo at 1. rewrite bind_unfold. simpl.
      rewrite bind_unfold. simpl. rewrite bind_unfold.
      unfold imagesToCopyFromRepo. rewrite bind_unfold.
      erewrite getImageTags_listed by (simpl; exact Htags).
      simpl. eexists. reflexivity. }
    destruct Hrun as (w' & Hrun). exists w'. split; [exact Hrun|].
    now apply keeps_resolve_tags in Hrun.
Qed.

End WithEnv.
End SelectorProperties.

(** ** Sources that cannot panic *)

Module PanicFreedom.
Import GoStrings GoPath GoFacts LoopFacts Sync SyncProperties PlanSpec PlanProperties.

Lemma for_range_return_returns {A S T} (l : list A) (body : A -> S -> Go (S + T)) :
  (forall x s w, exists r w', body x s w = Returned r w') ->
  forall s w, exists r w', for_range_return l body s w = Returned r w'.
Proof.
  intros Hbody. induction l as [|x l IH]; intros s w; simpl.
  - eexists _, _. reflexivity.
  - rewrite bind_unfold. destruct (Hbody x s w) as ([s'|t] & w1 & ->).
    + apply IH.
    + eexists _, _. reflexivity.
Qed.

Section WithEnv.
Context {E : Env}.

Lemma getImageTags_returns sysCtx n w :
  exists r w', getImageTags sysCtx (dockerReference n) w = Returned r w'.
Proof.
  unfold getImageTags, on_DockerReference, mbind, Go_bind, mret, Go_ret, logrus, peek.
  simpl. unfold id.
  destruct (docker_GetRepositoryTags (w_heap w !! sysCtx) n) as [tags|err]; simpl.
  - eexists _, _. reflexivity.
  - destruct err; eexists _, _; reflexivity.
Qed.

Lemma imagesToCopyFromRepo_returns n repoName sourceCtx w :
  exists r w', imagesToCopyFromRepo (dockerReference n) repoName sourceCtx w
               = Returned r w'.
Proof.
  unfold imagesToCopyFromRepo. rewrite bind_unfold.
  destruct (getImageTags_returns sourceCtx n w) as ([tags [err|]] & w1 & ->);
    eexists _, _; reflexivity.
Qed.

Lemma imagesToCopyFromDir_returns dirPath w :
  exists r w', imagesToCopyFromDir dirPath w = Returned r w'.
Proof.
  unfold imagesToCopyFromDir. rewrite bind_unfold. simpl.
  destruct (FS.Walk (walk_manifest (w_fs w)) (w_fs w) dirPath []) as [refs [err|]];
    eexists _, _; reflexivity.
Qed.

Lemma imagesToCopy_returns source_ transport p w :
  transport <> "yaml" ->
  exists r w', imagesToCopy source_ transport p w = Returned r w'.
Proof.
  intros Hyaml. apply String.eqb_neq in Hyaml. unfold imagesToCopy.
  destruct (String.eqb transport "docker").
  { destruct (docker_ParseReference ("//" +:+ source_)) as [srcRef|err] eqn:Hparse;
      [|eexists _, _; reflexivity].
    pose proof (docker_ParseReference_docker _ _ Hparse) as Hdocker.
    destruct srcRef as [n|path]; [|discriminate].
    rewrite bind_unfold. unfold isTagSpecified.
    destruct (reference_ParseNormalizedNamed source_) as [normNamed|err];
      [|eexists _, _; reflexivity].
    rewrite bind_unfold. simpl.
    destruct (negb (Reference.IsNameOnly normNamed)); [eexists _, _; reflexivity|].
    rewrite bind_unfold.
    destruct (imagesToCopyFromRepo_returns n ("//" +:+ source_) p
                (with_log
                   (w_log w ++
                    [{| level := InfoLevel;
                        fields := [("imagename", source_); ("tagged", "false")];
                        message := "Tag presence check" |}]) w))
      as ([images [err|]] & w1 & ->); [eexists _, _; reflexivity|].
    destruct (Nat.eqb (length images) 0); eexists _, _; reflexivity. }
  destruct (String.eqb transport "dir").
  { rewrite bind_unfold. simpl.
    destruct (FS.Stat (w_fs w) source_); [|eexists _, _; reflexivity].
    rewrite bind_unfold.
    destruct (imagesToCopyFromDir_returns source_ w) as ([images [err|]] & w1 & ->);
      [eexists _, _; reflexivity|].
    destruct (Nat.eqb (length images) 0); eexists _, _; reflexivity. }
  rewrite Hyaml. eexists _, _. reflexivity.
Qed.

Lemma destinationReference_returns destination_ transport w :
  exists r w', destinationReference destination_ transport w = Returned r w'.
Proof.
  unfold destinationReference.
  destruct (String.eqb transport "docker").
  { rewrite bind_unfold. simpl.
    destruct (docker_ParseReference ("//" +:+ destination_)); eexists _, _; reflexivity. }
  destruct (String.eqb transport "dir"); [|eexists _, _; reflexivity].
  rewrite bind_unfold. simpl.
  destruct (FS.Stat (w_fs w) destination_) as [n|err]; [eexists _, _; reflexivity|].
  destruct (negb (IsNotExist err)); [eexists _, _; reflexivity|].
  rewrite bind_unfold. unfold FS.MkdirAll.
  destruct (String.eqb destination_ ""); [eexists _, _; reflexivity|].
  destruct (FS.mkdir_all (w_fs w) (FS.components destination_)) as [fs'|e];
    [|eexists _, _; reflexivity].
  rewrite bind_unfold. simpl. rewrite bind_unfold.
  unfold directory_ParseReference. simpl.
  destruct (directory_resolve_error fs' destination_); eexists _, _; reflexivity.
Qed.

Lemma copy_loop_body_returns opts destination_ options srcRepo ref n w :
  exists r w', copy_loop_body opts destination_ options srcRepo ref n w = Returned r w'.
Proof.
  unfold copy_loop_body. rewrite bind_unfold.
  destruct (destinationReference_returns
              (Join2 destination_ (destSuffix_of opts ref srcRepo)) (destination opts) w)
    as ([destRef|err] & w1 & ->); [|eexists _, _; reflexivity].
  rewrite bind_unfold. simpl. rewrite bind_unfold. unfold copyImage. simpl.
  destruct (copy_Image destRef ref options (w_heap w1) (w_fs w1)) as [[err|] fs'];
    eexists _, _; reflexivity.
Qed.

(** X23: for a source transport other than yaml neither [imagesToCopy]
    nor [run] panics: whatever the arguments, the registry and the file
    system are, they return. *)
Theorem docker_and_dir_sources_never_panic :
  forall (opts : syncOptions) (args : list string) (w : World),
    source opts <> "yaml" ->
    (forall (sourceArg : string) (p : ptr) (w0 : World),
        exists r w', imagesToCopy sourceArg (source opts) p w0 = Returned r w')
    /\ exists err w', run opts args w = Returned err w'.
Proof.
  intros opts args w Hyaml.
  split; [intros sourceArg p w0; now apply imagesToCopy_returns|].
  unfold run.
  destruct args as [|sourceArg [|destination_ [|extra args]]];
    try (eexists _, _; reflexivity).
  destruct getPolicyContext; [eexists _, _; reflexivity|].
  destruct (Nat.eqb (String.length (source opts)) 0); [eexists _, _; reflexivity|].
  destruct (negb (contains (source opts) ["docker"; "dir"; "yaml"]));
    [eexists _, _; reflexivity|].
  destruct (Nat.eqb (String.length (destination opts)) 0); [eexists _, _; reflexivity|].
  destruct (negb (contains (destination opts) ["docker"; "dir"]));
    [eexists _, _; reflexivity|].
  destruct (String.eqb (source opts) (destination opts) && String.eqb (source opts) "dir");
    [eexists _, _; reflexivity|].
  destruct srcImage_newSystemContext as [c|err]; [|eexists _, _; reflexivity].
  rewrite bind_unfold. simpl. rewrite bind_unfold.
  destruct (imagesToCopy_returns sourceArg (source opts) (length (w_heap w))
              (with_heap (w_heap w ++ [c]) w) Hyaml)
    as ([srcRepoList [err|]] & w1 & ->); [eexists _, _; reflexivity|].
  destruct destImage_newSystemContext as [d|err]; [|eexists _, _; reflexivity].
  rewrite bind_unfold. simpl. rewrite bind_unfold.
  match goal with
  | |- context [for_range_return srcRepoList ?body 0%nat ?w2] =>
      destruct (for_range_return_returns srcRepoList body) with (s := 0%nat) (w := w2)
        as ([imagesNumber|err] & w3 & ->)
  end.
  - intros srcRepo imagesNumber w0. apply for_range_return_returns.
    intros ref n w4. apply copy_loop_body_returns.
  - rewrite bind_unfold. simpl. eexists _, _. reflexivity.
  - eexists _, _. reflexivity.
Qed.

End WithEnv.
End PanicFreedom.

(** ** The command on the sample environment *)

Module SampleRuns.
Import GoFacts Sync Sample Markers ContextSpec TagListSpec.
Import SyncProperties ContextProperties DestinationProperties WalkProperties.
Import TagListProperties PatternProperties.

#[local] Existing Instance Sample.env.

(** C1: the manifest gives the image busybox of registry.example.com the
    selector [*], which does not compile, and lists another registry.
    The repository has tags, so the planner does not skip the image: it
    panics on the nil regular expression, and with it the planning of
    every other entry ends. *)
Theorem invalid_regex_aborts_planning :
  (exists err, regexp_Compile "*" = inr err)
  /\ exists w',
       imagesToCopy "/etc/sync/bad-regex.yml" "yaml" 0 world
       = Panicked nil_dereference w'.
Proof. split; eexists; vm_compute; reflexivity. Qed.

(** C3: for the registry localhost:5000 the text matched is [5000/repo],
    the piece between the first two colons of the reference.  The tag
    v1.0 matches [^v1] and is not selected; it does not match [5000] and
    is selected. *)
Theorem pattern_matched_against_port_segment :
  (exists re w',
      regexp_Compile "^v1" = inl re
      /\ Regexp_Match re "v1.0" = true
      /\ imagesToCopy "/etc/sync/port-regex.yml" "yaml" 0 world = Returned ([], None) w')
  /\ (exists re w',
        regexp_Compile "5000" = inl re
        /\ Regexp_Match re "v1.0" = false
        /\ resolve_tags "localhost:5000" "repo" "//localhost:5000/repo"
             (YString "5000") 0 world
           = Returned (Some [tagged "localhost:5000/repo" "v1.0"]) w').
Proof.
  split; eexists _, _; (split; [|split]); vm_compute; reflexivity.
Qed.

(** C4 as stated fails on the empty list.  The manifest gives the image
    alpine the list [[]]: all of its elements are scalars and it has no
    valid entry, yet the resolved sequence of the image is not empty; it
    holds the two tags that the registry lists. *)
Lemma empty_explicit_list_lists_every_tag :
  exists (d : repoDescriptor) (w' : World),
    imagesToCopy "/etc/sync/empty-list.yml" "yaml" 0 world = Returned ([d], None) w'
    /\ forallb is_scalar [] = true
    /\ TaggedImages d = [tagged "registry.example.com/alpine" "3.18";
                         tagged "registry.example.com/alpine" "edge"]
    /\ length (TaggedImages d)
       <> length (valid_tags "//registry.example.com/alpine" (scalars [])).
Proof.
  eexists _, _. split; [vm_compute; reflexivity|].
  split; [reflexivity|]. split; [reflexivity|]. simpl. discriminate.
Qed.

(** C7: [/early] directly contains a marker file, and so does its
    subdirectory [a].  The walk lists a directory in the order of the
    names and [a] sorts before manifest.json, so the stored image in
    [/early/a] is found before the marker of [/early] is: a reference is
    returned for a path beneath a directory that directly contains a
    marker. *)
Theorem subdirectory_before_the_marker :
  (exists wr es, FS.Stat fs "/early" = inl (Directory wr es) /\ has_marker es = true)
  /\ imagesToCopyFromDir "/early" world
     = Returned ([dirReference "/early/a"; dirReference "/early"], None) world.
Proof. split; [eexists _, _; split; reflexivity|reflexivity]. Qed.

(** A subdirectory whose name sorts after manifest.json is not walked:
    [/nested/z] holds a stored image and gets no reference. *)
Example subdirectory_after_the_marker :
  (exists wr es, FS.Stat fs "/nested/z" = inl (Directory wr es) /\ has_marker es = true)
  /\ imagesToCopyFromDir "/nested" world = Returned ([dirReference "/nested"], None) world.
Proof. split; [eexists _, _; split; reflexivity|reflexivity]. Qed.

Lemma manifest_contexts_witness :
  (exists ds w',
      w_heap world !! 0%nat = Some base_context
      /\ imagesToCopy "/etc/sync/all.yml" "yaml" 0 world = Returned (ds, None) w'
      /\ w_heap w' !! 0%nat = Some base_context)
  /\ (exists ds2 w2,
        for_range (take 1 (Images first_registry) ++ drop 1 (Images first_registry))
          (registry_loop_body "registry.example.com" first_registry 1) []
          world_in_registry
        = Returned ds2 w2
        /\ exists ds1 w1 new,
             for_range (take 1 (Images first_registry))
               (registry_loop_body "registry.example.com" first_registry 1) []
               world_in_registry
             = Returned ds1 w1
             /\ ds2 = ds1 ++ new
             /\ forall d, d ∈ ds1 -> w_heap w2 !! Context d = w_heap w1 !! Context d)
  /\ (exists r w2,
        for_range_return (take 1 all_cfg ++ drop 1 all_cfg) (yaml_loop_body 0) [] world
        = Returned r w2
        /\ exists ds1 w1 new,
             for_range_return (take 1 all_cfg) (yaml_loop_body 0) [] world
             = Returned (inl ds1) w1
             /\ r = inl (ds1 ++ new)
             /\ forall d, d ∈ ds1 ->
                  Context d <> 0%nat
                  /\ w_heap w2 !! Context d = w_heap w1 !! Context d).
Proof.
  destruct (manifest_contexts_cloned_and_frozen (E:=env)) as (H1 & H2 & H3).
  split; [|split].
  - eexists _, _. split; [reflexivity|]. split; [vm_compute; reflexivity|].
    refine (proj1 (H1 "/etc/sync/all.yml" 0%nat base_context world _ _ _ _ _));
      [reflexivity|vm_compute; reflexivity].
  - eexists _, _. split; [vm_compute; reflexivity|].
    apply (H2 "registry.example.com" first_registry 1%nat
             (take 1 (Images first_registry)) (drop 1 (Images first_registry))).
    vm_compute. reflexivity.
  - eexists _, _. split; [vm_compute; reflexivity|].
    apply (H3 0%nat base_context (take 1 all_cfg) (drop 1 all_cfg));
      [reflexivity|vm_compute; reflexivity].
Defined.

Lemma explicit_tag_list_witness :
  scalars mixed_list <> []
  /\ (exists w',
        resolve_tags "registry.example.com" "busybox" "//registry.example.com/busybox"
          (YSlice mixed_list) 0 world
        = Returned (Some [tagged "registry.example.com/busybox" "v1.0";
                          tagged "registry.example.com/busybox" "2";
                          tagged "registry.example.com/busybox" "1.5"]) w')
  /\ scalars [YBool true] = []
  /\ resolve_tags "registry.example.com" "alpine" "//registry.example.com/alpine"
       (YSlice [YBool true]) 0 world
     = resolve_tags "registry.example.com" "alpine" "//registry.example.com/alpine"
         YNil 0
         (log_more (element_log "alpine" "registry.example.com" (YBool true)) world).
Proof.
  assert (Hsome : scalars mixed_list <> []) by (vm_compute; discriminate).
  split; [exact Hsome|]. split.
  - eexists.
    exact (proj1 (proj1 (explicit_tag_list (E:=env) "registry.example.com" "busybox"
                           mixed_list 0%nat world) Hsome)).
  - split; [reflexivity|].
    exact (proj2 (explicit_tag_list (E:=env) "registry.example.com" "alpine"
                    [YBool true] 0%nat world) eq_refl).
Defined.

Lemma unauthorized_tag_listing_witness :
  docker_GetRepositoryTags (w_heap world !! 0%nat)
    (Reference.TagNameOnly private_repository)
  = inr (ErrUnauthorizedForCredentials "authentication required")
  /\ (exists w',
        getImageTags 0 (dockerReference (Reference.TagNameOnly private_repository)) world
        = Returned ([], None) w')
  /\ (exists w',
        imagesToCopy "registry.example.com/private" "docker" 0 world
        = Returned ([], Some (no_images "registry.example.com/private")) w')
  /\ (exists w',
        run docker_to_dir ["registry.example.com/private"; "/out/new"] world
        = Returned (Some (no_images "registry.example.com/private")) w').
Proof.
  destruct (unauthorized_tag_listing (E:=env)) as (H1 & H2 & H3).
  split; [reflexivity|]. split; [|split].
  - destruct (H1 0%nat (Reference.TagNameOnly private_repository)
                "authentication required" world eq_refl) as (w' & Hrun & _).
    exists w'. exact Hrun.
  - apply (H2 "registry.example.com/private" private_repository
             "authentication required" 0%nat world); reflexivity.
  - apply (H3 docker_to_dir "registry.example.com/private" "/out/new"
             private_repository "authentication required" base_context world);
      reflexivity.
Defined.

Lemma absent_tls_verify_witness :
  (forall v, (YString "tls-verify", v) ∉ first_registry_fields)
  /\ Yaml.decode_registry (YMap first_registry_fields) = inl first_registry
  /\ skip (TLSVerify first_registry) = OptionalBoolUndefined
  /\ DockerInsecureSkipTLSVerify base_context = OptionalBoolTrue
  /\ (exists ds w',
        imagesToCopyFromRegistry "registry.example.com" first_registry base_context world
        = Returned (ds, None) w'
        /\ ds <> []
        /\ w_heap w' = [base_context; overridden first_registry base_context]
        /\ enforces_TLS_verification (overridden first_registry base_context)
        /\ forall d, d ∈ ds ->
             exists c, w_heap w' !! Context d = Some c
                       /\ DockerInsecureSkipTLSVerify c = OptionalBoolUndefined
                       /\ enforces_TLS_verification c)
  /\ (exists w',
        registry_loop_body "registry.example.com" first_registry 1
          ("private", YNil) [] world_in_registry
        = Returned [] w'
        /\ w_heap w' !! 1 = Some (overridden first_registry base_context)).
Proof.
  assert (Habsent : forall v, (YString "tls-verify", v) ∉ first_registry_fields).
  { intros v Hin. unfold first_registry_fields in Hin.
    apply elem_of_cons in Hin as [[=]|Hin].
    apply elem_of_cons in Hin as [[=]|Hin].
    now apply elem_of_nil in Hin. }
  destruct (TLSProperties.absent_tls_verify_enforces_verification (E:=env)
              first_registry_fields first_registry Habsent eq_refl)
    as (Hskip & Hon & _ & Hctx & _ & Hlisting & _).
  split; [exact Habsent|]. split; [reflexivity|]. split; [exact Hskip|].
  split; [reflexivity|]. split.
  - assert (Hrun : exists ds w',
      imagesToCopyFromRegistry "registry.example.com" first_registry base_context world
      = Returned (ds, None) w' /\ ds <> [])
      by (eexists _, _; split; [vm_compute; reflexivity|discriminate]).
    destruct Hrun as (ds & w' & Hrun & Hds). exists ds, w'.
    destruct (Hctx "registry.example.com" base_context world w' ds None Hrun)
      as (Hheap & _ & Hds').
    split; [exact Hrun|]. split; [exact Hds|].
    split; [apply Hheap; discriminate|]. split; [apply Hon|exact Hds'].
  - apply (Hlisting "registry.example.com" 1%nat "private" YNil [] base_context
             world_in_registry
             (Reference.TagNameOnly private_repository));
      [reflexivity|now left|reflexivity|discriminate].
Defined.

Lemma directory_enumeration_witness :
  (forall p, directory_resolve_error (w_fs world) p = None)
  /\ FS.Stat (w_fs world) "/images"
     = inl (Directory true [("busybox", image_dir); ("alpine", image_dir)])
  /\ nested_free (Directory true [("busybox", image_dir); ("alpine", image_dir)]) = true
  /\ imagesToCopyFromDir "/images" world
     = Returned ([dirReference "/images/alpine"; dirReference "/images/busybox"], None)
         world
  /\ FS.walk (walk_manifest fs) "nested"
       (Directory true [("manifest.json", File "{}"); ("z", image_dir)]) "/nested" []
     = FS.walk (walk_manifest fs) "nested"
         (Directory true [("manifest.json", File "{}")]) "/nested" [].
Proof.
  destruct (directory_enumeration (E:=env)) as (H1 & H2).
  split; [reflexivity|]. split; [reflexivity|]. split; [reflexivity|]. split.
  - exact (H1 "/images" world true [("busybox", image_dir); ("alpine", image_dir)]
             (fun _ => eq_refl) eq_refl eq_refl).
  - apply (H2 fs "nested" "/nested" true true
             [("manifest.json", File "{}"); ("z", image_dir)]
             [("manifest.json", File "{}")]
             [] [("z", image_dir)] [] ("manifest.json", File "{}") []);
      reflexivity.
Defined.

Lemma filesystem_destination_witness :
  (exists n, FS.Stat (w_fs world) "/out/taken" = inl n)
  /\ destinationReference "/out/taken" "dir" world
     = Returned
         (inr (ErrorString ("Refusing to overwrite destination directory "
                            +:+ GoStrings.quoted "/out/taken"))) world
  /\ (exists w',
        destinationReference "/out/new/a" "dir" world
        = Returned (inl (dirReference "/out/new/a")) w'
        /\ exists wr es, FS.resolve (w_fs w') ["out"; "new"; "a"] = inl (Directory wr es))
  /\ (exists n, FS.Stat (w_fs world) "/out/busybox:v1.0" = inl n)
  /\ (exists err,
        copy_loop_body docker_to_dir "/out"
          {| RemoveSignatures := false; SignBy := ""; SourceCtx := 0;
             DestinationCtx := 1 |}
          {| DirBasePath := ""; TaggedImages := []; Context := 0 |}
          (tagged "registry.example.com/busybox" "v1.0") 0 world
        = Returned (inr err) world).
Proof.
  destruct (filesystem_destination (E:=env) "/out/taken" world) as (H1 & _ & _ & _).
  destruct (filesystem_destination (E:=env) "/out/new/a" world) as (_ & H2 & _ & _).
  destruct (filesystem_destination (E:=env) "/out/busybox:v1.0" world)
    as (_ & _ & H3 & _).
  split; [eexists; reflexivity|]. split; [apply (H1 (Directory true [])); reflexivity|].
  split; [|split; [eexists; reflexivity|]].
  - eexists. split; [vm_compute; reflexivity|].
    eapply (H2 (dirReference "/out/new/a")); [vm_compute; reflexivity|].
    instantiate (1 := []). reflexivity.
  - eexists.
    apply (H3 docker_to_dir "/out" _ _ (tagged "registry.example.com/busybox" "v1.0")
             0%nat image_dir); reflexivity.
Defined.

Lemma imagesToCopy_unknown_transport_witness :
  "oci" <> "docker" /\ "oci" <> "dir" /\ "oci" <> "yaml"
  /\ imagesToCopy "registry.example.com/busybox" "oci" 0 world = Returned ([], None) world
  /\ exists msg,
       run {| removeSignatures := false; signByFingerprint := ""; source := "oci";
              destination := "dir"; scoped := false |}
         ["registry.example.com/busybox"; "/out/new"] world
       = Returned (Some (ErrorString msg)) world.
Proof.
  assert (H1 : "oci" <> "docker") by discriminate.
  assert (H2 : "oci" <> "dir") by discriminate.
  assert (H3 : "oci" <> "yaml") by discriminate.
  destruct (imagesToCopy_unknown_transport (E:=env) "registry.example.com/busybox" "oci"
              0%nat world H1 H2 H3) as [Hplan Hrun].
  repeat split; try assumption.
  eexists. apply Hrun; reflexivity.
Defined.

End SampleRuns.

(** ** Further runs on the sample environment *)

Module PlanningRuns.
Import GoStrings GoPath GoFacts Sync Sample Markers ContextSpec TagListSpec PatternSpec.
Import RunSpec RunProperties PlanSpec PlanProperties RegistrySpec RegistryProperties.
Import ManifestSpec ManifestProperties TLSProperties EndpointProperties.
Import PatternProperties.

#[local] Existing Instance Sample.env.

Lemma run_refuses_invalid_invocation_witness :
  run docker_to_dir ["registry.example.com/busybox"] world
  = Returned (Some (errorShouldDisplayUsage
                      (ErrorString "Exactly two arguments expected"))) world
  /\ run (E:=EdgeSample.env_with (Some EdgeSample.policy_error)) docker_to_dir
       ["registry.example.com/busybox"; "/out/new"] world
     = Returned (Some (Wrapped EdgeSample.policy_error "Error loading trust policy")) world
  /\ run {| removeSignatures := false; signByFingerprint := ""; source := "docker";
            destination := "oci"; scoped := false |}
       ["registry.example.com/busybox"; "/out/new"] world
     = Returned (Some (ErrorString (quoted "oci"
                                    +:+ " is not a valid destination transport"))) world
  /\ run {| removeSignatures := false; signByFingerprint := ""; source := "dir";
            destination := "dir"; scoped := false |}
       ["/images"; "/out/new"] world
     = Returned
         (Some (ErrorString
            "sync from 'dir' to 'dir' not implemented, consider using rsync instead"))
         world.
Proof.
  split; [|split; [|split]].
  - apply (proj1 (run_refuses_invalid_invocation (E:=env) docker_to_dir world)).
    simpl. lia.
  - apply (proj1 (proj2 (run_refuses_invalid_invocation
                           (E:=EdgeSample.env_with (Some EdgeSample.policy_error))
                           docker_to_dir world))).
    reflexivity.
  - apply (proj1 (proj2 (proj2 (run_refuses_invalid_invocation (E:=env)
             {| removeSignatures := false; signByFingerprint := ""; source := "docker";
                destination := "oci"; scoped := false |} world))));
      reflexivity.
  - apply (proj2 (proj2 (proj2 (run_refuses_invalid_invocation (E:=env)
             {| removeSignatures := false; signByFingerprint := ""; source := "dir";
                destination := "dir"; scoped := false |} world))));
      reflexivity.
Defined.

Lemma run_success_counts_images_witness :
  exists (w' w1 w2 : World) (srcRepoList : list repoDescriptor),
    run docker_to_dir ["registry.example.com/alpine"; "/out/new"] world = Returned None w'
    /\ imagesToCopy "registry.example.com/alpine" "docker" 1
         (with_heap [base_context; base_context] world)
       = Returned (srcRepoList, None) w1
    /\ all_copied docker_to_dir "/out/new" (length (w_heap w1))
         (planned_copies srcRepoList) (with_heap (w_heap w1 ++ [base_context]) w1) w2
    /\ length (planned_copies srcRepoList) = 2
    /\ w' = log_more [synced 2 1] w2.
Proof.
  assert (Hrun : exists w',
    run docker_to_dir ["registry.example.com/alpine"; "/out/new"] world
    = Returned None w') by (eexists; vm_compute; reflexivity).
  destruct Hrun as [w' Hrun].
  destruct (run_success_counts_images (E:=env) docker_to_dir
              "registry.example.com/alpine" "/out/new" world w' Hrun)
    as (c & d & srcRepoList & w1 & w2 & Hc & Hplan & Hd & Hcopies & Hlen & Hw' & _).
  injection Hc as <-. injection Hd as <-.
  pose proof Hplan as Hplanned. vm_compute in Hplanned. injection Hplanned as <- <-.
  do 4 eexists. split; [exact Hrun|]. split; [exact Hplan|].
  split; [exact Hcopies|]. split; [reflexivity|]. exact Hw'.
Defined.

Lemma planned_descriptors_hold_images_witness :
  exists ds,
    imagesToCopy "/images" "dir" 0 world = Returned (ds, None) world
    /\ Forall (fun d => TaggedImages d <> []) ds
    /\ length ds = 1.
Proof.
  assert (Hrun : exists ds,
    imagesToCopy "/images" "dir" 0 world = Returned (ds, None) world)
    by (eexists; vm_compute; reflexivity).
  destruct Hrun as [ds Hrun]. exists ds. split; [exact Hrun|].
  destruct (planned_descriptors_hold_images (E:=env) "/images" "dir" 0%nat world world
              ds None Hrun) as (Hall & _ & Hone).
  split; [exact Hall|]. apply Hone; [now right|reflexivity].
Defined.

Lemma planned_references_match_transport_witness :
  exists ds w',
    imagesToCopy "/etc/sync/all.yml" "yaml" 0 world = Returned (ds, None) w'
    /\ length ds = 3
    /\ forall d, d ∈ ds ->
         DirBasePath d = "" /\ forallb is_docker (TaggedImages d) = true
         /\ ("yaml" = "docker" -> Context d = 0%nat).
Proof.
  assert (Hrun : exists ds w',
    imagesToCopy "/etc/sync/all.yml" "yaml" 0 world = Returned (ds, None) w'
    /\ length ds = 3)
    by (eexists _, _; split; vm_compute; reflexivity).
  destruct Hrun as (ds & w' & Hrun & Hlen). exists ds, w'.
  split; [exact Hrun|]. split; [exact Hlen|].
  exact (planned_references_match_transport (E:=env) "/etc/sync/all.yml" "yaml" 0%nat
           world w' ds None Hrun).
Defined.

Lemma manifest_plan_fails_on_the_manifest_only_witness :
  exists err,
    imagesToCopy "/etc/sync/broken.yml" "yaml" 0 world = Returned ([], Some err) world
    /\ newSourceConfig "/etc/sync/broken.yml" world = Returned ([], Some err) world.
Proof.
  assert (Hrun : exists err,
    imagesToCopy "/etc/sync/broken.yml" "yaml" 0 world = Returned ([], Some err) world)
    by (eexists; vm_compute; reflexivity).
  destruct Hrun as [err Hrun]. exists err. split; [exact Hrun|].
  exact (proj1 (manifest_plan_fails_on_the_manifest_only (E:=env) "/etc/sync/broken.yml"
                  0%nat world world [] err Hrun)).
Defined.

Lemma planning_is_read_only_witness :
  exists r w',
    imagesToCopy "registry.example.com/alpine" "docker" 0 world = Returned r w'
    /\ w_fs w' = w_fs world
    /\ w_heap w' = w_heap world.
Proof.
  assert (Hrun : exists r w',
    imagesToCopy "registry.example.com/alpine" "docker" 0 world = Returned r w')
    by (eexists _, _; vm_compute; reflexivity).
  destruct Hrun as (r & w' & Hrun). exists r, w'. split; [exact Hrun|].
  destruct (planning_is_read_only (E:=env) "registry.example.com/alpine" "docker" 0%nat
              world w' r Hrun) as (Hfs & _ & Hheap & _).
  split; [exact Hfs|]. apply Hheap. discriminate.
Defined.

Lemma tagged_docker_source_witness :
  reference_ParseNormalizedNamed "registry.example.com/busybox:v1.0"
  = inl (EdgeSample.named "registry.example.com/busybox" (Some "v1.0"))
  /\ imagesToCopy "registry.example.com/busybox:v1.0" "docker" 0 world
     = Returned
         ([{| DirBasePath := "";
              TaggedImages := [tagged "registry.example.com/busybox" "v1.0"];
              Context := 0 |}], None)
         (log_more [tag_presence "registry.example.com/busybox:v1.0" true] world).
Proof.
  split; [reflexivity|].
  apply (tagged_docker_source (E:=env) "registry.example.com/busybox:v1.0"
           (EdgeSample.named "registry.example.com/busybox" (Some "v1.0")) 0%nat world);
    [reflexivity|reflexivity|now right].
Defined.

Lemma listing_failure_witness :
  fatal_listing_error (ErrorString "repository name not known to registry")
  /\ (exists r w',
        getImageTags 0 (tagged "registry.example.com/unknown" "latest") world
        = Returned ([], Some r) w')
  /\ exists r w',
       imagesToCopy "registry.example.com/unknown" "docker" 0 world
       = Returned ([], Some r) w'.
Proof.
  assert (Hfatal : fatal_listing_error
                     (ErrorString "repository name not known to registry"))
    by (intros msg; discriminate).
  destruct (listing_failure_is_fatal_for_a_repository_source (E:=env)) as [H1 H2].
  split; [exact Hfatal|]. split.
  - eexists _, _.
    apply (H1 0%nat (EdgeSample.named "registry.example.com/unknown" (Some "latest"))
             (ErrorString "repository name not known to registry") world);
      [reflexivity|exact Hfatal].
  - eexists _, _.
    apply (H2 "registry.example.com/unknown"
             (EdgeSample.named "registry.example.com/unknown" None)
             (ErrorString "repository name not known to registry") 0%nat world);
      [reflexivity|reflexivity|reflexivity|exact Hfatal].
Defined.

Lemma unreadable_or_malformed_manifest_witness :
  FS.ReadFile (w_fs world) "/etc/sync/missing.yml"
  = inr (PathError "open" "/etc/sync/missing.yml" ENOENT)
  /\ imagesToCopy "/etc/sync/missing.yml" "yaml" 0 world
     = Returned ([], Some (PathError "open" "/etc/sync/missing.yml" ENOENT)) world
  /\ FS.ReadFile (w_fs world) "/etc/sync/broken.yml" = inl "{"
  /\ (exists err,
        unmarshal_sourceConfig "{" = inr err
        /\ imagesToCopy "/etc/sync/broken.yml" "yaml" 0 world
           = Returned ([], Some (Wrapped err ("Failed to unmarshal "
                                              +:+ quoted "/etc/sync/broken.yml")))
               world
        /\ run {| removeSignatures := false; signByFingerprint := ""; source := "yaml";
                  destination := "docker"; scoped := false |}
             ["/etc/sync/broken.yml"; "registry.example.com/mirror"] world
           = Returned (Some (Wrapped err ("Failed to unmarshal "
                                          +:+ quoted "/etc/sync/broken.yml")))
               (with_heap (w_heap world ++ [base_context]) world)).
Proof.
  destruct (unreadable_or_malformed_manifest_is_fatal (E:=env) "/etc/sync/missing.yml"
              world) as [H1 _].
  destruct (unreadable_or_malformed_manifest_is_fatal (E:=env) "/etc/sync/broken.yml"
              world) as [_ H2].
  split; [reflexivity|]. split.
  { exact (proj1 (H1 (PathError "open" "/etc/sync/missing.yml" ENOENT) eq_refl 0%nat)). }
  split; [reflexivity|].
  exists (ErrorString "yaml: did not find expected node content").
  split; [reflexivity|].
  destruct (H2 "{" (ErrorString "yaml: did not find expected node content")
              eq_refl eq_refl 0%nat) as [Hplan Hrun].
  split; [exact Hplan|]. apply Hrun; reflexivity.
Defined.

Lemma tls_verify_key_witness :
  Yaml.decode_registry
    (YMap ([(YString "images", YMap [(YString "repo", YSlice [YString "v1.0"])])]
           ++ (YString "tls-verify", YBool false) :: []))
  = inl (List.last (map snd all_cfg) Yaml.zero_registrySyncConfig)
  /\ skip (TLSVerify (List.last (map snd all_cfg) Yaml.zero_registrySyncConfig))
     = OptionalBoolTrue
  /\ (exists ds w',
        imagesToCopyFromRegistry "localhost:5000"
          (List.last (map snd all_cfg) Yaml.zero_registrySyncConfig) base_context world
        = Returned (ds, None) w'
        /\ ds <> []
        /\ forall d, d ∈ ds ->
             exists c, w_heap w' !! Context d = Some c
                       /\ DockerInsecureSkipTLSVerify c = OptionalBoolTrue
                       /\ DockerDaemonInsecureSkipTLSVerify c = true)
  /\ exists err,
       Yaml.decode_registry (YMap ([] ++ (YString "tls-verify", YString "yes") :: []))
       = inr err.
Proof.
  destruct (tls_verify_key_sets_both_flags (E:=env)) as (_ & H2 & H3).
  assert (Habsent : forall v, (YString "tls-verify", v) ∉ @nil (yamlValue * yamlValue)).
  { intros v Hin. now apply elem_of_nil in Hin. }
  destruct (H2 [(YString "images", YMap [(YString "repo", YSlice [YString "v1.0"])])]
              [] false (List.last (map snd all_cfg) Yaml.zero_registrySyncConfig)
              Habsent eq_refl) as [Hskip Hctx].
  split; [reflexivity|]. split; [exact Hskip|]. split.
  - assert (Hrun : exists ds w',
      imagesToCopyFromRegistry "localhost:5000"
        (List.last (map snd all_cfg) Yaml.zero_registrySyncConfig) base_context world
      = Returned (ds, None) w' /\ ds <> [])
      by (eexists _, _; split; [vm_compute; reflexivity|discriminate]).
    destruct Hrun as (ds & w' & Hrun & Hne). exists ds, w'.
    split; [exact Hrun|]. split; [exact Hne|].
    exact (Hctx "localhost:5000" base_context world w' ds None Hrun).
  - exact (H3 [] [] (YString "yes") Yaml.zero_registrySyncConfig eq_refl eq_refl).
Defined.

Lemma override_context_witness :
  w_heap world !! 0%nat = Some base_context
  /\ exists c' w',
       override_context first_registry 0 world = Returned tt w'
       /\ w_heap w' = [c']
       /\ DockerCertPath c' = "/certs"
       /\ DockerInsecureSkipTLSVerify c' = OptionalBoolUndefined
       /\ DockerDaemonInsecureSkipTLSVerify c' = false
       /\ AuthFilePath c' = "/run/user/1000/auth.json"
       /\ override_context first_registry 0 w' = Returned tt w'.
Proof.
  split; [reflexivity|].
  destruct (override_context_writes_registry_settings first_registry 0%nat base_context
              world eq_refl)
    as (c' & w' & Hrun & Hh & _ & _ & Hcert & _ & Hskip & Hdaemon & _ & Hauth & _ & _
        & Hagain).
  exists c', w'. split; [exact Hrun|]. split; [exact Hh|]. split; [exact Hcert|].
  split; [exact Hskip|]. split.
  - destruct (DockerDaemonInsecureSkipTLSVerify c'); [|reflexivity].
    pose proof (proj1 Hdaemon eq_refl) as Hbad. vm_compute in Hbad. discriminate.
  - split; [exact Hauth|exact Hagain].
Defined.

Lemma directory_source_without_images_witness :
  imagesToCopy "/missing" "dir" 0 world
  = Returned ([], Some (Wrapped (PathError "stat" "/missing" ENOENT)
                          "Invalid source directory specified")) world
  /\ (exists n, FS.Stat (w_fs world) "/etc" = inl n /\ marker_free n = true)
  /\ imagesToCopy "/etc" "dir" 0 world = Returned ([], Some (no_images "/etc")) world.
Proof.
  destruct (directory_source_without_images_is_fatal (E:=env) "/missing" 0%nat world)
    as [H1 _].
  destruct (directory_source_without_images_is_fatal (E:=env) "/etc" 0%nat world)
    as [_ H2].
  split; [exact (H1 _ eq_refl)|]. split; [eexists; split; reflexivity|].
  eapply H2; reflexivity.
Defined.

Lemma filter_references_by_tag_witness :
  regexp_Compile "^v1" = inl [(MiniRegexp.Bol, MiniRegexp.One);
                              (MiniRegexp.Lit "v", MiniRegexp.One);
                              (MiniRegexp.Lit "1", MiniRegexp.One)]
  /\ filter_references
       (Some [(MiniRegexp.Bol, MiniRegexp.One); (MiniRegexp.Lit "v", MiniRegexp.One);
              (MiniRegexp.Lit "1", MiniRegexp.One)])
       [tagged "registry.example.com/busybox" "v1.0";
        tagged "registry.example.com/busybox" "v2.0";
        tagged "registry.example.com/busybox" "v1.1"] world
     = Returned [tagged "registry.example.com/busybox" "v1.0";
                 tagged "registry.example.com/busybox" "v1.1"] world.
Proof.
  split; [reflexivity|].
  exact (filter_references_by_tag (E:=env)
           [(MiniRegexp.Bol, MiniRegexp.One); (MiniRegexp.Lit "v", MiniRegexp.One);
            (MiniRegexp.Lit "1", MiniRegexp.One)]
           [tagged "registry.example.com/busybox" "v1.0";
            tagged "registry.example.com/busybox" "v2.0";
            tagged "registry.example.com/busybox" "v1.1"] world eq_refl).
Defined.

Lemma unscoped_destination_witness :
  destSuffix_of docker_to_dir (tagged "registry.example.com/library/busybox" "v1.0")
    {| DirBasePath := ""; TaggedImages := []; Context := 0 |}
  = "busybox:v1.0".
Proof.
  destruct (unscoped_destination_is_flat docker_to_dir
              (tagged "registry.example.com/library/busybox" "v1.0")
              {| DirBasePath := ""; TaggedImages := []; Context := 0 |} eq_refl)
    as (_ & _ & H).
  apply (H (EdgeSample.named "registry.example.com/library/busybox" (Some "v1.0"))
           "registry.example.com/library" "busybox" "v1.0");
    try reflexivity. discriminate.
Defined.

End PlanningRuns.

(** ** Runs on the second sample environment *)

Module EdgeRuns.
Import GoStrings GoPath GoFacts Sync Markers ContextSpec TagListSpec PatternSpec.
Import RunSpec RunProperties PlanSpec PlanProperties RegistrySpec RegistryProperties.
Import ManifestSpec ManifestProperties SelectorProperties PanicFreedom EdgeSample.

#[local] Existing Instance EdgeSample.env.

Lemma listed_tags_all_or_nothing_witness :
  (exists refs w',
      imagesToCopyFromRepo
        (dockerReference (named "registry.example.com/alpine" (Some "latest")))
        "//registry.example.com/alpine" 0 world
      = Returned (refs, None) w'
      /\ length refs = 2)
  /\ docker_GetRepositoryTags (w_heap world !! 0%nat)
       (named "registry.example.com/odd" (Some "latest"))
     = inl (["v1"] ++ "not a tag" :: ["v2"])
  /\ exists err w',
       imagesToCopyFromRepo
         (dockerReference (named "registry.example.com/odd" (Some "latest")))
         "//registry.example.com/odd" 0 world
       = Returned ([], Some err) w'.
Proof.
  destruct (listed_tags_all_or_nothing (E:=env)
              (named "registry.example.com/alpine" (Some "latest"))
              "//registry.example.com/alpine" 0%nat ["3.18"; "edge"] world eq_refl)
    as [H1 _].
  destruct (listed_tags_all_or_nothing (E:=env)
              (named "registry.example.com/odd" (Some "latest"))
              "//registry.example.com/odd" 0%nat (["v1"] ++ "not a tag" :: ["v2"])
              world eq_refl)
    as [_ H2].
  split; [|split; [reflexivity|]].
  - destruct H1 as (Hrun & Hlen & _).
    { repeat constructor; eexists; vm_compute; reflexivity. }
    eexists _, _. split; [exact Hrun|exact Hlen].
  - eexists _, _.
    apply (H2 ["v1"] ["v2"] "not a tag" Sample.invalid_reference eq_refl);
      [repeat constructor; eexists; vm_compute; reflexivity|reflexivity].
Defined.

Lemma manifest_without_images_witness :
  FS.ReadFile (w_fs world) "/etc/sync/no-images.yml" = inl manifest_no_images
  /\ unmarshal_sourceConfig manifest_no_images = inl no_images_cfg
  /\ (exists warnings : list logEntry,
        warnings ≡ₚ [no_images_specified "registry.example.com";
                     no_images_specified "localhost:5000"]
        /\ imagesToCopy "/etc/sync/no-images.yml" "yaml" 0 world
           = Returned ([], None) (log_more warnings world))
  /\ for_range_return (reverse no_images_cfg) (yaml_loop_body 0) [] world
     = Returned (inl [])
         (log_more [no_images_specified "localhost:5000";
                    no_images_specified "registry.example.com"] world)
  /\ exists w',
       run yaml_to_docker ["/etc/sync/no-images.yml"; "registry.example.com/mirror"] world
       = Returned None w'
       /\ last (w_log w') = Some (synced 0 0).
Proof.
  destruct (manifest_without_images_plans_nothing (E:=env) "/etc/sync/no-images.yml"
              manifest_no_images no_images_cfg 0%nat world eq_refl eq_refl)
    as (Hplan & Hloop & Hrun).
  { repeat constructor. }
  split; [reflexivity|]. split; [reflexivity|]. split; [exact Hplan|].
  split; [exact (Hloop (reverse no_images_cfg) [] world (reverse_Permutation _))|].
  destruct (Hrun yaml_to_docker "registry.example.com/mirror" Sample.base_context
              Sample.base_context eq_refl eq_refl eq_refl eq_refl eq_refl)
    as (w' & Hw' & Hlast & _).
  exists w'. split; [exact Hw'|exact Hlast].
Defined.

Lemma invalid_pattern_witness :
  (exists err, regexp_Compile "*" = inr err)
  /\ (exists reason w',
        resolve_tags "registry.example.com" "busybox" "//registry.example.com/busybox"
          (YString "*") 0 world
        = Panicked reason w')
  /\ exists w',
       resolve_tags "registry.example.com" "empty" "//registry.example.com/empty"
         (YString "*") 0 world
       = Returned (Some []) w'.
Proof.
  assert (Hcompile : exists err, regexp_Compile "*" = inr err)
    by (eexists; vm_compute; reflexivity).
  destruct Hcompile as [err Hcompile].
  destruct (invalid_pattern_panics_once_a_tag_is_listed (E:=env) "registry.example.com"
              "busybox" "//registry.example.com/busybox" "*" 0%nat err
              (named "registry.example.com/busybox" (Some "latest")) world
              Hcompile eq_refl) as [H1 _].
  destruct (invalid_pattern_panics_once_a_tag_is_listed (E:=env) "registry.example.com"
              "empty" "//registry.example.com/empty" "*" 0%nat err
              (named "registry.example.com/empty" (Some "latest")) world
              Hcompile eq_refl) as [_ H2].
  split; [eauto|]. split.
  - apply (H1 "v1.0" ["v1.1"; "v2.0"] eq_refl).
    repeat constructor; eexists; vm_compute; reflexivity.
  - destruct (H2 eq_refl) as (w' & Hw' & _). eauto.
Defined.

Lemma manifest_repository_failures_witness :
  w_heap Sample.world_in_registry !! 1%nat = Some Sample.base_context
  /\ (exists w',
        registry_loop_body "registry.example.com" Sample.first_registry 1
          ("busybox", YInt 5) [] Sample.world_in_registry
        = Returned [] w')
  /\ (exists w',
        registry_loop_body "registry.example.com" Sample.first_registry 1
          ("UPPER", YNil) [] Sample.world_in_registry
        = Returned [] w')
  /\ (exists w',
        registry_loop_body "registry.example.com" Sample.first_registry 1
          ("unknown", YString "^v") [] Sample.world_in_registry
        = Returned [] w')
  /\ (exists w',
        registry_loop_body "registry.example.com" Sample.first_registry 1
          ("empty", YNil) [] Sample.world_in_registry
        = Returned [] w').
Proof.
  split; [reflexivity|]. split; [|split; [|split]].
  - destruct (manifest_repository_failures_are_skipped (E:=env) "registry.example.com"
                Sample.first_registry 1%nat "busybox" (YInt 5) [] [] Sample.base_context
                Sample.world_in_registry eq_refl) as (H & _ & _ & _).
    destruct (H eq_refl) as (w' & Hw' & _). eauto.
  - destruct (manifest_repository_failures_are_skipped (E:=env) "registry.example.com"
                Sample.first_registry 1%nat "UPPER" YNil [] [] Sample.base_context
                Sample.world_in_registry eq_refl) as (_ & H & _ & _).
    destruct (H Sample.invalid_reference (or_introl eq_refl) eq_refl) as (w' & Hw' & _).
    eauto.
  - destruct (manifest_repository_failures_are_skipped (E:=env) "registry.example.com"
                Sample.first_registry 1%nat "unknown" (YString "^v") [] []
                Sample.base_context Sample.world_in_registry eq_refl)
      as (_ & _ & H & _).
    destruct (H (named "registry.example.com/unknown" (Some "latest"))
                (ErrorString "repository name not known to registry")
                (or_intror (ex_intro _ "^v" eq_refl)) eq_refl eq_refl
                (fun msg => ltac:(discriminate))) as (w' & Hw' & _).
    eauto.
  - destruct (manifest_repository_failures_are_skipped (E:=env) "registry.example.com"
                Sample.first_registry 1%nat "empty" YNil [] [] Sample.base_context
                Sample.world_in_registry eq_refl) as (_ & _ & _ & H).
    destruct (H (named "registry.example.com/empty" (Some "latest"))
                (or_introl eq_refl) eq_refl eq_refl) as (w' & Hw' & _).
    eauto.
Defined.

Lemma untagged_docker_source_witness :
  reference_ParseNormalizedNamed "registry.example.com/alpine"
  = inl (named "registry.example.com/alpine" None)
  /\ (exists w',
        imagesToCopy "registry.example.com/alpine" "docker" 0 world
        = Returned
            ([{| DirBasePath := "";
                 TaggedImages := [Sample.tagged "registry.example.com/alpine" "3.18";
                                  Sample.tagged "registry.example.com/alpine" "edge"];
                 Context := 0 |}], None) w')
  /\ exists w',
       imagesToCopy "registry.example.com/empty" "docker" 0 world
       = Returned ([], Some (no_images "registry.example.com/empty")) w'.
Proof.
  split; [reflexivity|]. split.
  - eexists.
    refine (proj1 (untagged_docker_source_lists_every_tag (E:=env)
                     "registry.example.com/alpine"
                     (named "registry.example.com/alpine" None) ["3.18"; "edge"]
                     0%nat world eq_refl eq_refl eq_refl _)).
    repeat constructor; eexists; vm_compute; reflexivity.
  - eexists.
    refine (proj1 (untagged_docker_source_lists_every_tag (E:=env)
                     "registry.example.com/empty"
                     (named "registry.example.com/empty" None) []
                     0%nat world eq_refl eq_refl eq_refl _)).
    constructor.
Defined.

Lemma copy_failure_witness :
  exists w',
    for_range_return
      ([Sample.tagged "registry.example.com/alpine" "3.18"]
       ++ Sample.tagged "registry.example.com/alpine" "edge"
          :: [Sample.tagged "registry.example.com/alpine" "latest"])
      (copy_loop_body Sample.docker_to_dir "/out"
         {| RemoveSignatures := false; SignBy := ""; SourceCtx := 0;
            DestinationCtx := 0 |}
         {| DirBasePath := ""; TaggedImages := []; Context := 0 |}) 0 world
    = Returned
        (inr (Wrapped (ErrorString "manifest unknown")
                ("Error copying tag "
                 +:+ quoted "docker://registry.example.com/alpine:edge"))) w'
    /\ exists wr es, FS.resolve (w_fs w') ["out"; "alpine:edge"] = inl (Directory wr es).
Proof.
  assert (Hcopied : exists w1,
    for_range_return [Sample.tagged "registry.example.com/alpine" "3.18"]
      (copy_loop_body Sample.docker_to_dir "/out"
         {| RemoveSignatures := false; SignBy := ""; SourceCtx := 0;
            DestinationCtx := 0 |}
         {| DirBasePath := ""; TaggedImages := []; Context := 0 |}) 0 world
    = Returned (inl 1%nat) w1
    /\ exists w2,
         destinationReference "/out/alpine:edge" "dir" w1
         = Returned (inl (dirReference "/out/alpine:edge")) w2
         /\ exists wr es,
              FS.resolve (w_fs w2) ["out"; "alpine:edge"] = inl (Directory wr es)).
  { eexists. split; [vm_compute; reflexivity|].
    eexists. split; [vm_compute; reflexivity|]. eexists _, _. vm_compute. reflexivity. }
  destruct Hcopied as (w1 & Hcopied & w2 & Hdest & Hmade).
  destruct (copy_failure_ends_the_loop (E:=env) Sample.docker_to_dir "/out"
              {| RemoveSignatures := false; SignBy := ""; SourceCtx := 0;
                 DestinationCtx := 0 |}
              {| DirBasePath := ""; TaggedImages := []; Context := 0 |}
              [Sample.tagged "registry.example.com/alpine" "3.18"]
              [Sample.tagged "registry.example.com/alpine" "latest"]
              (Sample.tagged "registry.example.com/alpine" "edge")
              (dirReference "/out/alpine:edge") 0%nat 1%nat world w1 w2
              (ErrorString "manifest unknown") (w_fs w2) Hcopied Hdest eq_refl)
    as (w' & Hrun & Hfs & _).
  exists w'. split; [exact Hrun|]. now rewrite Hfs.
Defined.

Lemma docker_and_dir_sources_witness :
  source Sample.docker_to_dir <> "yaml"
  /\ (exists r w',
        imagesToCopy "registry.example.com/odd" (source Sample.docker_to_dir) 0 world
        = Returned r w')
  /\ exists err w',
       run Sample.docker_to_dir ["registry.example.com/odd"; "/out/new"] world
       = Returned err w'.
Proof.
  assert (Hsource : source Sample.docker_to_dir <> "yaml") by discriminate.
  destruct (docker_and_dir_sources_never_panic (E:=env) Sample.docker_to_dir
              ["registry.example.com/odd"; "/out/new"] world Hsource) as [Hplan Hrun].
  split; [exact Hsource|]. split; [apply Hplan|exact Hrun].
Defined.

End EdgeRuns.
